(** * gws: the message reader, the client handshake and the option defaults

    A shallow embedding of three Go sources of the WebSocket engine:
    the reader ([checkMask], [readControl], [readFrame], [ReadMessage],
    [emitMessage]), the client connector ([checkHeaders], [getSubProtocol],
    [handshake], [NewClient], [NewClientFromConn]) and the option records
    ([initServerOption], [initClientOption], [getConfig]).

    Go values are modelled as follows.
    - [uint8] bytes are [Byte.byte]; a [[]byte] is a [list byte].
    - [int] is [Z]; the one conversion of the sources that can leave the
      range of the machine word, the 64-bit length of a frame read into
      an [int], is written out ([toInt]); a buffer is never too long to
      be indexed.
    - a run-time panic of a connection method is the outcome
      [Err (EPanic _)]: nothing is returned to the caller, and the
      short-cut of the monad is the unwinding of the stack.
    - a pointer that may be [nil] is an [option]; a struct is a [Record].
    - a method with a pointer receiver that returns an [error] is a
      function in the monad [M]: the connection is threaded, an error
      short-cuts the rest of the body and keeps the connection as it was
      left at that point.
    - calls of the user's handler are recorded, in order, in the
      connection's [events]. *)

From stdpp Require Import base numbers list strings gmap.
From Stdlib Require Import ZArith Lia.
From Stdlib.Strings Require Import Byte.

Local Open Scope Z_scope.

(** ** Errors *)

(** Modelled from the spec: the close codes of the [internal] package
    (section 6, "Close codes"), which the sources name but do not define. *)
Definition CloseNormalClosure : Z := 1000.
Definition CloseGoingAway : Z := 1001.
Definition CloseProtocolError : Z := 1002.
Definition CloseUnsupported : Z := 1003.
Definition CloseUnsupportedData : Z := 1007.
Definition CloseMessageTooLarge : Z := 1009.
Definition CloseInternalErr : Z := 1011.

(** A Go [error] value, as far as the three sources build one. *)
Inductive error : Type :=
| EStatus (code : Z)                 (* an internal.StatusCode returned as an error *)
| ENew (code : Z) (inner : error)    (* internal.NewError(code, inner) *)
| EFmt (format : string) (arg : Z)   (* fmt.Errorf(format, arg) *)
| EIO                                (* the transport ran dry inside internal.ReadN *)
| ErrHandshake
| ErrSubprotocolNegotiation
| ErrUnsupportedProtocol
| ErrTextEncoding
| EOther (what : string)             (* an error of a collaborator: url, dialer, http *)
| EPanic (what : string).            (* no error value: the method panics and does not return *)

(** The close code an error carries, if it carries one. *)
Definition closeCode (e : error) : option Z :=
  match e with
  | EStatus code => Some code
  | ENew code _ => Some code
  | _ => None
  end.

Inductive result (A : Type) : Type :=
| Ok (a : A)
| Err (e : error).
Arguments Ok {A} a.
Arguments Err {A} e.

(** ** Bytes *)

Definition Z_of_byte (b : byte) : Z := Z.of_N (Byte.to_N b).

Definition byte_of_Z (z : Z) : byte :=
  default x00 (Byte.of_N (Z.to_N (z mod 256))).

(** [a ^ b] on [uint8], bit by bit. *)
Definition byte_xor (a b : byte) : byte :=
  let '(a0, (a1, (a2, (a3, (a4, (a5, (a6, a7))))))) := Byte.to_bits a in
  let '(b0, (b1, (b2, (b3, (b4, (b5, (b6, b7))))))) := Byte.to_bits b in
  Byte.of_bits (xorb a0 b0, (xorb a1 b1, (xorb a2 b2, (xorb a3 b3,
               (xorb a4 b4, (xorb a5 b5, (xorb a6 b6, xorb a7 b7))))))).

(** [binary.BigEndian.Uint16] and [Uint64]: the big-endian value of a
    byte string. *)
Definition be_uint (bs : list byte) : Z :=
  fold_left (fun acc b => acc * 256 + Z_of_byte b) bs 0.

(** [int(x)] for a [uint64] on a 64-bit platform: the same 64 bits read
    as a signed integer. *)
Definition toInt (x : Z) : Z := if x <? 2 ^ 63 then x else x - 2 ^ 64.

(** The [k] low bytes of [n], most significant first. *)
Fixpoint be_bytes (k : nat) (n : Z) : list byte :=
  match k with
  | O => []
  | S k' => be_bytes k' (n / 256) ++ [byte_of_Z (n mod 256)]
  end.

(** Modelled from the spec: [internal.MaskXOR] (section 4.A, Unmask): XOR
    the payload with the 4-byte key cycled by index mod 4.  [i] is the
    index of the first byte of [p]. *)
Fixpoint MaskXOR_from (i : nat) (p key : list byte) : list byte :=
  match p with
  | [] => []
  | b :: p' =>
      byte_xor b (default x00 (key !! (i mod 4)%nat)) :: MaskXOR_from (S i) p' key
  end.

Definition MaskXOR (p key : list byte) : list byte := MaskXOR_from 0 p key.

(** ** Opcodes and the frame header *)

(** Modelled from the spec: the opcode constants (section 3, Opcode). *)
Definition OpcodeContinuation : Z := 0.
Definition OpcodeText : Z := 1.
Definition OpcodeBinary : Z := 2.
Definition OpcodeCloseConnection : Z := 8.
Definition OpcodePing : Z := 9.
Definition OpcodePong : Z := 10.

(** Modelled from the spec: [Opcode.isDataFrame] (section 3: the data
    opcodes are Text, Binary and Continuation; the remainder are control). *)
Definition isDataFrame (opcode : Z) : bool :=
  (opcode =? OpcodeContinuation) || (opcode =? OpcodeText) || (opcode =? OpcodeBinary).

(** Modelled from the spec: [internal.ThresholdV1], the largest payload
    length that fits the 7-bit length code (section 3: control frames have
    payload at most 125). *)
Definition ThresholdV1 : Z := 125.

(** Modelled from the spec: the type [frameHeader] (section 3, Frame
    Header): the two leading bytes of the frame and the mask key. *)
Record frameHeader : Type := mkFrameHeader {
  fh_b0 : byte;            (* FIN, RSV1, RSV2, RSV3, opcode (4 bits) *)
  fh_b1 : byte;            (* MASK, length code (7 bits) *)
  fh_maskKey : list byte   (* the 4-byte mask key of the last masked frame *)
}.

Definition GetFIN (h : frameHeader) : bool := Z.testbit (Z_of_byte (fh_b0 h)) 7.
Definition GetRSV1 (h : frameHeader) : bool := Z.testbit (Z_of_byte (fh_b0 h)) 6.
Definition GetRSV2 (h : frameHeader) : bool := Z.testbit (Z_of_byte (fh_b0 h)) 5.
Definition GetRSV3 (h : frameHeader) : bool := Z.testbit (Z_of_byte (fh_b0 h)) 4.
Definition GetOpcode (h : frameHeader) : Z := Z.land (Z_of_byte (fh_b0 h)) 15.
Definition GetMask (h : frameHeader) : bool := Z.testbit (Z_of_byte (fh_b1 h)) 7.
Definition GetLengthCode (h : frameHeader) : Z := Z.land (Z_of_byte (fh_b1 h)) 127.
Definition GetMaskKey (h : frameHeader) : list byte := fh_maskKey h.

(** ** Configuration (option.go, type Config) *)

Inductive Logger : Type :=
| defaultLogger
| userLogger (id : nat).

(** A [func(logger Logger)]: the default that does nothing, or the user's. *)
Inductive RecoveryFunc : Type :=
| noRecovery
| userRecovery (id : nat).

Record Config : Type := mkConfig {
  cfg_readerPool : option Z;      (* the size of the readers its pool makes *)
  cfg_ReadAsyncEnabled : bool;
  cfg_ReadAsyncGoLimit : Z;
  cfg_ReadMaxPayloadSize : Z;
  cfg_ReadBufferSize : Z;
  cfg_WriteMaxPayloadSize : Z;
  cfg_WriteBufferSize : Z;
  cfg_CheckUtf8Enabled : bool;
  cfg_Recovery : option RecoveryFunc;
  cfg_Logger : option Logger
}.

(** ** The connection *)

Record Message : Type := mkMessage {
  msg_Opcode : Z;
  msg_Data : list byte
}.

Record continuationFrame : Type := mkContinuation {
  initialized : bool;
  cf_opcode : Z;
  cf_buffer : list byte
}.

(** Modelled from the spec: [continuationFrame.reset] (section 3,
    Continuation State: reset, i.e. initialized = false; the buffer is
    handed to the message and dropped here).  The recorded opcode stays. *)
Definition reset (cf : continuationFrame) : continuationFrame :=
  {| initialized := false; cf_opcode := cf_opcode cf; cf_buffer := [] |}.

(** A call of the user's handler, or the close that [emitClose] starts. *)
Inductive event : Type :=
| OnPing (payload : list byte)
| OnPong (payload : list byte)
| OnClose (payload : list byte)
| OnMessage (parallel : bool) (msg : Message).

Record Conn : Type := mkConn {
  ss : gmap string string;        (* the session storage *)
  isServer : bool;
  subprotocol : string;
  config : Config;
  br : list byte;                 (* the bytes the buffered reader will still yield *)
  cont : continuationFrame;       (* the field continuationFrame *)
  fh : frameHeader;
  events : list event             (* handler calls so far, oldest first *)
}.

Definition set_br (bs : list byte) (c : Conn) : Conn :=
  {| ss := ss c; isServer := isServer c; subprotocol := subprotocol c; config := config c;
     br := bs; cont := cont c; fh := fh c; events := events c |}.

Definition set_fh (h : frameHeader) (c : Conn) : Conn :=
  {| ss := ss c; isServer := isServer c; subprotocol := subprotocol c; config := config c;
     br := br c; cont := cont c; fh := h; events := events c |}.

Definition set_cont (cf : continuationFrame) (c : Conn) : Conn :=
  {| ss := ss c; isServer := isServer c; subprotocol := subprotocol c; config := config c;
     br := br c; cont := cf; fh := fh c; events := events c |}.

Definition emit (e : event) (c : Conn) : Conn :=
  {| ss := ss c; isServer := isServer c; subprotocol := subprotocol c; config := config c;
     br := br c; cont := cont c; fh := fh c; events := events c ++ [e] |}.

(** ** The monad of connection methods *)

Definition M (A : Type) : Type := Conn -> result A * Conn.

Definition ret {A : Type} (a : A) : M A := fun c => (Ok a, c).
Definition fail {A : Type} (e : error) : M A := fun c => (Err e, c).
Definition bind {A B : Type} (m : M A) (k : A -> M B) : M B :=
  fun c =>
    match m c with
    | (Ok a, c') => k a c'
    | (Err e, c') => (Err e, c')
    end.
Definition get : M Conn := fun c => (Ok c, c).
Definition modify (f : Conn -> Conn) : M unit := fun c => (Ok tt, f c).

Declare Scope conn_scope.
Delimit Scope conn_scope with conn.
Notation "x <- m ;; k" := (bind m (fun x => k))
  (at level 100, m at next level, right associativity) : conn_scope.
Notation "m ;;; k" := (bind m (fun _ => k))
  (at level 100, right associativity) : conn_scope.
Local Open Scope conn_scope.

(** Modelled from the spec: [internal.ReadN] (section 4.B step 2): fill a
    buffer of [n] bytes from the reader, or fail when the transport ends
    first; what was there is consumed either way. *)
Definition ReadN (n : Z) : M (list byte) :=
  fun c =>
    if n <=? Z.of_nat (length (br c))
    then (Ok (take (Z.to_nat n) (br c)), set_br (drop (Z.to_nat n) (br c)) c)
    else (Err EIO, set_br [] c).

(** Modelled from the spec: [frameHeader.Parse] (section 4.A, Parse): read
    2 header bytes; if the length code is 126 read a 2-byte big-endian
    length, if 127 an 8-byte one; if MASK is set read the 4-byte key;
    return the payload length.  The payload is not consumed.  The length
    is returned as the [int] that [readFrame] holds and compares with
    ReadMaxPayloadSize: an 8-byte length with the high bit set is a
    negative number. *)
Definition Parse : M Z :=
  h <- ReadN 2 ;;
  c <- get ;;
  let h' := {| fh_b0 := default x00 (h !! 0%nat);
               fh_b1 := default x00 (h !! 1%nat);
               fh_maskKey := fh_maskKey (fh c) |} in
  modify (set_fh h') ;;;
  let lengthCode := GetLengthCode h' in
  payloadLength <-
    (if lengthCode =? 126 then ext <- ReadN 2 ;; ret (be_uint ext)
     else if lengthCode =? 127 then ext <- ReadN 8 ;; ret (toInt (be_uint ext))
     else ret lengthCode) ;;
  (if GetMask h'
   then key <- ReadN 4 ;;
        modify (set_fh {| fh_b0 := fh_b0 h'; fh_b1 := fh_b1 h'; fh_maskKey := key |})
   else ret tt) ;;;
  ret payloadLength.

(** ** The reader *)

Section Reader.

(** [unicode/utf8.Valid], of the Go library. *)
Variable utf8_Valid : list byte -> bool.

(** What [Conn.emitClose], which is not among the sources, returns for a
    close payload: [None] is a nil error. *)
Variable emitClose_result : list byte -> option error.

(** Modelled from the spec: [Conn.emitClose] (section 4.B: decode the close
    payload, call OnClose, initiate the close).  It leaves the
    continuation state alone (section 5: only the reader touches it). *)
Definition emitClose (payload : list byte) : M unit :=
  modify (emit (OnClose payload)) ;;;
  match emitClose_result payload with
  | Some e => fail e
  | None => ret tt
  end.

(** Modelled from the spec: [internal.CheckEncoding] (section 4.B step 6:
    if CheckUtf8Enabled and the opcode is Text, validate UTF-8 across the
    payload). *)
Definition CheckEncoding (enabled : bool) (opcode : Z) (payload : list byte) : bool :=
  if enabled && (opcode =? OpcodeText) then utf8_Valid payload else true.

(** The method checkMask of Conn. *)
Definition checkMask (enabled : bool) : M unit :=
  c <- get ;;
  if (isServer c && negb enabled) || (negb (isServer c) && enabled)
  then fail (EStatus CloseProtocolError)
  else ret tt.

(** The method readControl of Conn. *)
Definition readControl : M unit :=
  c <- get ;;
  if negb (GetFIN (fh c)) then fail (EStatus CloseProtocolError) else
  let n := GetLengthCode (fh c) in
  if n >? ThresholdV1 then fail (EStatus CloseProtocolError) else
  payload <-
    (if n >? 0
     then p <- ReadN n ;;
          ret (if GetMask (fh c) then MaskXOR p (GetMaskKey (fh c)) else p)
     else ret []) ;;
  let opcode := GetOpcode (fh c) in
  if opcode =? OpcodePing then modify (emit (OnPing payload))
  else if opcode =? OpcodePong then modify (emit (OnPong payload))
  else if opcode =? OpcodeCloseConnection then emitClose payload
  else fail (ENew CloseProtocolError (EFmt "gbs: unexpected opcode %d" opcode)).

(** The method readFrame of Conn, which returns a message pointer and an
    error; [Ok None] is the pair (nil, nil).  The buffer pool is not
    modelled; the slice expression that bounds its buffer by the content
    length is, for the panic it raises on a negative length. *)
Definition readFrame : M (option Message) :=
  contentLength <- Parse ;;
  c <- get ;;
  if contentLength >? cfg_ReadMaxPayloadSize (config c)
  then fail (EStatus CloseMessageTooLarge) else
  if GetRSV1 (fh c) || GetRSV2 (fh c) || GetRSV3 (fh c)
  then fail (EStatus CloseProtocolError) else
  let maskEnabled := GetMask (fh c) in
  checkMask maskEnabled ;;;
  let opcode := GetOpcode (fh c) in
  if negb (isDataFrame opcode) then readControl ;;; ret None else
  let fin := GetFIN (fh c) in
  (* p := buf.Bytes()[:contentLength]: a negative bound panics *)
  if contentLength <? 0 then fail (EPanic "slice bounds out of range") else
  p <- ReadN contentLength ;;
  let p := if maskEnabled then MaskXOR p (GetMaskKey (fh c)) else p in
  if negb (opcode =? OpcodeContinuation) && initialized (cont c)
  then fail (EStatus CloseProtocolError) else
  if fin && negb (opcode =? OpcodeContinuation)
  then ret (Some {| msg_Opcode := opcode; msg_Data := p |}) else
  (if negb fin && negb (opcode =? OpcodeContinuation)
   then modify (set_cont {| initialized := true; cf_opcode := opcode; cf_buffer := [] |})
   else ret tt) ;;;
  c <- get ;;
  if negb (initialized (cont c)) then fail (EStatus CloseProtocolError) else
  modify (set_cont {| initialized := initialized (cont c);
                      cf_opcode := cf_opcode (cont c);
                      cf_buffer := cf_buffer (cont c) ++ p |}) ;;;
  c <- get ;;
  if Z.of_nat (length (cf_buffer (cont c))) >? cfg_ReadMaxPayloadSize (config c)
  then fail (EStatus CloseMessageTooLarge) else
  if negb fin then ret None else
  let msg := {| msg_Opcode := cf_opcode (cont c); msg_Data := cf_buffer (cont c) |} in
  modify (set_cont (reset (cont c))) ;;;
  ret (Some msg).

(** The method ReadMessage of Conn: the loop runs until a frame completes
    a message or fails; [fuel] bounds the number of frames read, [None] is
    a loop cut short by the bound. *)
Fixpoint ReadMessage (fuel : nat) (c : Conn) : option (result Message * Conn) :=
  match fuel with
  | O => None
  | S fuel' =>
      match readFrame c with
      | (Err e, c') => Some (Err e, c')
      | (Ok (Some msg), c') => Some (Ok msg, c')
      | (Ok None, c') => ReadMessage fuel' c'
      end
  end.

(** The method dispatch of Conn: the handler is called under the deferred
    Recovery; the call returns nil. *)
Definition dispatch (parallel : bool) (msg : Message) : M unit :=
  modify (emit (OnMessage parallel msg)).

(** The method emitMessage of Conn.  The reader
    writes the configuration flag as ParallelEnabled; option.go and the
    spec name it ReadAsyncEnabled.  With the flag set the message goes
    through the read queue, which calls [dispatch] on another task. *)
Definition emitMessage (msg : Message) : M unit :=
  c <- get ;;
  if negb (CheckEncoding (cfg_CheckUtf8Enabled (config c)) (msg_Opcode msg) (msg_Data msg))
  then fail (ENew CloseUnsupportedData ErrTextEncoding) else
  if cfg_ReadAsyncEnabled (config c)
  then dispatch true msg
  else dispatch false msg.

(** The method readMessage of Conn. *)
Definition readMessage : M unit :=
  msg <- readFrame ;;
  match msg with
  | Some m => emitMessage m
  | None => ret tt
  end.

(** [n] calls of [readFrame] in a row, with the result of each. *)
Fixpoint readFrames (n : nat) (c : Conn) : list (result (option Message)) * Conn :=
  match n with
  | O => ([], c)
  | S n' =>
      let '(r, c') := readFrame c in
      let '(rs, c'') := readFrames n' c' in
      (r :: rs, c'')
  end.

End Reader.

(** ** Outcomes of code that may fault *)

(** A run either ends with a value or faults (a Go panic). *)
Inductive outcome (A : Type) : Type :=
| Done (a : A)
| Panic (what : string).
Arguments Done {A} a.
Arguments Panic {A} what.

Definition obind {A B : Type} (m : outcome A) (k : A -> outcome B) : outcome B :=
  match m with
  | Done a => k a
  | Panic w => Panic w
  end.

(** The objects a pointer of type [*A] may point to, by address. *)
Abbreviation heap A := (gmap nat A).

(** [*p], for a pointer [p] that may be nil. *)
Definition load {A : Type} (h : heap A) (p : option nat) : outcome A :=
  match p with
  | None => Panic "nil pointer dereference"
  | Some l =>
      match h !! l with
      | Some v => Done v
      | None => Panic "dangling pointer"
      end
  end.

(** [new(A)]: a fresh address holding the zero value. *)
Definition new {A : Type} (zero : A) (h : heap A) : heap A * nat :=
  let l := fresh (dom h) in (<[l := zero]> h, l).

(** ** HTTP headers *)

(** Modelled from the spec: the header names and values of the [internal]
    package (sections 4.D and 6). *)
Definition Connection_Key : string := "Connection".
Definition Connection_Val : string := "Upgrade".
Definition Upgrade_Key : string := "Upgrade".
Definition Upgrade_Val : string := "websocket".
Definition SecWebSocketVersion_Key : string := "Sec-WebSocket-Version".
Definition SecWebSocketVersion_Val : string := "13".
Definition SecWebSocketKey_Key : string := "Sec-WebSocket-Key".
Definition SecWebSocketAccept_Key : string := "Sec-WebSocket-Accept".
Definition SecWebSocketExtensions_Key : string := "Sec-WebSocket-Extensions".
Definition SecWebSocketProtocol_Key : string := "Sec-WebSocket-Protocol".
Definition WebSocketGUID : string := "258EAFA5-E914-47DA-95CA-C5AB0DC85B11".

Section Headers.

(** [net/textproto.CanonicalMIMEHeaderKey], of the Go library. *)
Variable CanonicalMIMEHeaderKey : string -> string.

(** [http.Header.Get]: the first value under the canonical key, or the
    empty string. *)
Definition Header_Get (h : gmap string (list string)) (key : string) : string :=
  match h !! CanonicalMIMEHeaderKey key with
  | Some (v :: _) => v
  | _ => ""
  end.

(** [http.Header.Set] and [http.Header.Del]. *)
Definition Header_Set (key value : string) (h : gmap string (list string))
  : gmap string (list string) :=
  <[CanonicalMIMEHeaderKey key := [value]]> h.

Definition Header_Del (key : string) (h : gmap string (list string))
  : gmap string (list string) :=
  delete (CanonicalMIMEHeaderKey key) h.

End Headers.

(** ** Options (option.go) *)

Definition Second : Z := 1000000000.   (* time.Duration counts nanoseconds *)

Definition defaultReadAsyncGoLimit : Z := 8.
Definition defaultCompressLevel : Z := 1.       (* flate.BestSpeed *)
Definition defaultReadMaxPayloadSize : Z := 16 * 1024 * 1024.
Definition defaultWriteMaxPayloadSize : Z := 16 * 1024 * 1024.
Definition defaultCompressThreshold : Z := 512.
Definition defaultCompressorPoolSize : Z := 32.
Definition defaultReadBufferSize : Z := 4 * 1024.
Definition defaultWriteBufferSize : Z := 4 * 1024.
Definition defaultHandshakeTimeout : Z := 5 * Second.
Definition defaultDialTimeout : Z := 5 * Second.

Record PermessageDeflate : Type := mkPermessageDeflate {
  Enabled : bool;
  Level : Z;
  Threshold : Z;
  PoolSize : Z;
  ServerContextTakeover : bool;
  ClientContextTakeover : bool;
  ServerMaxWindowBits : Z;
  ClientMaxWindowBits : Z
}.

Record Request : Type := mkRequest {
  req_Header : gmap string (list string)
}.

Record TlsConfig : Type := mkTlsConfig {
  ServerName : string
}.

(** A dialer: [net.Dialer] with its timeout, or one of the user's. *)
Inductive Dialer : Type :=
| netDialer (Timeout : Z)
| userDialer (id : nat).

(** [newSmap()]: the in-memory session map, empty. *)
Definition newSmap : gmap string string := ∅.

(** [bufio.NewReaderSize(nil, size)], of the Go library: the size of the
    buffer of the reader it makes, which is the size asked for and at
    least 16 bytes. *)
Definition bufio_ReaderSize (size : Z) : Z := Z.max size 16.

(** The option records.  A field that Go holds by reference -- a header
    map, the pointer to the TLS configuration, the pointer to the stored
    [Config] -- is held here by its contents: which records share the
    object, and whether a call makes a new object with the same
    contents, is not modelled.  Where a statement below speaks of other
    records, either the code it is about writes through none of these
    references, or the statement leaves the field aside. *)
Record ServerOption : Type := mkServerOption {
  so_config : option Config;
  so_WriteBufferSize : Z;
  so_PermessageDeflate : PermessageDeflate;
  so_ReadAsyncEnabled : bool;
  so_ReadAsyncGoLimit : Z;
  so_ReadMaxPayloadSize : Z;
  so_ReadBufferSize : Z;
  so_WriteMaxPayloadSize : Z;
  so_CheckUtf8Enabled : bool;
  so_Logger : option Logger;
  so_Recovery : option RecoveryFunc;
  so_TlsConfig : option TlsConfig;
  so_HandshakeTimeout : Z;
  so_SubProtocols : list string;
  so_ResponseHeader : option (gmap string (list string));
  so_Authorize : option (Request -> gmap string string -> bool);
  so_NewSession : option (unit -> gmap string string)
}.

Record ClientOption : Type := mkClientOption {
  co_WriteBufferSize : Z;
  co_PermessageDeflate : PermessageDeflate;
  co_ReadAsyncEnabled : bool;
  co_ReadAsyncGoLimit : Z;
  co_ReadMaxPayloadSize : Z;
  co_ReadBufferSize : Z;
  co_WriteMaxPayloadSize : Z;
  co_CheckUtf8Enabled : bool;
  co_Logger : option Logger;
  co_Recovery : option RecoveryFunc;
  co_Addr : string;
  co_RequestHeader : option (gmap string (list string));
  co_HandshakeTimeout : Z;
  co_TlsConfig : option TlsConfig;
  co_NewDialer : option (unit -> result Dialer);
  co_NewSession : option (unit -> gmap string string)
}.

(** The zero values [PermessageDeflate{}], [ServerOption{}], [ClientOption{}]. *)
Definition zeroPermessageDeflate : PermessageDeflate :=
  {| Enabled := false; Level := 0; Threshold := 0; PoolSize := 0;
     ServerContextTakeover := false; ClientContextTakeover := false;
     ServerMaxWindowBits := 0; ClientMaxWindowBits := 0 |}.

Definition zeroServerOption : ServerOption :=
  {| so_config := None; so_WriteBufferSize := 0;
     so_PermessageDeflate := zeroPermessageDeflate;
     so_ReadAsyncEnabled := false; so_ReadAsyncGoLimit := 0;
     so_ReadMaxPayloadSize := 0; so_ReadBufferSize := 0;
     so_WriteMaxPayloadSize := 0; so_CheckUtf8Enabled := false;
     so_Logger := None; so_Recovery := None; so_TlsConfig := None;
     so_HandshakeTimeout := 0; so_SubProtocols := [];
     so_ResponseHeader := None; so_Authorize := None; so_NewSession := None |}.

Definition zeroClientOption : ClientOption :=
  {| co_WriteBufferSize := 0; co_PermessageDeflate := zeroPermessageDeflate;
     co_ReadAsyncEnabled := false; co_ReadAsyncGoLimit := 0;
     co_ReadMaxPayloadSize := 0; co_ReadBufferSize := 0;
     co_WriteMaxPayloadSize := 0; co_CheckUtf8Enabled := false;
     co_Logger := None; co_Recovery := None; co_Addr := "";
     co_RequestHeader := None; co_HandshakeTimeout := 0; co_TlsConfig := None;
     co_NewDialer := None; co_NewSession := None |}.

(** Modelled from the spec: [internal.ToBinaryNumber] (section 4.H: the
    pool size is coerced to the next power of two at least the configured
    value). *)
Definition ToBinaryNumber (n : Z) : Z := 2 ^ Z.log2_up n.

(** [if v <= 0 { v = d }] *)
Definition orDefault (v d : Z) : Z := if v <=? 0 then d else v.

(** [if v == nil { v = d }] *)
Definition orElse {A : Type} (v : option A) (d : A) : option A :=
  match v with
  | Some _ => v
  | None => Some d
  end.

(** [if bits < 8 || bits > 15 { bits = 15 }] *)
Definition windowBits (bits : Z) : Z :=
  if (bits <? 8) || (bits >? 15) then 15 else bits.

(** The block under [if c.PermessageDeflate.Enabled] of [initServerOption]. *)
Definition initServerDeflate (pd : PermessageDeflate) : PermessageDeflate :=
  if Enabled pd then
    {| Enabled := Enabled pd;
       Level := if Level pd =? 0 then defaultCompressLevel else Level pd;
       Threshold := orDefault (Threshold pd) defaultCompressThreshold;
       PoolSize := ToBinaryNumber (orDefault (PoolSize pd) defaultCompressorPoolSize);
       ServerContextTakeover := ServerContextTakeover pd;
       ClientContextTakeover := ClientContextTakeover pd;
       ServerMaxWindowBits := windowBits (ServerMaxWindowBits pd);
       ClientMaxWindowBits := windowBits (ClientMaxWindowBits pd) |}
  else pd.

(** The block under [if c.PermessageDeflate.Enabled] of [initClientOption]. *)
Definition initClientDeflate (pd : PermessageDeflate) : PermessageDeflate :=
  if Enabled pd then
    {| Enabled := Enabled pd;
       Level := if Level pd =? 0 then defaultCompressLevel else Level pd;
       Threshold := orDefault (Threshold pd) defaultCompressThreshold;
       PoolSize := 1;
       ServerContextTakeover := ServerContextTakeover pd;
       ClientContextTakeover := ClientContextTakeover pd;
       ServerMaxWindowBits := windowBits (ServerMaxWindowBits pd);
       ClientMaxWindowBits := windowBits (ClientMaxWindowBits pd) |}
  else pd.

Section Options.

Variable CanonicalMIMEHeaderKey : string -> string.

(** func (c *ServerOption) deleteProtectedHeaders(), on the header map. *)
Definition deleteProtectedHeaders (h : gmap string (list string))
  : gmap string (list string) :=
  Header_Del CanonicalMIMEHeaderKey SecWebSocketProtocol_Key
    (Header_Del CanonicalMIMEHeaderKey SecWebSocketExtensions_Key
      (Header_Del CanonicalMIMEHeaderKey SecWebSocketAccept_Key
        (Header_Del CanonicalMIMEHeaderKey Connection_Key
          (Header_Del CanonicalMIMEHeaderKey Upgrade_Key h)))).

(** What [initServerOption] does to the record [c] points to, once [c]
    is not nil: every assignment of the body, in order.  The function
    given to the reader pool reads ReadBufferSize from the record when
    the pool makes a reader; the size recorded is that of a reader made
    while the record is as initialised. *)
Definition initServerOption_fields (c : ServerOption) : ServerOption :=
  let ReadMaxPayloadSize := orDefault (so_ReadMaxPayloadSize c) defaultReadMaxPayloadSize in
  let ReadAsyncGoLimit := orDefault (so_ReadAsyncGoLimit c) defaultReadAsyncGoLimit in
  let ReadBufferSize := orDefault (so_ReadBufferSize c) defaultReadBufferSize in
  let WriteMaxPayloadSize := orDefault (so_WriteMaxPayloadSize c) defaultWriteMaxPayloadSize in
  let WriteBufferSize := orDefault (so_WriteBufferSize c) defaultWriteBufferSize in
  let Authorize := orElse (so_Authorize c) (fun _ _ => true) in
  let NewSession := orElse (so_NewSession c) (fun _ => newSmap) in
  let ResponseHeader := orElse (so_ResponseHeader c) ∅ in
  let HandshakeTimeout := orDefault (so_HandshakeTimeout c) defaultHandshakeTimeout in
  let Logger := orElse (so_Logger c) defaultLogger in
  let Recovery := orElse (so_Recovery c) noRecovery in
  let pd := initServerDeflate (so_PermessageDeflate c) in
  let ResponseHeader := deleteProtectedHeaders <$> ResponseHeader in
  {| so_config := Some {| cfg_readerPool := Some (bufio_ReaderSize ReadBufferSize);
                          cfg_ReadAsyncEnabled := so_ReadAsyncEnabled c;
                          cfg_ReadAsyncGoLimit := ReadAsyncGoLimit;
                          cfg_ReadMaxPayloadSize := ReadMaxPayloadSize;
                          cfg_ReadBufferSize := ReadBufferSize;
                          cfg_WriteMaxPayloadSize := WriteMaxPayloadSize;
                          cfg_WriteBufferSize := WriteBufferSize;
                          cfg_CheckUtf8Enabled := so_CheckUtf8Enabled c;
                          cfg_Recovery := Recovery;
                          cfg_Logger := Logger |};
     so_WriteBufferSize := WriteBufferSize;
     so_PermessageDeflate := pd;
     so_ReadAsyncEnabled := so_ReadAsyncEnabled c;
     so_ReadAsyncGoLimit := ReadAsyncGoLimit;
     so_ReadMaxPayloadSize := ReadMaxPayloadSize;
     so_ReadBufferSize := ReadBufferSize;
     so_WriteMaxPayloadSize := WriteMaxPayloadSize;
     so_CheckUtf8Enabled := so_CheckUtf8Enabled c;
     so_Logger := Logger;
     so_Recovery := Recovery;
     so_TlsConfig := so_TlsConfig c;
     so_HandshakeTimeout := HandshakeTimeout;
     so_SubProtocols := so_SubProtocols c;
     so_ResponseHeader := ResponseHeader;
     so_Authorize := Authorize;
     so_NewSession := NewSession |}.

(** func initServerOption(c *ServerOption) *ServerOption: a nil [c] is
    replaced by a new zero record, then the record is updated in place and
    its address returned. *)
Definition initServerOption (h : heap ServerOption) (c : option nat)
  : outcome (heap ServerOption * option nat) :=
  let '(h, c) :=
    match c with
    | None => let '(h', l) := new zeroServerOption h in (h', Some l)
    | Some _ => (h, c)
    end in
  obind (load h c) (fun o =>
  Done (match c with
        | Some l => <[l := initServerOption_fields o]> h
        | None => h
        end, c)).

(** func (c *ServerOption) getConfig() *Config *)
Definition ServerOption_getConfig (c : ServerOption) : option Config := so_config c.

End Options.

(** What [initClientOption] does to the record [c] points to, once [c]
    is not nil. *)
Definition initClientOption_fields (c : ClientOption) : ClientOption :=
  {| co_WriteBufferSize := orDefault (co_WriteBufferSize c) defaultWriteBufferSize;
     co_PermessageDeflate := initClientDeflate (co_PermessageDeflate c);
     co_ReadAsyncEnabled := co_ReadAsyncEnabled c;
     co_ReadAsyncGoLimit := orDefault (co_ReadAsyncGoLimit c) defaultReadAsyncGoLimit;
     co_ReadMaxPayloadSize := orDefault (co_ReadMaxPayloadSize c) defaultReadMaxPayloadSize;
     co_ReadBufferSize := orDefault (co_ReadBufferSize c) defaultReadBufferSize;
     co_WriteMaxPayloadSize := orDefault (co_WriteMaxPayloadSize c) defaultWriteMaxPayloadSize;
     co_CheckUtf8Enabled := co_CheckUtf8Enabled c;
     co_Logger := orElse (co_Logger c) defaultLogger;
     co_Recovery := orElse (co_Recovery c) noRecovery;
     co_Addr := co_Addr c;
     co_RequestHeader := orElse (co_RequestHeader c) ∅;
     co_HandshakeTimeout := orDefault (co_HandshakeTimeout c) defaultHandshakeTimeout;
     co_TlsConfig := co_TlsConfig c;
     co_NewDialer := orElse (co_NewDialer c) (fun _ => Ok (netDialer defaultDialTimeout));
     co_NewSession := orElse (co_NewSession c) (fun _ => newSmap) |}.

(** func initClientOption(c *ClientOption) *ClientOption *)
Definition initClientOption (h : heap ClientOption) (c : option nat)
  : outcome (heap ClientOption * option nat) :=
  let '(h, c) :=
    match c with
    | None => let '(h', l) := new zeroClientOption h in (h', Some l)
    | Some _ => (h, c)
    end in
  obind (load h c) (fun o =>
  Done (match c with
        | Some l => <[l := initClientOption_fields o]> h
        | None => h
        end, c)).

(** func (c *ClientOption) getConfig() *Config; the reader pool is left nil. *)
Definition ClientOption_getConfig (c : ClientOption) : Config :=
  {| cfg_readerPool := None;
     cfg_ReadAsyncEnabled := co_ReadAsyncEnabled c;
     cfg_ReadAsyncGoLimit := co_ReadAsyncGoLimit c;
     cfg_ReadMaxPayloadSize := co_ReadMaxPayloadSize c;
     cfg_ReadBufferSize := co_ReadBufferSize c;
     cfg_WriteMaxPayloadSize := co_WriteMaxPayloadSize c;
     cfg_WriteBufferSize := co_WriteBufferSize c;
     cfg_CheckUtf8Enabled := co_CheckUtf8Enabled c;
     cfg_Recovery := co_Recovery c;
     cfg_Logger := co_Logger c |}.

(** ** The client connector (client.go) *)

Record URL : Type := mkURL {
  Scheme : string;
  Hostname : string
}.

Record Response : Type := mkResponse {
  StatusCode : Z;
  resp_Header : gmap string (list string)
}.

Definition StatusSwitchingProtocols : Z := 101.

(** A transport: a dialled TCP connection, TLS over a transport, or a
    connection the caller brought. *)
Inductive netConn : Type :=
| tcpConn (addr : string)
| tlsClient (inner : netConn) (cfg : TlsConfig)
| userConn (id : nat).

Record connector : Type := mkConnector {
  k_option : option nat;          (* the pointer field option *)
  k_conn : netConn;
  k_secWebsocketKey : string
}.

(** Modelled from the spec: [internal.GetIntersectionElem] (section 4.D:
    the first match, in the order of the first list); the empty string
    when the lists share nothing. *)
Fixpoint GetIntersectionElem (a b : list string) : string :=
  match a with
  | [] => ""
  | item :: a' => if bool_decide (item ∈ b) then item else GetIntersectionElem a' b
  end.

(** What the connector calls and is not among the sources: functions of
    the Go library, helpers of the [internal] package, and the network. *)
Record Env : Type := mkEnv {
  (* net/textproto.CanonicalMIMEHeaderKey, strings.EqualFold,
     crypto/sha1.Sum, base64.StdEncoding.EncodeToString, net/url.Parse,
     and whether http.NewRequestWithContext fails *)
  env_CanonicalMIMEHeaderKey : string -> string;
  env_EqualFold : string -> string -> bool;
  env_sha1 : string -> list byte;
  env_base64 : list byte -> string;
  env_url_Parse : string -> result URL;
  env_http_NewRequest : string -> option error;
  (* internal.HttpHeaderContains, internal.Split, internal.GetAddrFromURL *)
  env_HttpHeaderContains : string -> string -> bool;
  env_Split : string -> string -> list string;
  env_GetAddrFromURL : URL -> bool -> string;
  (* a dialer's Dial; the exchange on the transport: the request headers
     go out, and either an error comes back or the parsed response with
     the bytes the reader holds after it; the 16 bytes drawn for the key;
     what the last SetDeadline returns *)
  env_Dial : Dialer -> string -> string -> result netConn;
  env_roundTrip : netConn -> gmap string (list string) -> result (Response * list byte);
  env_keyBytes : list byte;
  env_clearDeadline : option error
}.

Section Client.

Variable E : Env.

Local Abbreviation CanonicalMIMEHeaderKey := (env_CanonicalMIMEHeaderKey E).
Local Abbreviation EqualFold := (env_EqualFold E).
Local Abbreviation sha1 := (env_sha1 E).
Local Abbreviation base64 := (env_base64 E).
Local Abbreviation url_Parse := (env_url_Parse E).
Local Abbreviation http_NewRequest := (env_http_NewRequest E).
Local Abbreviation HttpHeaderContains := (env_HttpHeaderContains E).
Local Abbreviation Split := (env_Split E).
Local Abbreviation GetAddrFromURL := (env_GetAddrFromURL E).
Local Abbreviation Dial := (env_Dial E).
Local Abbreviation roundTrip := (env_roundTrip E).
Local Abbreviation keyBytes := (env_keyBytes E).
Local Abbreviation clearDeadline := (env_clearDeadline E).

(** Modelled from the spec: [internal.ComputeAcceptKey] (sections 4.D and
    6: base64 of the SHA-1 of the key followed by the GUID). *)
Definition ComputeAcceptKey (challengeKey : string) : string :=
  base64 (sha1 (challengeKey ++ WebSocketGUID)).

(** Calling a function value that may be nil. *)
Definition callable {A : Type} (f : option A) : outcome A :=
  match f with
  | Some g => Done g
  | None => Panic "call of nil function"
  end.

(** The method request of connector, after the deadline is set.  The
    request headers are the option's, then Connection, Upgrade and the
    version, then the key if none was set yet. *)
Definition request (h : heap ClientOption) (k : connector)
  : outcome (connector * result (Response * list byte)) :=
  obind (load h (k_option k)) (fun o =>
  match http_NewRequest (co_Addr o) with
  | Some e => Done (k, Err e)
  | None =>
      (* ranging over a nil map runs no iteration *)
      let rh := default ∅ (co_RequestHeader o) in
      let hdr := Header_Set CanonicalMIMEHeaderKey SecWebSocketVersion_Key SecWebSocketVersion_Val
                   (Header_Set CanonicalMIMEHeaderKey Upgrade_Key Upgrade_Val
                     (Header_Set CanonicalMIMEHeaderKey Connection_Key Connection_Val rh)) in
      let '(k, hdr) :=
        if String.eqb (k_secWebsocketKey k) ""
        then let key := base64 keyBytes in
             ({| k_option := k_option k; k_conn := k_conn k; k_secWebsocketKey := key |},
              Header_Set CanonicalMIMEHeaderKey SecWebSocketKey_Key key hdr)
        else (k, hdr) in
      Done (k, roundTrip (k_conn k) hdr)
  end).

(** The method checkHeaders of connector; [None] is a nil error. *)
Definition checkHeaders (k : connector) (resp : Response) : option error :=
  if negb (StatusCode resp =? StatusSwitchingProtocols) then Some ErrHandshake else
  if negb (HttpHeaderContains
             (Header_Get CanonicalMIMEHeaderKey (resp_Header resp) Connection_Key)
             Connection_Val) then Some ErrHandshake else
  if negb (EqualFold
             (Header_Get CanonicalMIMEHeaderKey (resp_Header resp) Upgrade_Key)
             Upgrade_Val) then Some ErrHandshake else
  if negb (String.eqb
             (Header_Get CanonicalMIMEHeaderKey (resp_Header resp) SecWebSocketAccept_Key)
             (ComputeAcceptKey (k_secWebsocketKey k))) then Some ErrHandshake else
  None.

(** The method getSubProtocol of connector, given the option record it
    points to. *)
Definition getSubProtocol (o : ClientOption) (resp : Response) : result string :=
  let a := Split (Header_Get CanonicalMIMEHeaderKey
                    (default ∅ (co_RequestHeader o)) SecWebSocketProtocol_Key) "," in
  let b := Split (Header_Get CanonicalMIMEHeaderKey
                    (resp_Header resp) SecWebSocketProtocol_Key) "," in
  let subprotocol := GetIntersectionElem a b in
  if (0 <? Z.of_nat (length a)) && String.eqb subprotocol ""
  then Err ErrSubprotocolNegotiation
  else Ok subprotocol.

(** The method handshake of connector: the connection, the response and
    the error it returns. *)
Definition handshake (h : heap ClientOption) (k : connector)
  : outcome (option Conn * option Response * option error) :=
  obind (request h k) (fun '(k, r) =>
  match r with
  | Err e => Done (None, None, Some e)
  | Ok (resp, rest) =>
      match checkHeaders k resp with
      | Some e => Done (None, Some resp, Some e)
      | None =>
          obind (load h (k_option k)) (fun o =>
          match getSubProtocol o resp with
          | Err e => Done (None, Some resp, Some e)
          | Ok sub =>
              obind (callable (co_NewSession o)) (fun NewSession =>
              Done (Some {| ss := NewSession tt;
                            isServer := false;
                            subprotocol := sub;
                            config := ClientOption_getConfig o;
                            br := rest;
                            cont := {| initialized := false; cf_opcode := 0; cf_buffer := [] |};
                            fh := {| fh_b0 := x00; fh_b1 := x00; fh_maskKey := [] |};
                            events := [] |},
                    Some resp, clearDeadline))
          end)
      end
  end).

(** func NewClient(handler, option): the heap of option records after the
    call and what the call returns.  The handler is not modelled: its
    calls are the connection's [events]. *)
Definition NewClient (h : heap ClientOption) (opt : option nat)
  : outcome (heap ClientOption * (option Conn * option Response * option error)) :=
  obind (initClientOption h opt) (fun '(h, opt) =>
  obind (load h opt) (fun o =>
  match url_Parse (co_Addr o) with
  | Err e => Done (h, (None, None, Some e))
  | Ok u =>
      if negb (String.eqb (Scheme u) "ws") && negb (String.eqb (Scheme u) "wss")
      then Done (h, (None, None, Some ErrUnsupportedProtocol)) else
      let tlsEnabled := String.eqb (Scheme u) "wss" in
      obind (callable (co_NewDialer o)) (fun NewDialer =>
      match NewDialer tt with
      | Err e => Done (h, (None, None, Some e))
      | Ok dialer =>
          match Dial dialer "tcp" (GetAddrFromURL u tlsEnabled) with
          | Err e => Done (h, (None, None, Some e))
          | Ok conn =>
              let '(h, conn) :=
                if tlsEnabled then
                  let cfg := default {| ServerName := "" |} (co_TlsConfig o) in
                  let cfg := if String.eqb (ServerName cfg) ""
                             then {| ServerName := Hostname u |} else cfg in
                  (match opt with
                   | Some l =>
                       <[l := {| co_WriteBufferSize := co_WriteBufferSize o;
                                 co_PermessageDeflate := co_PermessageDeflate o;
                                 co_ReadAsyncEnabled := co_ReadAsyncEnabled o;
                                 co_ReadAsyncGoLimit := co_ReadAsyncGoLimit o;
                                 co_ReadMaxPayloadSize := co_ReadMaxPayloadSize o;
                                 co_ReadBufferSize := co_ReadBufferSize o;
                                 co_WriteMaxPayloadSize := co_WriteMaxPayloadSize o;
                                 co_CheckUtf8Enabled := co_CheckUtf8Enabled o;
                                 co_Logger := co_Logger o;
                                 co_Recovery := co_Recovery o;
                                 co_Addr := co_Addr o;
                                 co_RequestHeader := co_RequestHeader o;
                                 co_HandshakeTimeout := co_HandshakeTimeout o;
                                 co_TlsConfig := Some cfg;
                                 co_NewDialer := co_NewDialer o;
                                 co_NewSession := co_NewSession o |}]> h
                   | None => h
                   end, tlsClient conn cfg)
                else (h, conn) in
              obind (handshake h {| k_option := opt; k_conn := conn;
                                    k_secWebsocketKey := "" |})
                    (fun r => Done (h, r))
          end
      end)
  end)).

(** func NewClientFromConn(handler, option, conn) *)
Definition NewClientFromConn (h : heap ClientOption) (opt : option nat) (conn : netConn)
  : outcome (heap ClientOption * (option Conn * option Response * option error)) :=
  obind (initClientOption h opt) (fun '(h, opt) =>
  obind (handshake h {| k_option := opt; k_conn := conn; k_secWebsocketKey := "" |})
        (fun r => Done (h, r))).

End Client.

(** ** The frame emitter, to build inbound streams *)

Definition b2z (b : bool) : Z := if b then 1 else 0.

Definition lengthCodeOf (n : Z) : Z :=
  if n <=? 125 then n else if n <=? 65535 then 126 else 127.

Definition extendedLength (n : Z) : list byte :=
  if n <=? 125 then [] else if n <=? 65535 then be_bytes 2 n else be_bytes 8 n.

(** Modelled from the spec: the frame emitter (section 4.A, Emit): the
    2-byte prefix, the extended length, the mask key and the payload,
    masked when a key is given. *)
Definition genFrame (fin rsv1 : bool) (opcode : Z) (key : option (list byte))
    (payload : list byte) : list byte :=
  let n := Z.of_nat (length payload) in
  [byte_of_Z (128 * b2z fin + 64 * b2z rsv1 + opcode);
   byte_of_Z (128 * b2z (bool_decide (is_Some key)) + lengthCodeOf n)]
  ++ extendedLength n
  ++ match key with
     | Some k => k ++ MaskXOR payload k
     | None => payload
     end.

(** * Lemmas on bytes *)

Lemma Z_of_byte_range (b : byte) : 0 <= Z_of_byte b < 256.
Proof.
  unfold Z_of_byte. pose proof (Byte.to_N_bounded b). lia.
Qed.

Lemma Z_of_byte_of_Z (z : Z) : 0 <= z < 256 -> Z_of_byte (byte_of_Z z) = z.
Proof.
  intros Hz. unfold byte_of_Z, Z_of_byte.
  rewrite Z.mod_small by lia.
  destruct (Byte.of_N (Z.to_N z)) as [b|] eqn:E.
  - simpl. apply Byte.to_of_N in E. rewrite E. lia.
  - apply Byte.of_N_None_iff in E. lia.
Qed.

Lemma byte_xor_involutive (a k : byte) : byte_xor (byte_xor a k) k = a.
Proof.
  unfold byte_xor.
  destruct (Byte.to_bits a) as (a0 & a1 & a2 & a3 & a4 & a5 & a6 & a7) eqn:Ea.
  destruct (Byte.to_bits k) as (k0 & k1 & k2 & k3 & k4 & k5 & k6 & k7) eqn:Ek.
  rewrite Byte.to_bits_of_bits.
  rewrite !xorb_assoc, !xorb_nilpotent, !xorb_false_r.
  rewrite <- Ea. apply Byte.of_bits_to_bits.
Qed.

Lemma MaskXOR_from_involutive (p key : list byte) (i : nat) :
  MaskXOR_from i (MaskXOR_from i p key) key = p.
Proof.
  revert i. induction p as [|b p IH]; intros i; simpl; [reflexivity|].
  rewrite byte_xor_involutive, IH. reflexivity.
Qed.

Lemma MaskXOR_involutive (p key : list byte) : MaskXOR (MaskXOR p key) key = p.
Proof. apply MaskXOR_from_involutive. Qed.

Lemma MaskXOR_from_length (p key : list byte) (i : nat) :
  length (MaskXOR_from i p key) = length p.
Proof.
  revert i. induction p as [|b p IH]; intros i; simpl; [reflexivity|].
  now rewrite IH.
Qed.

Lemma MaskXOR_length (p key : list byte) : length (MaskXOR p key) = length p.
Proof. apply MaskXOR_from_length. Qed.

Lemma be_uint_app (a : list byte) (b : byte) :
  be_uint (a ++ [b]) = be_uint a * 256 + Z_of_byte b.
Proof. unfold be_uint. now rewrite fold_left_app. Qed.

Lemma be_uint_be_bytes (k : nat) (n : Z) :
  0 <= n < 256 ^ Z.of_nat k -> be_uint (be_bytes k n) = n.
Proof.
  revert n. induction k as [|k IH]; intros n Hn.
  - simpl in *. unfold be_uint. simpl. lia.
  - cbn [be_bytes]. rewrite be_uint_app.
    rewrite Nat2Z.inj_succ, Z.pow_succ_r in Hn by lia.
    rewrite IH.
    + rewrite Z_of_byte_of_Z by (apply Z.mod_pos_bound; lia).
      pose proof (Z.div_mod n 256). lia.
    + split; [apply Z.div_pos; lia|].
      apply Z.div_lt_upper_bound; lia.
Qed.

Lemma be_bytes_length (k : nat) (n : Z) : length (be_bytes k n) = k.
Proof.
  revert n. induction k as [|k IH]; intros n; simpl; [reflexivity|].
  rewrite length_app, IH. simpl. lia.
Qed.

Lemma testbit_decompose (a n q r : Z) :
  0 <= n -> a = 2 ^ n * q + r -> 0 <= r < 2 ^ n -> Z.testbit a n = Z.odd q.
Proof.
  intros Hn Ha Hr. rewrite Z.testbit_odd, Z.shiftr_div_pow2 by lia.
  f_equal. symmetry. apply (Z.div_unique a (2 ^ n) q r); lia.
Qed.

Lemma land_decompose (a n q r : Z) :
  0 <= n -> a = 2 ^ n * q + r -> 0 <= r < 2 ^ n -> Z.land a (Z.ones n) = r.
Proof.
  intros Hn Ha Hr. rewrite Z.land_ones by lia.
  symmetry. apply (Z.mod_unique a (2 ^ n) q r); lia.
Qed.

Lemma odd_b2z (b : bool) : Z.odd (b2z b) = b.
Proof. now destruct b. Qed.

Lemma b2z_range (b : bool) : 0 <= b2z b <= 1.
Proof. destruct b; simpl; lia. Qed.

(** The bits of the first header byte the emitter writes. *)
Lemma header_byte0 (fin rsv1 : bool) (opcode : Z) (b1 : byte) (k : list byte) :
  0 <= opcode < 16 ->
  let h := mkFrameHeader (byte_of_Z (128 * b2z fin + 64 * b2z rsv1 + opcode)) b1 k in
  GetFIN h = fin /\ GetRSV1 h = rsv1 /\ GetRSV2 h = false /\ GetRSV3 h = false /\
  GetOpcode h = opcode.
Proof.
  intros Hop h. subst h.
  pose proof (b2z_range fin) as Hf. pose proof (b2z_range rsv1) as Hr.
  unfold GetFIN, GetRSV1, GetRSV2, GetRSV3, GetOpcode. cbn [fh_b0].
  rewrite Z_of_byte_of_Z by lia.
  set (v := 128 * b2z fin + 64 * b2z rsv1 + opcode).
  repeat split.
  - rewrite (testbit_decompose v 7 (b2z fin) (64 * b2z rsv1 + opcode));
      [apply odd_b2z | lia | subst v; change (2 ^ 7) with 128; lia
      | change (2 ^ 7) with 128; lia].
  - rewrite (testbit_decompose v 6 (2 * b2z fin + b2z rsv1) opcode);
      [ | lia | subst v; change (2 ^ 6) with 64; lia | change (2 ^ 6) with 64; lia].
    rewrite Z.add_comm, Z.odd_add_mul_2. apply odd_b2z.
  - rewrite (testbit_decompose v 5 (2 * (2 * b2z fin + b2z rsv1)) opcode);
      [ | lia | subst v; change (2 ^ 5) with 32; lia | change (2 ^ 5) with 32; lia].
    now rewrite Z.odd_mul.
  - rewrite (testbit_decompose v 4 (2 * (4 * b2z fin + 2 * b2z rsv1)) opcode);
      [ | lia | subst v; change (2 ^ 4) with 16; lia | change (2 ^ 4) with 16; lia].
    now rewrite Z.odd_mul.
  - change 15 with (Z.ones 4).
    apply (land_decompose v 4 (8 * b2z fin + 4 * b2z rsv1) opcode);
      [lia | subst v; change (2 ^ 4) with 16; lia | change (2 ^ 4) with 16; lia].
Qed.

(** The bits of the second header byte the emitter writes. *)
Lemma header_byte1 (mask : bool) (code : Z) (b0 : byte) (k : list byte) :
  0 <= code < 128 ->
  let h := mkFrameHeader b0 (byte_of_Z (128 * b2z mask + code)) k in
  GetMask h = mask /\ GetLengthCode h = code.
Proof.
  intros Hc h. subst h. pose proof (b2z_range mask) as Hm.
  unfold GetMask, GetLengthCode. cbn [fh_b1].
  rewrite Z_of_byte_of_Z by lia.
  split.
  - rewrite (testbit_decompose _ 7 (b2z mask) code);
      [apply odd_b2z | lia | change (2 ^ 7) with 128; lia | change (2 ^ 7) with 128; lia].
  - change 127 with (Z.ones 7).
    apply (land_decompose _ 7 (b2z mask) code);
      [lia | change (2 ^ 7) with 128; lia | change (2 ^ 7) with 128; lia].
Qed.

Lemma lengthCodeOf_range (n : Z) : 0 <= n -> 0 <= lengthCodeOf n < 128.
Proof. intros Hn. unfold lengthCodeOf. repeat case_match; lia. Qed.

(** * Lemmas on the reader's primitives *)

Lemma ReadN_ok (n : Z) (c : Conn) (pre post : list byte) :
  br c = pre ++ post -> Z.of_nat (length pre) = n ->
  ReadN n c = (Ok pre, set_br post c).
Proof.
  intros Hbr Hn. unfold ReadN. rewrite Hbr, length_app.
  destruct (Z.leb_spec n (Z.of_nat (length pre + length post))) as [_|Hlt]; [|lia].
  subst n. rewrite Nat2Z.id, take_app_length, drop_app_length. reflexivity.
Qed.

Lemma ReadN_short (n : Z) (c : Conn) :
  Z.of_nat (length (br c)) < n -> ReadN n c = (Err EIO, set_br [] c).
Proof.
  intros Hn. unfold ReadN.
  destruct (Z.leb_spec n (Z.of_nat (length (br c)))); [lia|reflexivity].
Qed.

(** The payload as it travels: masked under the key, if there is one. *)
Definition onWire (key : option (list byte)) (payload : list byte) : list byte :=
  match key with
  | Some k => MaskXOR payload k
  | None => payload
  end.

Definition keyOf (key : option (list byte)) (old : list byte) : list byte :=
  match key with
  | Some k => k
  | None => old
  end.

Definition wellKeyed (key : option (list byte)) : Prop :=
  match key with
  | Some k => length k = 4%nat
  | None => True
  end.

Lemma extendedLength_decode (n : Z) :
  0 <= n < 2 ^ 64 -> 125 < n -> be_uint (extendedLength n) = n.
Proof.
  intros Hn Hbig. unfold extendedLength.
  destruct (Z.leb_spec n 125); [lia|].
  destruct (Z.leb_spec n 65535); apply be_uint_be_bytes; simpl; lia.
Qed.

Lemma toInt_small (x : Z) : 0 <= x < 2 ^ 63 -> toInt x = x.
Proof. intros Hx. unfold toInt. destruct (Z.ltb_spec x (2 ^ 63)); lia. Qed.

Lemma toInt_range (x : Z) : 0 <= x < 2 ^ 64 -> - 2 ^ 63 <= toInt x < 2 ^ 63.
Proof. intros Hx. unfold toInt. destruct (Z.ltb_spec x (2 ^ 63)); lia. Qed.

(** Parsing the header of an emitted frame gives back what was emitted
    and leaves the payload, as it travels, at the head of the reader. *)
Lemma Parse_genFrame (c : Conn) (fin rsv1 : bool) (opcode : Z)
    (key : option (list byte)) (payload rest : list byte) :
  0 <= opcode < 16 ->
  Z.of_nat (length payload) < 2 ^ 63 ->
  wellKeyed key ->
  br c = genFrame fin rsv1 opcode key payload ++ rest ->
  exists h,
    Parse c = (Ok (Z.of_nat (length payload)),
               set_fh h (set_br (onWire key payload ++ rest) c)) /\
    GetFIN h = fin /\ GetRSV1 h = rsv1 /\ GetRSV2 h = false /\ GetRSV3 h = false /\
    GetOpcode h = opcode /\ GetMask h = bool_decide (is_Some key) /\
    GetMaskKey h = keyOf key (fh_maskKey (fh c)).
Proof.
  intros Hop Hlen Hkey Hbr.
  set (n := Z.of_nat (length payload)) in *.
  assert (Hn0 : 0 <= n) by (subst n; lia).
  set (b0 := byte_of_Z (128 * b2z fin + 64 * b2z rsv1 + opcode)).
  set (b1 := byte_of_Z (128 * b2z (bool_decide (is_Some key)) + lengthCodeOf n)).
  exists (mkFrameHeader b0 b1 (keyOf key (fh_maskKey (fh c)))).
  destruct (header_byte0 fin rsv1 opcode b1 (keyOf key (fh_maskKey (fh c))) Hop)
    as (HF & HR1 & HR2 & HR3 & HO).
  destruct (header_byte1 (bool_decide (is_Some key)) (lengthCodeOf n) b0
              (keyOf key (fh_maskKey (fh c))) (lengthCodeOf_range n Hn0)) as (HM & HL).
  destruct (header_byte1 (bool_decide (is_Some key)) (lengthCodeOf n) b0
              (fh_maskKey (fh c)) (lengthCodeOf_range n Hn0)) as (HM' & HL').
  fold b0 in HF, HR1, HR2, HR3, HO. fold b1 in HM, HL, HM', HL'.
  split; [|repeat split; assumption].
  unfold genFrame in Hbr. fold n b0 b1 in Hbr.
  assert (Hbr' : br c = [b0; b1] ++ extendedLength n ++ keyOf key [] ++ onWire key payload ++ rest).
  { rewrite Hbr. destruct key; cbn [app keyOf onWire]; rewrite <- ?app_assoc; reflexivity. }
  clear Hbr.
  unfold Parse, bind, get, modify, ret.
  rewrite (ReadN_ok 2 c _ _ Hbr' eq_refl).
  cbn [lookup list_lookup default from_option fh set_br set_fh]. unfold id.
  rewrite HL', HM'.
  assert (Hext : exists m : nat,
             length (extendedLength n) = m /\
             (if lengthCodeOf n =? 126 then Z.of_nat m = 2
              else if lengthCodeOf n =? 127 then Z.of_nat m = 8 else m = 0%nat) /\
             (125 < n -> be_uint (extendedLength n) = n) /\
             (n <= 125 -> lengthCodeOf n = n)).
  { exists (length (extendedLength n)). split; [reflexivity|].
    split; [|split; [intros; apply extendedLength_decode; lia|]].
    - unfold lengthCodeOf, extendedLength.
      destruct (Z.leb_spec n 125).
      + destruct (Z.eqb_spec n 126); [lia|]. destruct (Z.eqb_spec n 127); [lia|]. reflexivity.
      + destruct (Z.leb_spec n 65535); rewrite be_bytes_length; reflexivity.
    - intros. unfold lengthCodeOf. destruct (Z.leb_spec n 125); lia. }
  destruct Hext as (m & Hm & Hcode & Hdec & Hsmall).
  assert (Hfin : forall st : Conn,
    br st = keyOf key [] ++ onWire key payload ++ rest ->
    fh st = {| fh_b0 := b0; fh_b1 := b1; fh_maskKey := fh_maskKey (fh c) |} ->
    st = set_fh (fh st) (set_br (br st) c) ->
    (let (r, c') :=
       (if bool_decide (is_Some key)
        then fun c0 : Conn =>
          let (r, c') := ReadN 4 c0 in
          match r with
          | Ok a => (Ok (), set_fh {| fh_b0 := b0; fh_b1 := b1; fh_maskKey := a |} c')
          | Err e => (Err e, c')
          end
        else fun c0 : Conn => (Ok (), c0)) st in
     match r with
     | Ok _ => (Ok n, c')
     | Err e => (Err e, c')
     end) =
    (Ok n, set_fh {| fh_b0 := b0; fh_b1 := b1; fh_maskKey := keyOf key (fh_maskKey (fh c)) |}
             (set_br (onWire key payload ++ rest) c))).
  { intros st Hst Hfh Heq. destruct key as [k|].
    - rewrite bool_decide_true by eauto. cbn [keyOf onWire] in *.
      rewrite (ReadN_ok 4 st k (MaskXOR payload k ++ rest) Hst)
        by (unfold wellKeyed in Hkey; rewrite Hkey; reflexivity).
      rewrite Heq. reflexivity.
    - rewrite bool_decide_false by (intros [? ?]; discriminate).
      cbn [keyOf onWire app] in *. rewrite Heq, Hst, Hfh. reflexivity. }
  destruct (lengthCodeOf n =? 126) eqn:E126; [|destruct (lengthCodeOf n =? 127) eqn:E127].
  - erewrite ReadN_ok; [|cbn [br set_fh set_br]; reflexivity|lia].
    rewrite Hdec by (apply Z.eqb_eq in E126; unfold lengthCodeOf in E126;
                     destruct (Z.leb_spec n 125); lia).
    apply Hfin; reflexivity.
  - erewrite ReadN_ok; [|cbn [br set_fh set_br]; reflexivity|lia].
    rewrite Hdec by (apply Z.eqb_eq in E127; unfold lengthCodeOf in E127;
                     destruct (Z.leb_spec n 125); lia).
    rewrite toInt_small by lia.
    apply Hfin; reflexivity.
  - subst m. apply length_zero_iff_nil in Hcode. rewrite Hcode. cbn [app].
    rewrite Hsmall.
    + apply Hfin; reflexivity.
    + apply Z.eqb_neq in E126, E127. unfold lengthCodeOf in E126, E127.
      destruct (Z.leb_spec n 125); [lia|]. destruct (Z.leb_spec n 65535); lia.
Qed.

(** * The reader, frame by frame *)

(** Two connections that differ at most in the reader's bytes and in the
    parsed header. *)
Definition sameButInput (c c' : Conn) : Prop :=
  ss c' = ss c /\ isServer c' = isServer c /\ subprotocol c' = subprotocol c /\
  config c' = config c /\ cont c' = cont c /\ events c' = events c.

Lemma sameButInput_refl (c : Conn) : sameButInput c c.
Proof. repeat split. Qed.

Lemma sameButInput_trans (c1 c2 c3 : Conn) :
  sameButInput c1 c2 -> sameButInput c2 c3 -> sameButInput c1 c3.
Proof.
  unfold sameButInput. intros (?&?&?&?&?&?) (?&?&?&?&?&?).
  repeat split; congruence.
Qed.

Lemma ReadN_sameButInput (n : Z) (c c' : Conn) (r : result (list byte)) :
  ReadN n c = (r, c') -> sameButInput c c' /\ fh c' = fh c.
Proof.
  unfold ReadN. intros H. case_match; simplify_eq; repeat split.
Qed.

Lemma ReadN_consumes (n : Z) (c c' : Conn) (p : list byte) :
  ReadN n c = (Ok p, c') ->
  br c = p ++ br c' /\ Z.of_nat (length p) = Z.max 0 n.
Proof.
  unfold ReadN. intros H. case_match eqn:E; simplify_eq. cbn [br set_br].
  apply Z.leb_le in E. split.
  - now rewrite take_drop.
  - rewrite length_take. lia.
Qed.

Lemma ReadN_shrinks (n : Z) (c c' : Conn) (r : result (list byte)) :
  ReadN n c = (r, c') -> (length (br c') <= length (br c))%nat.
Proof.
  unfold ReadN. intros H. case_match; simplify_eq; cbn [br set_br length].
  - rewrite length_drop. lia.
  - lia.
Qed.

Lemma Parse_sameButInput (c c' : Conn) (r : result Z) :
  Parse c = (r, c') -> sameButInput c c'.
Proof.
  unfold Parse, bind, get, modify, ret, ReadN. intros H.
  repeat (case_match; simplify_eq; try (repeat split; fail)).
Qed.

Lemma Parse_consumes (c c' : Conn) (n : Z) :
  Parse c = (Ok n, c') -> (length (br c') + 2 <= length (br c))%nat.
Proof.
  unfold Parse, bind, get, modify, ret. intros H.
  destruct (ReadN 2 c) as [[h|e] c1] eqn:E1; [|discriminate].
  apply ReadN_consumes in E1 as [Hbr Hlen].
  assert (Hc1 : (length (br c1) + 2 <= length (br c))%nat)
    by (rewrite Hbr, length_app; lia).
  clear Hbr Hlen.
  repeat match type of H with
  | context [ReadN ?k ?st] =>
      let E := fresh "E" in
      destruct (ReadN k st) as [[?|?] ?] eqn:E; [apply ReadN_shrinks in E; cbn [br set_fh] in E|]
  | context [if ?b then _ else _] => destruct b
  | _ => simplify_eq
  end; cbn [br set_fh] in *; try lia.
Qed.

Section FrameSteps.

Variable emitClose_result : list byte -> option error.

(** The state in which a frame is judged: its header has been parsed
    from [c], giving the declared length [n] and the connection [c1]. *)
Variables (c c1 : Conn) (n : Z).
Hypothesis HParse : Parse c = (Ok n, c1).

Ltac frame_start :=
  unfold readFrame, checkMask, bind, get, modify, ret, fail;
  rewrite HParse; cbv beta iota.


Lemma readFrame_parse_error (c0 c0' : Conn) (e : error) :
  Parse c0 = (Err e, c0') -> readFrame emitClose_result c0 = (Err e, c0').
Proof. intros H. unfold readFrame, bind. now rewrite H. Qed.

Lemma readFrame_too_large :
  cfg_ReadMaxPayloadSize (config c1) < n ->
  readFrame emitClose_result c = (Err (EStatus CloseMessageTooLarge), c1).
Proof.
  intros Hbig. frame_start.
  destruct (Z.gtb_spec n (cfg_ReadMaxPayloadSize (config c1))); [reflexivity|lia].
Qed.

Hypothesis Hsize : n <= cfg_ReadMaxPayloadSize (config c1).

Lemma readFrame_rsv :
  GetRSV1 (fh c1) || GetRSV2 (fh c1) || GetRSV3 (fh c1) = true ->
  readFrame emitClose_result c = (Err (EStatus CloseProtocolError), c1).
Proof.
  intros Hrsv. frame_start.
  destruct (Z.gtb_spec n (cfg_ReadMaxPayloadSize (config c1))); [lia|].
  now rewrite Hrsv.
Qed.

Hypothesis Hrsv : GetRSV1 (fh c1) || GetRSV2 (fh c1) || GetRSV3 (fh c1) = false.

Lemma readFrame_mask :
  GetMask (fh c1) <> isServer c1 ->
  readFrame emitClose_result c = (Err (EStatus CloseProtocolError), c1).
Proof.
  intros Hmask. frame_start.
  destruct (Z.gtb_spec n (cfg_ReadMaxPayloadSize (config c1))); [lia|].
  rewrite Hrsv.
  destruct (isServer c1), (GetMask (fh c1)); try congruence; reflexivity.
Qed.

Hypothesis Hmask : GetMask (fh c1) = isServer c1.

Lemma readFrame_control :
  isDataFrame (GetOpcode (fh c1)) = false ->
  readFrame emitClose_result c =
    match readControl emitClose_result c1 with
    | (Ok _, c2) => (Ok None, c2)
    | (Err e, c2) => (Err e, c2)
    end.
Proof.
  intros Hctl. frame_start.
  destruct (Z.gtb_spec n (cfg_ReadMaxPayloadSize (config c1))); [lia|].
  rewrite Hrsv, Hmask, Hctl.
  destruct (isServer c1); cbn [negb andb orb];
    destruct (readControl emitClose_result c1) as [[[]|e] c2]; reflexivity.
Qed.

Hypothesis Hdata : isDataFrame (GetOpcode (fh c1)) = true.

Lemma readFrame_short :
  Z.of_nat (length (br c1)) < n ->
  readFrame emitClose_result c = (Err EIO, set_br [] c1).
Proof.
  intros Hshort. frame_start.
  destruct (Z.gtb_spec n (cfg_ReadMaxPayloadSize (config c1))); [lia|].
  rewrite Hrsv, Hmask, Hdata.
  destruct (isServer c1); cbn [negb andb orb]; cbv beta iota;
    (destruct (Z.ltb_spec n 0); [lia|]);
    rewrite (ReadN_short n c1 Hshort); reflexivity.
Qed.

(** A data frame whose length, as an [int], is negative: the slice
    expression panics before anything is read. *)
Lemma readFrame_negative :
  n < 0 ->
  readFrame emitClose_result c = (Err (EPanic "slice bounds out of range"), c1).
Proof.
  intros Hneg. frame_start.
  destruct (Z.gtb_spec n (cfg_ReadMaxPayloadSize (config c1))); [lia|].
  rewrite Hrsv, Hmask, Hdata.
  destruct (isServer c1); cbn [negb andb orb]; cbv beta iota;
    (destruct (Z.ltb_spec n 0); [reflexivity|lia]).
Qed.

(** The payload of the frame, unmasked, once its [n] bytes were read. *)
Definition framePayload : list byte :=
  let p := take (Z.to_nat n) (br c1) in
  if GetMask (fh c1) then MaskXOR p (GetMaskKey (fh c1)) else p.

(** The connection once the payload was read. *)
Definition afterPayload : Conn := set_br (drop (Z.to_nat n) (br c1)) c1.

Hypothesis Hthere : n <= Z.of_nat (length (br c1)).
Hypothesis Hnonneg : 0 <= n.

Lemma ReadN_there : ReadN n c1 = (Ok (take (Z.to_nat n) (br c1)), afterPayload).
Proof.
  unfold ReadN. destruct (Z.leb_spec n (Z.of_nat (length (br c1)))); [reflexivity|lia].
Qed.

Ltac data_start :=
  frame_start;
  destruct (Z.gtb_spec n (cfg_ReadMaxPayloadSize (config c1))); [lia|];
  rewrite Hrsv, Hdata, <- Hmask;
  replace (GetMask (fh c1) && negb (GetMask (fh c1)) || negb (GetMask (fh c1)) && GetMask (fh c1))
    with false by (destruct (GetMask (fh c1)); reflexivity);
  cbv beta iota; cbn [negb]; (destruct (Z.ltb_spec n 0); [lia|]);
  rewrite ReadN_there; cbv beta iota;
  fold framePayload; unfold afterPayload; cbn [cont config fh set_br set_cont].

(** A Text or Binary frame while a continuation is open. *)
Lemma readFrame_data_interleaved :
  GetOpcode (fh c1) <> OpcodeContinuation ->
  initialized (cont c1) = true ->
  readFrame emitClose_result c = (Err (EStatus CloseProtocolError), afterPayload).
Proof.
  intros Hop Hinit. data_start.
  destruct (Z.eqb_spec (GetOpcode (fh c1)) OpcodeContinuation); [contradiction|].
  rewrite Hinit. reflexivity.
Qed.

(** A Text or Binary frame with FIN set and no continuation open. *)
Lemma readFrame_single :
  GetOpcode (fh c1) <> OpcodeContinuation ->
  initialized (cont c1) = false ->
  GetFIN (fh c1) = true ->
  readFrame emitClose_result c =
    (Ok (Some {| msg_Opcode := GetOpcode (fh c1); msg_Data := framePayload |}),
     afterPayload).
Proof.
  intros Hop Hinit Hfin. data_start.
  destruct (Z.eqb_spec (GetOpcode (fh c1)) OpcodeContinuation); [contradiction|].
  rewrite Hinit, Hfin. reflexivity.
Qed.

(** A Continuation frame with no continuation open. *)
Lemma readFrame_orphan :
  GetOpcode (fh c1) = OpcodeContinuation ->
  initialized (cont c1) = false ->
  readFrame emitClose_result c = (Err (EStatus CloseProtocolError), afterPayload).
Proof.
  intros Hop Hinit. data_start.
  rewrite Hop. change (OpcodeContinuation =? OpcodeContinuation) with true.
  cbn [negb andb]. rewrite !andb_false_r. cbv iota beta.
  cbn [cont set_br]. rewrite Hinit. reflexivity.
Qed.

(** A Continuation frame while a continuation is open. *)
Lemma readFrame_continue :
  GetOpcode (fh c1) = OpcodeContinuation ->
  initialized (cont c1) = true ->
  let buf := cf_buffer (cont c1) ++ framePayload in
  let grown := set_cont {| initialized := true; cf_opcode := cf_opcode (cont c1);
                           cf_buffer := buf |} afterPayload in
  readFrame emitClose_result c =
    if Z.of_nat (length buf) >? cfg_ReadMaxPayloadSize (config c1)
    then (Err (EStatus CloseMessageTooLarge), grown)
    else if GetFIN (fh c1)
    then (Ok (Some {| msg_Opcode := cf_opcode (cont c1); msg_Data := buf |}),
          set_cont (reset (cont grown)) grown)
    else (Ok None, grown).
Proof.
  intros Hop Hinit buf grown. data_start.
  rewrite Hop. change (OpcodeContinuation =? OpcodeContinuation) with true.
  cbn [negb andb]. rewrite !andb_false_r. cbv iota beta.
  cbn [cont set_br config set_cont cf_buffer cf_opcode initialized]. rewrite Hinit.
  cbn [negb]. cbv iota.
  fold buf. subst grown. unfold afterPayload. cbn [config set_br set_cont].
  destruct (Z.of_nat (length buf) >? cfg_ReadMaxPayloadSize (config c1)); [reflexivity|].
  destruct (GetFIN (fh c1)); reflexivity.
Qed.

Lemma framePayload_length : Z.of_nat (length framePayload) = n.
Proof.
  clear - Hthere Hnonneg.
  unfold framePayload. destruct (GetMask (fh c1));
    rewrite ?MaskXOR_length, length_take; lia.
Qed.

(** A Text or Binary frame with FIN clear and no continuation open. *)
Lemma readFrame_open :
  GetOpcode (fh c1) <> OpcodeContinuation ->
  initialized (cont c1) = false ->
  GetFIN (fh c1) = false ->
  readFrame emitClose_result c =
    (Ok None,
     set_cont {| initialized := true; cf_opcode := GetOpcode (fh c1);
                 cf_buffer := framePayload |} afterPayload).
Proof.
  intros Hop Hinit Hfin. pose proof framePayload_length as Hlen. data_start.
  destruct (Z.eqb_spec (GetOpcode (fh c1)) OpcodeContinuation); [contradiction|].
  rewrite Hinit, Hfin. cbn [negb andb]. cbv iota beta.
  cbn [cont set_br config set_cont cf_buffer cf_opcode initialized negb app].
  cbv iota beta. cbn [config set_br set_cont].
  destruct (Z.gtb_spec (Z.of_nat (length framePayload)) (cfg_ReadMaxPayloadSize (config c1)));
    [lia|reflexivity].
Qed.

End FrameSteps.

Lemma be_uint_nonneg (bs : list byte) : 0 <= be_uint bs.
Proof.
  induction bs as [|b bs IH] using rev_ind.
  - unfold be_uint. simpl. lia.
  - rewrite be_uint_app. pose proof (Z_of_byte_range b). lia.
Qed.

Lemma GetLengthCode_range (h : frameHeader) : 0 <= GetLengthCode h < 128.
Proof.
  unfold GetLengthCode. change 127 with (Z.ones 7).
  rewrite Z.land_ones by lia. apply Z.mod_pos_bound. lia.
Qed.

Lemma GetOpcode_range (h : frameHeader) : 0 <= GetOpcode h < 16.
Proof.
  unfold GetOpcode. change 15 with (Z.ones 4).
  rewrite Z.land_ones by lia. apply Z.mod_pos_bound. lia.
Qed.

Lemma be_uint_bound (bs : list byte) : be_uint bs < 256 ^ Z.of_nat (length bs).
Proof.
  induction bs as [|b bs IH] using rev_ind.
  - unfold be_uint. simpl. lia.
  - rewrite be_uint_app, length_app, Nat2Z.inj_add, Z.pow_add_r by lia.
    pose proof (Z_of_byte_range b). cbn [length]. change (256 ^ Z.of_nat 1) with 256.
    pose proof (be_uint_nonneg bs). nia.
Qed.

Lemma ReadN_length (k : Z) (c c' : Conn) (p : list byte) :
  0 <= k -> ReadN k c = (Ok p, c') -> Z.of_nat (length p) = k.
Proof.
  unfold ReadN. intros Hk H.
  destruct (Z.leb_spec k (Z.of_nat (length (br c)))); [|discriminate].
  injection H as <- _. rewrite length_take. lia.
Qed.

(** The length [Parse] returns is an [int]; it is negative only for an
    8-byte length with the high bit set. *)
Lemma Parse_range (c c' : Conn) (n : Z) :
  Parse c = (Ok n, c') ->
  - 2 ^ 63 <= n < 2 ^ 63 /\ (n < 0 -> GetLengthCode (fh c') = 127).
Proof.
  unfold Parse, bind, get, modify, ret. intros H.
  destruct (ReadN 2 c) as [[h|e] c1] eqn:E1; [|discriminate].
  set (h' := {| fh_b0 := default x00 (h !! 0%nat); fh_b1 := default x00 (h !! 1%nat);
                fh_maskKey := fh_maskKey (fh c1) |}) in *.
  pose proof (GetLengthCode_range h') as Hcode.
  assert (Hfh : forall (st st' : Conn) (r : result unit),
             GetLengthCode (fh st) = GetLengthCode h' ->
             (if GetMask h'
              then fun c0 : Conn =>
                let (r, c') := ReadN 4 c0 in
                match r with
                | Ok key => (Ok (), set_fh {| fh_b0 := fh_b0 h'; fh_b1 := fh_b1 h';
                                              fh_maskKey := key |} c')
                | Err e => (Err e, c')
                end
              else fun c0 : Conn => (Ok (), c0)) st = (r, st') ->
             GetLengthCode (fh st') = GetLengthCode h').
  { intros st st' r Hst Hrun. destruct (GetMask h').
    - destruct (ReadN 4 st) as [[key|e] st1] eqn:E4.
      + injection Hrun as _ <-. reflexivity.
      + injection Hrun as _ <-.
        apply ReadN_sameButInput in E4 as [_ Hsame]. now rewrite Hsame.
    - injection Hrun as _ <-. exact Hst. }
  destruct (Z.eqb_spec (GetLengthCode h') 126) as [H126|H126];
    [|destruct (Z.eqb_spec (GetLengthCode h') 127) as [H127|H127]].
  - destruct (ReadN 2 (set_fh h' c1)) as [[ext|e] c2] eqn:E2; [|discriminate].
    pose proof (ReadN_length 2 _ _ _ ltac:(lia) E2) as Hlen.
    pose proof (be_uint_nonneg ext). pose proof (be_uint_bound ext) as Hb.
    replace (length ext) with 2%nat in Hb by lia. change (256 ^ Z.of_nat 2) with 65536 in Hb.
    match type of H with
    | (let (_, _) := ?m ?st in _) = _ => destruct (m st) as [[[]|e] c3] eqn:E3
    end; [|discriminate].
    injection H as <- <-. split; [lia|lia].
  - destruct (ReadN 8 (set_fh h' c1)) as [[ext|e] c2] eqn:E2; [|discriminate].
    pose proof (ReadN_length 8 _ _ _ ltac:(lia) E2) as Hlen.
    pose proof (be_uint_nonneg ext). pose proof (be_uint_bound ext) as Hb.
    replace (length ext) with 8%nat in Hb by lia.
    change (256 ^ Z.of_nat 8) with (2 ^ 64) in Hb.
    match type of H with
    | (let (_, _) := ?m ?st in _) = _ => destruct (m st) as [[[]|e] c3] eqn:E3
    end; [|discriminate].
    injection H as <- <-. split; [apply toInt_range; lia|]. intros _.
    rewrite (Hfh c2 c3 _ ltac:(apply ReadN_sameButInput in E2 as [_ ->]; reflexivity) E3).
    exact H127.
  - match type of H with
    | (let (_, _) := ?m ?st in _) = _ => destruct (m st) as [[[]|e] c3] eqn:E3
    end; [|discriminate].
    injection H as <- <-. split; lia.
Qed.

(** * Every way a call of readFrame can go *)

Section Outcomes.

Variable emitClose_result : list byte -> option error.

(** The header parsed from [c] passed the checks on length, reserved
    bits and mask. *)
Definition accepted (c c1 : Conn) (n : Z) : Prop :=
  Parse c = (Ok n, c1) /\
  0 <= n <= cfg_ReadMaxPayloadSize (config c1) /\
  GetRSV1 (fh c1) || GetRSV2 (fh c1) || GetRSV3 (fh c1) = false /\
  GetMask (fh c1) = isServer c1.

(** An accepted data frame whose payload arrived. *)
Definition dataArrived (c c1 : Conn) (n : Z) : Prop :=
  accepted c c1 n /\
  isDataFrame (GetOpcode (fh c1)) = true /\
  n <= Z.of_nat (length (br c1)).

(** The header parsed from [c] passed the checks of [readFrame] on
    length, reserved bits and mask; the length may be negative. *)
Definition passed (c c1 : Conn) (n : Z) : Prop :=
  Parse c = (Ok n, c1) /\
  (n <= cfg_ReadMaxPayloadSize (config c1)) /\
  (GetRSV1 (fh c1) || GetRSV2 (fh c1) || GetRSV3 (fh c1) = false) /\
  GetMask (fh c1) = isServer c1.

Inductive frameOutcome (c : Conn) : result (option Message) -> Conn -> Prop :=
| fo_parse_error e c1 :
    Parse c = (Err e, c1) ->
    frameOutcome c (Err e) c1
| fo_too_large n c1 :
    Parse c = (Ok n, c1) -> cfg_ReadMaxPayloadSize (config c1) < n ->
    frameOutcome c (Err (EStatus CloseMessageTooLarge)) c1
| fo_reserved n c1 :
    Parse c = (Ok n, c1) -> n <= cfg_ReadMaxPayloadSize (config c1) ->
    GetRSV1 (fh c1) || GetRSV2 (fh c1) || GetRSV3 (fh c1) = true ->
    frameOutcome c (Err (EStatus CloseProtocolError)) c1
| fo_mask n c1 :
    Parse c = (Ok n, c1) -> n <= cfg_ReadMaxPayloadSize (config c1) ->
    GetRSV1 (fh c1) || GetRSV2 (fh c1) || GetRSV3 (fh c1) = false ->
    GetMask (fh c1) <> isServer c1 ->
    frameOutcome c (Err (EStatus CloseProtocolError)) c1
| fo_control_ok n c1 c2 :
    passed c c1 n -> isDataFrame (GetOpcode (fh c1)) = false ->
    readControl emitClose_result c1 = (Ok tt, c2) ->
    frameOutcome c (Ok None) c2
| fo_control_error n c1 e c2 :
    passed c c1 n -> isDataFrame (GetOpcode (fh c1)) = false ->
    readControl emitClose_result c1 = (Err e, c2) ->
    frameOutcome c (Err e) c2
| fo_negative n c1 :
    passed c c1 n -> isDataFrame (GetOpcode (fh c1)) = true ->
    n < 0 ->
    frameOutcome c (Err (EPanic "slice bounds out of range")) c1
| fo_short n c1 :
    accepted c c1 n -> isDataFrame (GetOpcode (fh c1)) = true ->
    Z.of_nat (length (br c1)) < n ->
    frameOutcome c (Err EIO) (set_br [] c1)
| fo_interleaved n c1 :
    dataArrived c c1 n ->
    GetOpcode (fh c1) <> OpcodeContinuation -> initialized (cont c1) = true ->
    frameOutcome c (Err (EStatus CloseProtocolError)) (afterPayload c1 n)
| fo_single n c1 :
    dataArrived c c1 n ->
    GetOpcode (fh c1) <> OpcodeContinuation -> initialized (cont c1) = false ->
    GetFIN (fh c1) = true ->
    frameOutcome c
      (Ok (Some {| msg_Opcode := GetOpcode (fh c1); msg_Data := framePayload c1 n |}))
      (afterPayload c1 n)
| fo_open n c1 :
    dataArrived c c1 n ->
    GetOpcode (fh c1) <> OpcodeContinuation -> initialized (cont c1) = false ->
    GetFIN (fh c1) = false ->
    frameOutcome c (Ok None)
      (set_cont {| initialized := true; cf_opcode := GetOpcode (fh c1);
                   cf_buffer := framePayload c1 n |} (afterPayload c1 n))
| fo_orphan n c1 :
    dataArrived c c1 n ->
    GetOpcode (fh c1) = OpcodeContinuation -> initialized (cont c1) = false ->
    frameOutcome c (Err (EStatus CloseProtocolError)) (afterPayload c1 n)
| fo_overflow n c1 :
    dataArrived c c1 n ->
    GetOpcode (fh c1) = OpcodeContinuation -> initialized (cont c1) = true ->
    cfg_ReadMaxPayloadSize (config c1)
      < Z.of_nat (length (cf_buffer (cont c1) ++ framePayload c1 n)) ->
    frameOutcome c (Err (EStatus CloseMessageTooLarge))
      (set_cont {| initialized := true; cf_opcode := cf_opcode (cont c1);
                   cf_buffer := cf_buffer (cont c1) ++ framePayload c1 n |}
         (afterPayload c1 n))
| fo_append n c1 :
    dataArrived c c1 n ->
    GetOpcode (fh c1) = OpcodeContinuation -> initialized (cont c1) = true ->
    Z.of_nat (length (cf_buffer (cont c1) ++ framePayload c1 n))
      <= cfg_ReadMaxPayloadSize (config c1) ->
    GetFIN (fh c1) = false ->
    frameOutcome c (Ok None)
      (set_cont {| initialized := true; cf_opcode := cf_opcode (cont c1);
                   cf_buffer := cf_buffer (cont c1) ++ framePayload c1 n |}
         (afterPayload c1 n))
| fo_complete n c1 :
    dataArrived c c1 n ->
    GetOpcode (fh c1) = OpcodeContinuation -> initialized (cont c1) = true ->
    Z.of_nat (length (cf_buffer (cont c1) ++ framePayload c1 n))
      <= cfg_ReadMaxPayloadSize (config c1) ->
    GetFIN (fh c1) = true ->
    frameOutcome c
      (Ok (Some {| msg_Opcode := cf_opcode (cont c1);
                   msg_Data := cf_buffer (cont c1) ++ framePayload c1 n |}))
      (set_cont (reset {| initialized := true; cf_opcode := cf_opcode (cont c1);
                          cf_buffer := cf_buffer (cont c1) ++ framePayload c1 n |})
         (afterPayload c1 n)).

Lemma readFrame_outcome (c : Conn) :
  frameOutcome c (readFrame emitClose_result c).1 (readFrame emitClose_result c).2.
Proof.
  destruct (Parse c) as [[n|e] c1] eqn:HP.
  2:{ rewrite (readFrame_parse_error _ _ _ _ HP). now constructor. }
  destruct (Z.lt_ge_cases (cfg_ReadMaxPayloadSize (config c1)) n) as [Hbig|Hsize].
  { rewrite (readFrame_too_large _ _ _ _ HP Hbig). eapply fo_too_large; eauto. }
  destruct (GetRSV1 (fh c1) || GetRSV2 (fh c1) || GetRSV3 (fh c1)) eqn:Hrsv.
  { rewrite (readFrame_rsv _ _ _ _ HP Hsize Hrsv). eapply fo_reserved; eauto. }
  destruct (decide (GetMask (fh c1) = isServer c1)) as [Hmask|Hmask].
  2:{ rewrite (readFrame_mask _ _ _ _ HP Hsize Hrsv Hmask). eapply fo_mask; eauto. }
  assert (Hpass : passed c c1 n) by (repeat split; assumption || lia).
  destruct (isDataFrame (GetOpcode (fh c1))) eqn:Hdata.
  2:{ rewrite (readFrame_control _ _ _ _ HP Hsize Hrsv Hmask Hdata).
      destruct (readControl emitClose_result c1) as [[[]|e] c2] eqn:HC; cbn [fst snd].
      - eapply fo_control_ok; eauto.
      - eapply fo_control_error; eauto. }
  destruct (Z.lt_ge_cases n 0) as [Hneg|Hn0].
  { rewrite (readFrame_negative _ _ _ _ HP Hsize Hrsv Hmask Hdata Hneg).
    eapply fo_negative; eauto. }
  assert (Hacc : accepted c c1 n) by (repeat split; assumption || lia).
  destruct (Z.lt_ge_cases (Z.of_nat (length (br c1))) n) as [Hshort|Hthere].
  { rewrite (readFrame_short _ _ _ _ HP Hsize Hrsv Hmask Hdata Hshort).
    eapply fo_short; eauto. }
  assert (Harr : dataArrived c c1 n) by (repeat split; assumption || lia).
  destruct (decide (GetOpcode (fh c1) = OpcodeContinuation)) as [Hop|Hop];
    destruct (initialized (cont c1)) eqn:Hinit.
  - rewrite (readFrame_continue _ _ _ _ HP Hsize Hrsv Hmask Hdata Hthere Hn0 Hop Hinit).
    cbv zeta.
    destruct (Z.gtb_spec (Z.of_nat (length (cf_buffer (cont c1) ++ framePayload c1 n)))
                (cfg_ReadMaxPayloadSize (config c1))).
    + now apply fo_overflow.
    + destruct (GetFIN (fh c1)) eqn:Hfin; cbn [fst snd].
      * now apply fo_complete.
      * now apply fo_append.
  - rewrite (readFrame_orphan _ _ _ _ HP Hsize Hrsv Hmask Hdata Hthere Hn0 Hop Hinit).
    now apply fo_orphan.
  - rewrite (readFrame_data_interleaved _ _ _ _ HP Hsize Hrsv Hmask Hdata Hthere Hn0 Hop Hinit).
    now apply fo_interleaved.
  - destruct (GetFIN (fh c1)) eqn:Hfin.
    + rewrite (readFrame_single _ _ _ _ HP Hsize Hrsv Hmask Hdata Hthere Hn0 Hop Hinit Hfin).
      now apply fo_single.
    + rewrite (readFrame_open _ _ _ _ HP Hsize Hrsv Hmask Hdata Hthere Hn0 Hop Hinit Hfin).
      now apply fo_open.
Qed.

End Outcomes.

(** * What every call of readFrame keeps *)

(** The invariant of the continuation state: while a continuation is
    open, the recorded opcode is Text or Binary. *)
Definition contInv (c : Conn) : Prop :=
  initialized (cont c) = true ->
  cf_opcode (cont c) = OpcodeText \/ cf_opcode (cont c) = OpcodeBinary.

Lemma isDataFrame_not_continuation (op : Z) :
  isDataFrame op = true -> op <> OpcodeContinuation ->
  op = OpcodeText \/ op = OpcodeBinary.
Proof.
  unfold isDataFrame, OpcodeContinuation, OpcodeText, OpcodeBinary. intros H Hne.
  destruct (Z.eqb_spec op 0); [contradiction|].
  destruct (Z.eqb_spec op 1); [now left|].
  destruct (Z.eqb_spec op 2); [now right|discriminate].
Qed.

Section Kept.

Variable emitClose_result : list byte -> option error.

Lemma readControl_keeps (c c' : Conn) (r : result unit) :
  readControl emitClose_result c = (r, c') ->
  cont c' = cont c /\ config c' = config c /\ isServer c' = isServer c /\
  (length (br c') <= length (br c))%nat.
Proof.
  unfold readControl, emitClose, bind, get, modify, ret, fail. intros H.
  repeat match type of H with
  | context [ReadN ?k ?st] =>
      let E := fresh "E" in
      destruct (ReadN k st) as [[?|?] ?] eqn:E;
      [ pose proof (ReadN_shrinks _ _ _ _ E);
        apply ReadN_sameButInput in E as [(?&?&?&?&?&?) ?]
      | pose proof (ReadN_shrinks _ _ _ _ E);
        apply ReadN_sameButInput in E as [(?&?&?&?&?&?) ?] ]
  | context [if ?b then _ else _] => destruct b
  | context [match emitClose_result ?p with _ => _ end] => destruct (emitClose_result p)
  | _ => simplify_eq
  end; cbn [cont config isServer br emit]; repeat split; auto; lia.
Qed.

Lemma accepted_kept (c c1 : Conn) (n : Z) :
  accepted c c1 n ->
  sameButInput c c1 /\ (length (br c1) + 2 <= length (br c))%nat.
Proof.
  intros (HP & _). split; [eapply Parse_sameButInput|eapply Parse_consumes]; eauto.
Qed.

Lemma passed_kept (c c1 : Conn) (n : Z) :
  passed c c1 n ->
  sameButInput c c1 /\ (length (br c1) + 2 <= length (br c))%nat.
Proof.
  intros (HP & _). split; [eapply Parse_sameButInput|eapply Parse_consumes]; eauto.
Qed.

Lemma afterPayload_br (c1 : Conn) (n : Z) :
  (length (br (afterPayload c1 n)) <= length (br c1))%nat.
Proof. unfold afterPayload. cbn [br set_br]. rewrite length_drop. lia. Qed.

(** The configuration and the role never change. *)
Lemma frameOutcome_static (c c' : Conn) (r : result (option Message)) :
  frameOutcome emitClose_result c r c' ->
  config c' = config c /\ isServer c' = isServer c.
Proof.
  intros H. destruct H;
    repeat match goal with
    | H : dataArrived _ _ _ |- _ => destruct H as (? & _ & _)
    | H : accepted _ _ _ |- _ => apply accepted_kept in H as [(?&?&?&?&?&?) ?]
    | H : passed _ _ _ |- _ => apply passed_kept in H as [(?&?&?&?&?&?) ?]
    | H : Parse _ = _ |- _ => apply Parse_sameButInput in H as (?&?&?&?&?&?)
    | H : readControl _ _ = _ |- _ => apply readControl_keeps in H as (?&?&?&?)
    end; cbn [config isServer set_br set_cont afterPayload]; split; congruence.
Qed.

(** A call that does not fail consumes at least the two header bytes. *)
Lemma frameOutcome_progress (c c' : Conn) (m : option Message) :
  frameOutcome emitClose_result c (Ok m) c' ->
  (length (br c') + 2 <= length (br c))%nat.
Proof.
  intros H. inversion H; subst;
    repeat match goal with
    | H : dataArrived _ _ _ |- _ => destruct H as (? & _ & _)
    | H : accepted _ _ _ |- _ => apply accepted_kept in H as [_ ?]
    | H : passed _ _ _ |- _ => apply passed_kept in H as [_ ?]
    | H : readControl _ _ = _ |- _ => apply readControl_keeps in H as (?&?&?&?)
    end;
    try match goal with
    | |- context [afterPayload ?c1 ?n] => pose proof (afterPayload_br c1 n)
    end; cbn [br set_cont] in *; lia.
Qed.

(** The invariant of the continuation state is kept by every call. *)
Lemma frameOutcome_contInv (c c' : Conn) (r : result (option Message)) :
  frameOutcome emitClose_result c r c' -> contInv c -> contInv c'.
Proof.
  intros H Hinv. unfold contInv in *.
  destruct H;
    repeat match goal with
    | H : dataArrived _ _ _ |- _ => destruct H as (? & Hdata & _)
    | H : accepted _ _ _ |- _ => apply accepted_kept in H as [(?&?&?&?&Hcont&?) ?]
    | H : passed _ _ _ |- _ => apply passed_kept in H as [(?&?&?&?&Hcont&?) ?]
    | H : Parse _ = _ |- _ => apply Parse_sameButInput in H as (?&?&?&?&Hcont&?)
    | H : readControl _ _ = _ |- _ => apply readControl_keeps in H as (Hc2&?&?&?)
    end;
    cbn [cont set_br set_cont afterPayload initialized cf_opcode reset];
    try discriminate;
    try (rewrite ?Hc2, ?Hcont; assumption);
    try (rewrite ?Hc2, ?Hcont in *; intros _; auto; fail).
  intros _. now apply isDataFrame_not_continuation.
Qed.

End Kept.

(** * Role and mask (checkMask) *)

(** C6.  [checkMask] fails, with CloseProtocolError, exactly when the MASK
    bit disagrees with the role: a server connection rejects every
    unmasked frame, a client connection every masked frame; in all other
    cases it returns nil.  The connection is left as it was. *)
Theorem checkMask_role (c : Conn) (enabled : bool) :
  checkMask enabled c =
    (if Bool.eqb enabled (isServer c) then Ok tt else Err (EStatus CloseProtocolError), c)
  /\ ((checkMask enabled c).1 = Err (EStatus CloseProtocolError) <-> enabled <> isServer c)
  /\ ((checkMask enabled c).1 = Ok tt <-> enabled = isServer c).
Proof.
  unfold checkMask, bind, get, fail, ret.
  destruct enabled, (isServer c); cbn; repeat split; congruence.
Qed.

(** * Control frames (readControl) *)

Definition knownOpcode (op : Z) : Prop :=
  op = OpcodeContinuation \/ op = OpcodeText \/ op = OpcodeBinary \/
  op = OpcodeCloseConnection \/ op = OpcodePing \/ op = OpcodePong.

(** C5.  [readControl] fails with CloseProtocolError, before it reads
    anything, when the FIN bit of the frame is 0 or when its length code
    exceeds 125; and for a frame whose opcode is none of Continuation,
    Text, Binary, Close, Ping, Pong it fails with an error that carries
    CloseProtocolError, once the payload the length code announces has
    arrived.  [readFrame] hands every frame that is not a data frame and
    that passed the checks on length, reserved bits and mask to
    [readControl], and returns that error. *)
Theorem readControl_rejects (emitClose_result : list byte -> option error) (c : Conn) :
  (GetFIN (fh c) = false \/ 125 < GetLengthCode (fh c) ->
   readControl emitClose_result c = (Err (EStatus CloseProtocolError), c)) /\
  (~ knownOpcode (GetOpcode (fh c)) ->
   GetLengthCode (fh c) <= Z.of_nat (length (br c)) ->
   exists e c', readControl emitClose_result c = (Err e, c') /\
                closeCode e = Some CloseProtocolError) /\
  (forall c0 n,
     accepted c0 c n ->
     (isDataFrame (GetOpcode (fh c)) = false /\
      (GetFIN (fh c) = false \/ 125 < GetLengthCode (fh c))) \/
     (~ knownOpcode (GetOpcode (fh c)) /\
      GetLengthCode (fh c) <= Z.of_nat (length (br c))) ->
     exists e c', readFrame emitClose_result c0 = (Err e, c') /\
                  closeCode e = Some CloseProtocolError).
Proof.
  assert (Hfin : GetFIN (fh c) = false \/ 125 < GetLengthCode (fh c) ->
                 readControl emitClose_result c = (Err (EStatus CloseProtocolError), c)).
  { intros H. unfold readControl, bind, get, fail.
    destruct (GetFIN (fh c)); cbn [negb]; [|reflexivity].
    destruct H as [H|H]; [discriminate|].
    unfold ThresholdV1. destruct (Z.gtb_spec (GetLengthCode (fh c)) 125); [reflexivity|lia]. }
  assert (Hunknown : ~ knownOpcode (GetOpcode (fh c)) ->
                     GetLengthCode (fh c) <= Z.of_nat (length (br c)) ->
                     exists e c', readControl emitClose_result c = (Err e, c') /\
                                  closeCode e = Some CloseProtocolError).
  { intros Hop Hlen. unfold readControl, bind, get, fail, ret, modify.
    destruct (GetFIN (fh c)); cbn [negb]; [|eauto].
    destruct (GetLengthCode (fh c) >? ThresholdV1); [eauto|].
    assert (Hping : (GetOpcode (fh c) =? OpcodePing) = false)
      by (apply Z.eqb_neq; unfold knownOpcode in Hop; tauto).
    assert (Hpong : (GetOpcode (fh c) =? OpcodePong) = false)
      by (apply Z.eqb_neq; unfold knownOpcode in Hop; tauto).
    assert (Hclose : (GetOpcode (fh c) =? OpcodeCloseConnection) = false)
      by (apply Z.eqb_neq; unfold knownOpcode in Hop; tauto).
    rewrite Hping, Hpong, Hclose.
    destruct (GetLengthCode (fh c) >? 0).
    - unfold ReadN.
      destruct (Z.leb_spec (GetLengthCode (fh c)) (Z.of_nat (length (br c)))); [|lia].
      eauto.
    - eauto. }
  split; [exact Hfin|]. split; [exact Hunknown|].
  intros c0 n (HP & Hn & Hrsv & Hmask) Hcase.
  assert (Hctl : isDataFrame (GetOpcode (fh c)) = false).
  { destruct Hcase as [[H _]|[Hop _]]; [exact H|].
    unfold isDataFrame. unfold knownOpcode in Hop.
    destruct (Z.eqb_spec (GetOpcode (fh c)) OpcodeContinuation); [tauto|].
    destruct (Z.eqb_spec (GetOpcode (fh c)) OpcodeText); [tauto|].
    destruct (Z.eqb_spec (GetOpcode (fh c)) OpcodeBinary); [tauto|reflexivity]. }
  rewrite (readFrame_control emitClose_result c0 c n HP) by (assumption || lia).
  destruct Hcase as [[_ H]|[Hop Hlen]].
  - rewrite (Hfin H). eauto.
  - destruct (Hunknown Hop Hlen) as (e & c' & -> & He). eauto.
Qed.

(** * Text encoding (emitMessage) *)

(** C7.  [emitMessage] fails, with an error that carries
    CloseUnsupportedData (1007), exactly when CheckUtf8Enabled is set, the
    message is Text and its payload is not valid UTF-8; in every other
    case (another opcode, or the check switched off) the message is
    handed to OnMessage without the payload being looked at, on the read
    queue when ReadAsyncEnabled is set. *)
Theorem emitMessage_utf8 (utf8_Valid : list byte -> bool) (c : Conn) (msg : Message) :
  emitMessage utf8_Valid msg c =
    if cfg_CheckUtf8Enabled (config c) && (msg_Opcode msg =? OpcodeText)
       && negb (utf8_Valid (msg_Data msg))
    then (Err (ENew CloseUnsupportedData ErrTextEncoding), c)
    else (Ok tt, emit (OnMessage (cfg_ReadAsyncEnabled (config c)) msg) c).
Proof.
  unfold emitMessage, CheckEncoding, dispatch, bind, get, fail, modify.
  destruct (cfg_CheckUtf8Enabled (config c)), (msg_Opcode msg =? OpcodeText);
    cbn [andb negb]; try (destruct (cfg_ReadAsyncEnabled (config c)); reflexivity).
  destruct (utf8_Valid (msg_Data msg)); cbn [negb];
    [destruct (cfg_ReadAsyncEnabled (config c))|]; reflexivity.
Qed.

(** * Completed messages (ReadMessage) *)

Section Messages.

Variable emitClose_result : list byte -> option error.

(** The connections a reader passes through: one on which no continuation
    is open (as [handshake] builds it), and those that calls of
    [readFrame] lead to. *)
Inductive reachable : Conn -> Prop :=
| reach_fresh c : initialized (cont c) = false -> reachable c
| reach_frame c : reachable c -> reachable (readFrame emitClose_result c).2.

Lemma reachable_contInv (c : Conn) : reachable c -> contInv c.
Proof.
  induction 1 as [c Hc|c _ IH].
  - unfold contInv. congruence.
  - eapply frameOutcome_contInv; [apply readFrame_outcome|exact IH].
Qed.

Lemma frameOutcome_message (c c' : Conn) (m : Message) :
  frameOutcome emitClose_result c (Ok (Some m)) c' -> contInv c ->
  Z.of_nat (length (msg_Data m)) <= cfg_ReadMaxPayloadSize (config c) /\
  (msg_Opcode m = OpcodeText \/ msg_Opcode m = OpcodeBinary) /\
  initialized (cont c') = false.
Proof.
  intros H Hinv. inversion H; subst; cbn [msg_Data msg_Opcode].
  - (* one frame *)
    match goal with H : dataArrived _ _ _ |- _ =>
      destruct H as ((HP & Hn & Hrsv & Hmask) & Hdata & Hthere) end.
    pose proof (Parse_sameButInput _ _ _ HP) as (_&_&_&Hcfg&Hcont&_).
    rewrite framePayload_length by lia. rewrite <- Hcfg.
    split; [lia|]. split; [now apply isDataFrame_not_continuation|].
    unfold afterPayload. cbn [cont set_br]. assumption.
  - (* the last fragment *)
    match goal with H : dataArrived _ _ _ |- _ =>
      destruct H as ((HP & Hn & Hrsv & Hmask) & Hdata & Hthere) end.
    pose proof (Parse_sameButInput _ _ _ HP) as (_&_&_&Hcfg&Hcont&_).
    rewrite <- Hcfg. split; [assumption|]. split; [|reflexivity].
    rewrite Hcont. apply Hinv. congruence.
Qed.

Lemma ReadMessage_message (fuel : nat) (c c' : Conn) (m : Message) :
  contInv c ->
  ReadMessage emitClose_result fuel c = Some (Ok m, c') ->
  Z.of_nat (length (msg_Data m)) <= cfg_ReadMaxPayloadSize (config c) /\
  (msg_Opcode m = OpcodeText \/ msg_Opcode m = OpcodeBinary).
Proof.
  revert c. induction fuel as [|fuel IH]; intros c Hinv H; [discriminate|].
  cbn [ReadMessage] in H.
  pose proof (readFrame_outcome emitClose_result c) as Hout.
  destruct (readFrame emitClose_result c) as [[[m'|]|e] c1]; cbn [fst snd] in Hout.
  - injection H as -> ->.
    destruct (frameOutcome_message _ _ _ Hout Hinv) as (? & ? & _). auto.
  - destruct (frameOutcome_static _ _ _ _ Hout) as [Hcfg _]. rewrite <- Hcfg.
    apply IH; [|assumption]. eapply frameOutcome_contInv; eauto.
  - discriminate.
Qed.

(** The loop of [ReadMessage] ends, with a message, with an error or
    with the panic of a negative length: a frame that neither fails nor
    completes a message has consumed its two header bytes at least, so
    one round per two bytes of input, and one more, is enough. *)
Lemma ReadMessage_terminates (fuel : nat) (c : Conn) :
  (length (br c) < 2 * fuel)%nat ->
  exists r, ReadMessage emitClose_result fuel c = Some r.
Proof.
  revert c. induction fuel as [|fuel IH]; intros c Hlen; [lia|].
  cbn [ReadMessage].
  pose proof (readFrame_outcome emitClose_result c) as Hout.
  destruct (readFrame emitClose_result c) as [[[m'|]|e] c1]; cbn [fst snd] in Hout; eauto.
  apply IH. apply frameOutcome_progress in Hout. lia.
Qed.

(** The bounds on a completed message.  On a connection the reader can
    be in, a message that [ReadMessage] returns has a payload of at most
    ReadMaxPayloadSize bytes and the opcode Text or Binary, never
    Continuation; and the loop ends -- with a message, an error or the
    panic of a negative length -- given one round per two bytes of input
    and one more.  A frame whose length, as the [int] that [Parse]
    returns, exceeds ReadMaxPayloadSize makes [readFrame] fail with
    CloseMessageTooLarge (1009), and so does a continuation frame whose
    payload takes the reassembled total beyond ReadMaxPayloadSize, be it
    the last fragment or one in between.  A declared length of 2^63 or
    more is not such a frame: it is the failing input of C2 below. *)
Theorem completed_message_bounds (c : Conn) :
  (reachable c ->
   (forall fuel m c',
      ReadMessage emitClose_result fuel c = Some (Ok m, c') ->
      Z.of_nat (length (msg_Data m)) <= cfg_ReadMaxPayloadSize (config c) /\
      (msg_Opcode m = OpcodeText \/ msg_Opcode m = OpcodeBinary) /\
      msg_Opcode m <> OpcodeContinuation) /\
   (exists r, ReadMessage emitClose_result (S (length (br c))) c = Some r)) /\
  (forall n c1,
      Parse c = (Ok n, c1) -> cfg_ReadMaxPayloadSize (config c) < n ->
      readFrame emitClose_result c = (Err (EStatus CloseMessageTooLarge), c1)) /\
  (forall n c1,
      dataArrived c c1 n ->
      GetOpcode (fh c1) = OpcodeContinuation -> initialized (cont c) = true ->
      cfg_ReadMaxPayloadSize (config c)
        < Z.of_nat (length (cf_buffer (cont c))) + n ->
      (readFrame emitClose_result c).1 = Err (EStatus CloseMessageTooLarge)).
Proof.
  split; [|split].
  - intros Hreach. split.
    + intros fuel m c' H.
      destruct (ReadMessage_message fuel c c' m (reachable_contInv c Hreach) H) as [Hlen Hop].
      repeat split; try assumption.
      destruct Hop as [-> | ->]; discriminate.
    + apply ReadMessage_terminates. lia.
  - intros n c1 HP Hbig.
    pose proof (Parse_sameButInput _ _ _ HP) as (_&_&_&Hcfg&_&_).
    apply (readFrame_too_large emitClose_result c c1 n HP). rewrite Hcfg. assumption.
  - intros n c1 ((HP & Hn & Hrsv & Hmask) & Hdata & Hthere) Hop Hinit Hbig.
    pose proof (Parse_sameButInput _ _ _ HP) as (_&_&_&Hcfg&Hcont&_).
    rewrite (readFrame_continue emitClose_result c c1 n HP) by (lia || congruence).
    cbv zeta. rewrite length_app, Nat2Z.inj_add, framePayload_length by lia.
    rewrite Hcfg, Hcont.
    destruct (Z.gtb_spec (Z.of_nat (length (cf_buffer (cont c))) + n)
                (cfg_ReadMaxPayloadSize (config c))); [reflexivity|lia].
Qed.

End Messages.

(** * Fragments on the wire *)

(** A fragment as the peer sends it: the mask key, if it masks, and the
    payload. *)
Definition fragment : Type := option (list byte) * list byte.

Definition continuationFrames (middle : list fragment) : list byte :=
  flat_map (fun f => genFrame false false OpcodeContinuation f.1 f.2) middle.

(** A data message sent as a first frame with FIN clear, any number of
    Continuation frames with FIN clear and a Continuation frame with FIN
    set. *)
Definition fragmentedMessage (opcode : Z) (first : fragment) (middle : list fragment)
    (last : fragment) : list byte :=
  genFrame false false opcode first.1 first.2
  ++ continuationFrames middle
  ++ genFrame true false OpcodeContinuation last.1 last.2.

Definition payloads (middle : list fragment) : list byte := flat_map snd middle.

(** The fragment is masked as the role of [c] asks of its peer. *)
Definition keyedFor (c : Conn) (f : fragment) : Prop :=
  wellKeyed f.1 /\ bool_decide (is_Some f.1) = isServer c.

Lemma onWire_length (key : option (list byte)) (p : list byte) :
  length (onWire key p) = length p.
Proof. destruct key; [apply MaskXOR_length|reflexivity]. Qed.

Section Emitted.

Variable emitClose_result : list byte -> option error.

(** An emitted data frame, masked as the role asks and within the size
    limit, reaches the continuation rules with its payload intact. *)
Lemma genFrame_arrives (c : Conn) (fin : bool) (opcode : Z) (f : fragment)
    (rest : list byte) :
  isDataFrame opcode = true ->
  keyedFor c f ->
  Z.of_nat (length f.2) <= cfg_ReadMaxPayloadSize (config c) ->
  cfg_ReadMaxPayloadSize (config c) < 2 ^ 63 ->
  br c = genFrame fin false opcode f.1 f.2 ++ rest ->
  exists c1,
    dataArrived c c1 (Z.of_nat (length f.2)) /\
    GetFIN (fh c1) = fin /\ GetOpcode (fh c1) = opcode /\
    framePayload c1 (Z.of_nat (length f.2)) = f.2 /\
    br (afterPayload c1 (Z.of_nat (length f.2))) = rest /\
    sameButInput c (afterPayload c1 (Z.of_nat (length f.2))).
Proof.
  destruct f as [key p]. cbn [fst snd].
  intros Hop [Hkey Hrole] Hlen Hmax Hbr. cbn [fst snd] in *.
  assert (Hop16 : 0 <= opcode < 16).
  { unfold isDataFrame, OpcodeContinuation, OpcodeText, OpcodeBinary in Hop.
    destruct (Z.eqb_spec opcode 0); [lia|].
    destruct (Z.eqb_spec opcode 1); [lia|].
    destruct (Z.eqb_spec opcode 2); [lia|discriminate]. }
  destruct (Parse_genFrame c fin false opcode key p rest Hop16) as
    (h & HP & HF & HR1 & HR2 & HR3 & HO & HM & HK); try assumption.
  { assert (2 ^ 63 < 2 ^ 64) by (apply Z.pow_lt_mono_r; lia). lia. }
  set (c1 := set_fh h (set_br (onWire key p ++ rest) c)) in *.
  exists c1.
  assert (Htake : take (Z.to_nat (Z.of_nat (length p))) (br c1) = onWire key p).
  { subst c1. cbn [br set_fh set_br]. rewrite Nat2Z.id.
    rewrite <- (onWire_length key p). apply take_app_length. }
  assert (Hdrop : drop (Z.to_nat (Z.of_nat (length p))) (br c1) = rest).
  { subst c1. cbn [br set_fh set_br]. rewrite Nat2Z.id.
    rewrite <- (onWire_length key p). apply drop_app_length. }
  repeat split; try assumption; subst c1; cbn [config fh isServer set_fh set_br br]; try lia.
  - rewrite HR1, HR2, HR3. reflexivity.
  - congruence.
  - congruence.
  - rewrite length_app, onWire_length. lia.
  - unfold framePayload. rewrite Htake. cbn [fh set_fh]. rewrite HM.
    destruct key as [k|].
    + rewrite bool_decide_true by eauto. cbn [onWire keyOf] in *.
      rewrite HK. apply MaskXOR_involutive.
    + rewrite bool_decide_false by (intros [? ?]; discriminate). reflexivity.
Qed.

Lemma readFrames_S (k : nat) (c : Conn) :
  readFrames emitClose_result (S k) c =
    (let '(r, c') := readFrame emitClose_result c in
     let '(rs, c'') := readFrames emitClose_result k c' in (r :: rs, c'')).
Proof. reflexivity. Qed.

Lemma ReadMessage_of_readFrames (k : nat) (c c' : Conn) (m : Message) :
  readFrames emitClose_result (S k) c = (replicate k (Ok None) ++ [Ok (Some m)], c') ->
  ReadMessage emitClose_result (S k) c = Some (Ok m, c').
Proof.
  revert c. induction k as [|k IH]; intros c H.
  - cbn [readFrames replicate app] in H. cbn [ReadMessage].
    destruct (readFrame emitClose_result c) as [r c1]. simplify_eq. reflexivity.
  - rewrite readFrames_S in H. cbn [ReadMessage].
    destruct (readFrame emitClose_result c) as [r c1].
    destruct (readFrames emitClose_result (S k) c1) as [rs c2] eqn:E.
    cbn [replicate app] in H. injection H as -> -> ->.
    apply IH in E. exact E.
Qed.

(** The continuation frames of a message, from the second on, are
    appended in order; the last one delivers the message and resets the
    continuation. *)
Lemma continuation_run (middle : list fragment) (last : fragment) (rest : list byte)
    (c : Conn) :
  initialized (cont c) = true ->
  Forall (keyedFor c) (middle ++ [last]) ->
  Z.of_nat (length (cf_buffer (cont c) ++ payloads middle ++ last.2))
    <= cfg_ReadMaxPayloadSize (config c) ->
  cfg_ReadMaxPayloadSize (config c) < 2 ^ 63 ->
  br c = continuationFrames middle
         ++ genFrame true false OpcodeContinuation last.1 last.2 ++ rest ->
  exists c',
    readFrames emitClose_result (S (length middle)) c =
      (replicate (length middle) (Ok None)
       ++ [Ok (Some {| msg_Opcode := cf_opcode (cont c);
                       msg_Data := cf_buffer (cont c) ++ payloads middle ++ last.2 |})],
       c') /\
    br c' = rest /\ initialized (cont c') = false /\
    config c' = config c /\ isServer c' = isServer c /\ events c' = events c.
Proof.
  revert c. induction middle as [|f middle IH]; intros c Hinit Hkeys Hlen Hmax Hbr.
  - cbn [continuationFrames flat_map app payloads length replicate] in *.
    apply Forall_cons in Hkeys as [Hkey _].
    assert (Hl : Z.of_nat (length last.2) <= cfg_ReadMaxPayloadSize (config c))
      by (repeat rewrite length_app in Hlen; lia).
    destruct (genFrame_arrives c true OpcodeContinuation last rest eq_refl Hkey Hl Hmax Hbr)
      as (c1 & Harr & HF & HO & HPay & Hrest & Hsame).
    pose proof Harr as ((HP & Hn & Hrsv & Hmask) & Hdata & Hthere).
    pose proof (Parse_sameButInput _ _ _ HP) as (_&_&_&Hcfg&Hcont&_).
    destruct Hsame as (_&Hsrv&_&Hcfg'&_&Hev).
    cbn [readFrames].
    rewrite (readFrame_continue emitClose_result c c1 _ HP) by (lia || congruence).
    cbv zeta. rewrite HPay, HF, Hcfg, Hcont.
    destruct (Z.gtb_spec (Z.of_nat (length (cf_buffer (cont c) ++ last.2)))
                (cfg_ReadMaxPayloadSize (config c))); [lia|].
    eexists. split; [reflexivity|].
    cbn [br cont config isServer events set_cont reset initialized].
    repeat split; assumption.
  - cbn [continuationFrames flat_map payloads length replicate] in *.
    fold (continuationFrames middle) in Hbr. fold (payloads middle) in Hlen |- *.
    rewrite <- !app_assoc in Hbr.
    rewrite <- app_comm_cons in Hkeys. apply Forall_cons in Hkeys as [Hkey Hkeys].
    assert (Hl : Z.of_nat (length f.2) <= cfg_ReadMaxPayloadSize (config c))
      by (repeat rewrite length_app in Hlen; lia).
    destruct (genFrame_arrives c false OpcodeContinuation f _ eq_refl Hkey Hl Hmax Hbr)
      as (c1 & Harr & HF & HO & HPay & Hrest & Hsame).
    pose proof Harr as ((HP & Hn & Hrsv & Hmask) & Hdata & Hthere).
    pose proof (Parse_sameButInput _ _ _ HP) as (_&_&_&Hcfg&Hcont&_).
    destruct Hsame as (_&Hsrv&_&Hcfg'&_&Hev).
    rewrite readFrames_S.
    rewrite (readFrame_continue emitClose_result c c1 _ HP) by (lia || congruence).
    cbv zeta. rewrite HPay, HF, Hcfg, Hcont.
    destruct (Z.gtb_spec (Z.of_nat (length (cf_buffer (cont c) ++ f.2)))
                (cfg_ReadMaxPayloadSize (config c))) as [Hgt|_].
    { repeat rewrite length_app in Hlen. repeat rewrite length_app in Hgt. lia. }
    set (c2 := set_cont _ _).
    destruct (IH c2) as (c' & Hrun & Hbr' & Hinit' & Hc' & Hs' & He').
    + reflexivity.
    + subst c2. eapply Forall_impl; [exact Hkeys|].
      intros g [? ?]. split; [assumption|]. cbn [isServer set_cont]. congruence.
    + subst c2. cbn [cont config set_cont cf_buffer]. rewrite Hcfg'.
      rewrite <- !app_assoc. rewrite <- !app_assoc in Hlen. exact Hlen.
    + subst c2. cbn [config set_cont]. rewrite Hcfg'. exact Hmax.
    + subst c2. cbn [br set_cont]. exact Hrest.
    + exists c'. rewrite Hrun.
      subst c2. cbn [cont config isServer events set_cont cf_opcode cf_buffer] in *.
      rewrite <- !app_assoc.
      repeat split; congruence.
Qed.

End Emitted.

(** * Fragment reassembly and the continuation rules *)

(** C1.  Reassembly: on a connection with no continuation open, a data
    message (Text or Binary) that arrives as a first frame with FIN clear,
    any number of Continuation frames with FIN clear and a Continuation
    frame with FIN set -- each frame masked as the role asks, the whole
    payload within ReadMaxPayloadSize -- is read by as many calls of
    [readFrame] as there are frames; all but the last return (nil, nil),
    the last returns the one message, whose opcode is that of the first
    frame and whose payload is the fragments' payloads in order.
    [ReadMessage] returns that message; the continuation is reset, what
    follows the message stays in the reader, and no handler is called.
    Rejection: a data frame that reaches the continuation rules is
    refused with CloseProtocolError when it is Text or Binary while a
    continuation is open, and when it is a Continuation while none is. *)
Theorem fragments_reassemble (emitClose_result : list byte -> option error) (c : Conn) :
  (forall opcode first middle last rest,
     opcode = OpcodeText \/ opcode = OpcodeBinary ->
     initialized (cont c) = false ->
     Forall (keyedFor c) (first :: middle ++ [last]) ->
     Z.of_nat (length (first.2 ++ payloads middle ++ last.2))
       <= cfg_ReadMaxPayloadSize (config c) ->
     cfg_ReadMaxPayloadSize (config c) < 2 ^ 63 ->
     br c = fragmentedMessage opcode first middle last ++ rest ->
     let msg := {| msg_Opcode := opcode;
                   msg_Data := first.2 ++ payloads middle ++ last.2 |} in
     exists c',
       readFrames emitClose_result (S (S (length middle))) c =
         (replicate (S (length middle)) (Ok None) ++ [Ok (Some msg)], c') /\
       ReadMessage emitClose_result (S (S (length middle))) c = Some (Ok msg, c') /\
       br c' = rest /\ initialized (cont c') = false /\ events c' = events c) /\
  (forall c1 n,
     dataArrived c c1 n ->
     (GetOpcode (fh c1) <> OpcodeContinuation /\ initialized (cont c) = true) \/
     (GetOpcode (fh c1) = OpcodeContinuation /\ initialized (cont c) = false) ->
     (readFrame emitClose_result c).1 = Err (EStatus CloseProtocolError)).
Proof.
  split.
  - intros opcode first middle last rest Hop Hinit Hkeys Hlen Hmax Hbr msg.
    apply Forall_cons in Hkeys as [Hkey Hkeys].
    unfold fragmentedMessage in Hbr. rewrite <- !app_assoc in Hbr.
    assert (Hdata : isDataFrame opcode = true) by (destruct Hop as [-> | ->]; reflexivity).
    assert (Hne : opcode <> OpcodeContinuation) by (destruct Hop as [-> | ->]; discriminate).
    assert (Hl : Z.of_nat (length first.2) <= cfg_ReadMaxPayloadSize (config c))
      by (repeat rewrite length_app in Hlen; lia).
    destruct (genFrame_arrives c false opcode first _ Hdata Hkey Hl Hmax Hbr)
      as (c1 & Harr & HF & HO & HPay & Hrest & Hsame).
    pose proof Harr as ((HP & Hn & Hrsv & Hmask) & Hdata' & Hthere).
    pose proof (Parse_sameButInput _ _ _ HP) as (_&_&_&Hcfg&Hcont&_).
    destruct Hsame as (_&Hsrv&_&Hcfg'&_&Hev).
    set (c2 := set_cont {| initialized := true; cf_opcode := opcode; cf_buffer := first.2 |}
                 (afterPayload c1 (Z.of_nat (length first.2)))).
    assert (Hstep : readFrame emitClose_result c = (Ok None, c2)).
    { rewrite (readFrame_open emitClose_result c c1 _ HP) by (lia || congruence).
      subst c2. now rewrite HPay, HO. }
    destruct (continuation_run emitClose_result middle last rest c2)
      as (c' & Hrun & Hbr' & Hinit' & Hc' & Hs' & He').
    + reflexivity.
    + eapply Forall_impl; [exact Hkeys|].
      intros g [? ?]. split; [assumption|]. subst c2. cbn [isServer set_cont]. congruence.
    + subst c2. cbn [cont config set_cont cf_buffer]. rewrite Hcfg'. exact Hlen.
    + subst c2. cbn [config set_cont]. rewrite Hcfg'. exact Hmax.
    + subst c2. cbn [br set_cont]. exact Hrest.
    + assert (Hall : readFrames emitClose_result (S (S (length middle))) c =
                       (replicate (S (length middle)) (Ok None) ++ [Ok (Some msg)], c')).
      { rewrite readFrames_S, Hstep, Hrun. subst c2 msg.
        cbn [cont set_cont cf_opcode cf_buffer replicate app]. reflexivity. }
      exists c'. split; [exact Hall|]. split; [now apply ReadMessage_of_readFrames|].
      subst c2. cbn [events set_cont] in He'. repeat split; congruence.
  - intros c1 n Harr Hcase.
    pose proof Harr as ((HP & Hn & Hrsv & Hmask) & Hdata & Hthere).
    pose proof (Parse_sameButInput _ _ _ HP) as (_&_&_&Hcfg&Hcont&_).
    destruct Hcase as [[Hop Hinit]|[Hop Hinit]].
    + rewrite (readFrame_data_interleaved emitClose_result c c1 n HP)
        by (lia || congruence). reflexivity.
    + rewrite (readFrame_orphan emitClose_result c c1 n HP)
        by (lia || congruence). reflexivity.
Qed.

(** * The continuation state *)

Section Continuation.

Variable emitClose_result : list byte -> option error.

Lemma frameOutcome_continuation (c c' : Conn) (r : result (option Message)) :
  frameOutcome emitClose_result c r c' ->
  (initialized (cont c') = true ->
     (initialized (cont c) = true /\ cf_opcode (cont c') = cf_opcode (cont c)) \/
     (initialized (cont c) = false /\ r = Ok None /\
      exists n c1, Parse c = (Ok n, c1) /\ GetFIN (fh c1) = false /\
                   (GetOpcode (fh c1) = OpcodeText \/ GetOpcode (fh c1) = OpcodeBinary) /\
                   cf_opcode (cont c') = GetOpcode (fh c1))) /\
  (forall m, r = Ok (Some m) -> initialized (cont c') = false) /\
  (forall e, r = Err e ->
     initialized (cont c') = initialized (cont c) /\
     cf_opcode (cont c') = cf_opcode (cont c)).
Proof.
  intros H.
  destruct H;
    repeat match goal with
    | H : dataArrived _ _ _ |- _ =>
        let HP := fresh "HP" in
        pose proof H as ((HP & _) & _); destruct H as (? & Hdata & _)
    | H : accepted _ _ _ |- _ => apply accepted_kept in H as [(?&?&?&?&Hcont&?) ?]
    | H : passed _ _ _ |- _ => apply passed_kept in H as [(?&?&?&?&Hcont&?) ?]
    | H : Parse _ = _ |- _ =>
        pose proof (Parse_sameButInput _ _ _ H) as (?&?&?&?&Hcont&?); revert H
    | H : readControl _ _ = _ |- _ => apply readControl_keeps in H as (Hc2&?&?&?)
    end; intros;
    cbn [cont set_br set_cont afterPayload initialized cf_opcode reset];
    rewrite ?Hc2, ?Hcont in *;
    (split; [|split]); try (intros; discriminate); try (intros; split; congruence);
    try (intros; left; split; congruence);
    try (intros; simplify_eq; congruence).
  intros _. right. split; [assumption|]. split; [reflexivity|].
  eexists _, _. split; [eassumption|]. split; [assumption|].
  split; [|reflexivity]. now apply isDataFrame_not_continuation.
Qed.

(** C3, as the code has it.  On every connection the reader can be in,
    an open continuation has Text or Binary as its recorded opcode.  A
    call of [readFrame] that leaves a continuation open either found it
    open and kept the recorded opcode, or opened it for a Text or Binary
    frame with FIN clear, returning (nil, nil).  A call that returns a
    message -- the FIN=1 continuation frame among them -- leaves no
    continuation open.  A call that returns an error, a protocol error
    or any other, does not reset the state: [initialized] and the
    recorded opcode are what they were. *)
Theorem continuation_state (c : Conn) :
  (reachable emitClose_result c -> contInv c) /\
  (forall r c', readFrame emitClose_result c = (r, c') ->
     (initialized (cont c') = true ->
        (initialized (cont c) = true /\ cf_opcode (cont c') = cf_opcode (cont c)) \/
        (initialized (cont c) = false /\ r = Ok None /\
         exists n c1, Parse c = (Ok n, c1) /\ GetFIN (fh c1) = false /\
                      (GetOpcode (fh c1) = OpcodeText \/ GetOpcode (fh c1) = OpcodeBinary) /\
                      cf_opcode (cont c') = GetOpcode (fh c1))) /\
     (forall m, r = Ok (Some m) -> initialized (cont c') = false) /\
     (forall e, r = Err e ->
        initialized (cont c') = initialized (cont c) /\
        cf_opcode (cont c') = cf_opcode (cont c))).
Proof.
  split; [apply reachable_contInv|].
  intros r c' H. apply frameOutcome_continuation.
  pose proof (readFrame_outcome emitClose_result c) as Hout.
  now rewrite H in Hout.
Qed.

End Continuation.

(** * Reserved bits *)

(** C4, as the code has it.  Whatever the configuration of the
    connection and whatever the handshake agreed, a frame whose header
    parses and which has any of RSV1, RSV2, RSV3 set makes [readFrame]
    fail with the payload still in the reader: with CloseProtocolError
    (1002) when the length [Parse] returned does not exceed
    ReadMaxPayloadSize, and with CloseMessageTooLarge (1009) when it
    does, for the length is tested before the reserved bits.  There is no
    exception for RSV1. *)
Theorem reserved_bits_rejected (emitClose_result : list byte -> option error)
    (c c1 : Conn) (n : Z) :
  Parse c = (Ok n, c1) ->
  GetRSV1 (fh c1) = true \/ GetRSV2 (fh c1) = true \/ GetRSV3 (fh c1) = true ->
  (n <= cfg_ReadMaxPayloadSize (config c) ->
   readFrame emitClose_result c = (Err (EStatus CloseProtocolError), c1)) /\
  (cfg_ReadMaxPayloadSize (config c) < n ->
   readFrame emitClose_result c = (Err (EStatus CloseMessageTooLarge), c1)) /\
  closeCode (EStatus CloseProtocolError) = Some 1002 /\
  closeCode (EStatus CloseMessageTooLarge) = Some 1009.
Proof.
  intros HP Hrsv.
  pose proof (Parse_sameButInput _ _ _ HP) as (_&_&_&Hcfg&_&_).
  split; [|split; [|split; reflexivity]].
  - intros Hsize.
    apply (readFrame_rsv emitClose_result c c1 n HP); [congruence|].
    destruct Hrsv as [-> | [-> | ->]]; rewrite ?orb_true_r; reflexivity.
  - intros Hbig.
    apply (readFrame_too_large emitClose_result c c1 n HP). congruence.
Qed.

(** * The client handshake *)

Lemma GetIntersectionElem_none (a b : list string) :
  (forall x, x ∈ a -> x ∈ b -> x = "") -> GetIntersectionElem a b = "".
Proof.
  induction a as [|item a IH]; intros H; cbn [GetIntersectionElem]; [reflexivity|].
  case_bool_decide as Hin.
  - apply H; [left|assumption].
  - apply IH. intros x Hx. apply H. now right.
Qed.

Lemma GetIntersectionElem_some (a b : list string) :
  GetIntersectionElem a b <> "" ->
  GetIntersectionElem a b ∈ a /\ GetIntersectionElem a b ∈ b.
Proof.
  induction a as [|item a IH]; cbn [GetIntersectionElem]; [congruence|].
  case_bool_decide as Hin.
  - intros _. split; [left|assumption].
  - intros H. destruct (IH H). split; [now right|assumption].
Qed.

Section ClientFacts.

Variable E : Env.

(** The response is the upgrade the client asked for: status 101, a
    Connection header that contains Upgrade, an Upgrade header equal to
    websocket up to case, and the accept key base64(SHA1(key + GUID)). *)
Definition validUpgrade (k : connector) (resp : Response) : Prop :=
  StatusCode resp = 101 /\
  env_HttpHeaderContains E
    (Header_Get (env_CanonicalMIMEHeaderKey E) (resp_Header resp) "Connection")
    "Upgrade" = true /\
  env_EqualFold E
    (Header_Get (env_CanonicalMIMEHeaderKey E) (resp_Header resp) "Upgrade")
    "websocket" = true /\
  Header_Get (env_CanonicalMIMEHeaderKey E) (resp_Header resp) "Sec-WebSocket-Accept"
    = env_base64 E (env_sha1 E (k_secWebsocketKey k ++ "258EAFA5-E914-47DA-95CA-C5AB0DC85B11")).

(** The subprotocols the client asked for, and those the response names. *)
Definition requested (o : ClientOption) : list string :=
  env_Split E (Header_Get (env_CanonicalMIMEHeaderKey E)
                 (default ∅ (co_RequestHeader o)) "Sec-WebSocket-Protocol") ",".

Definition offered (resp : Response) : list string :=
  env_Split E (Header_Get (env_CanonicalMIMEHeaderKey E)
                 (resp_Header resp) "Sec-WebSocket-Protocol") ",".

Lemma checkHeaders_valid (k : connector) (resp : Response) :
  (checkHeaders E k resp = None <-> validUpgrade k resp) /\
  (checkHeaders E k resp = None \/ checkHeaders E k resp = Some ErrHandshake).
Proof.
  unfold checkHeaders, validUpgrade, ComputeAcceptKey, StatusSwitchingProtocols,
    Connection_Key, Connection_Val, Upgrade_Key, Upgrade_Val, SecWebSocketAccept_Key,
    WebSocketGUID.
  destruct (Z.eqb_spec (StatusCode resp) 101) as [Hs|Hs]; cbn [negb].
  2:{ split; [split; [discriminate|tauto]|now right]. }
  destruct (env_HttpHeaderContains E _ _); cbn [negb].
  2:{ split; [split; [discriminate|intros (_&?&_); discriminate]|now right]. }
  destruct (env_EqualFold E _ _); cbn [negb].
  2:{ split; [split; [discriminate|intros (_&_&?&_); discriminate]|now right]. }
  destruct (String.eqb_spec
              (Header_Get (env_CanonicalMIMEHeaderKey E) (resp_Header resp) "Sec-WebSocket-Accept")
              (env_base64 E (env_sha1 E (k_secWebsocketKey k ++ "258EAFA5-E914-47DA-95CA-C5AB0DC85B11"))))
    as [Ha|Ha]; cbn [negb].
  - split; [split; auto|now left].
  - split; [split; [discriminate|tauto]|now right].
Qed.

Lemma getSubProtocol_spec (o : ClientOption) (resp : Response) :
  getSubProtocol E o resp =
    if (0 <? Z.of_nat (length (requested o)))
       && String.eqb (GetIntersectionElem (requested o) (offered resp)) ""
    then Err ErrSubprotocolNegotiation
    else Ok (GetIntersectionElem (requested o) (offered resp)).
Proof. reflexivity. Qed.

(** C8.  If [handshake] returns a nil error, the exchange gave a
    response with status 101, a Connection header that contains Upgrade,
    an Upgrade header equal to websocket up to case and the accept key
    base64(SHA1(key + GUID)); and when subprotocols were asked for, the
    one negotiated is among them and among those of the response.  If the
    exchange gave a response that falls short of one of the four, it
    returns ErrHandshake.  If the response passes them, subprotocols were
    asked for and the response names none of them (it names none at all,
    or others only), it returns ErrSubprotocolNegotiation.  In both cases
    no connection is returned. *)
Theorem handshake_checks (h : heap ClientOption) (k : connector) :
  (forall conn resp,
     handshake E h k = Done (conn, resp, None) ->
     exists k' r rest o c,
       request E h k = Done (k', Ok (r, rest)) /\ resp = Some r /\
       validUpgrade k' r /\
       load h (k_option k') = Done o /\ conn = Some c /\
       subprotocol c = GetIntersectionElem (requested o) (offered r) /\
       (requested o <> [] ->
        subprotocol c <> "" /\ subprotocol c ∈ requested o /\ subprotocol c ∈ offered r)) /\
  (forall k' r rest,
     request E h k = Done (k', Ok (r, rest)) ->
     (~ validUpgrade k' r ->
      handshake E h k = Done (None, Some r, Some ErrHandshake)) /\
     (forall o,
        validUpgrade k' r ->
        load h (k_option k') = Done o ->
        requested o <> [] ->
        (forall x, x ∈ requested o -> x ∈ offered r -> x = "") ->
        handshake E h k = Done (None, Some r, Some ErrSubprotocolNegotiation))).
Proof.
  split.
  - intros conn resp H. unfold handshake, obind in H.
    destruct (request E h k) as [[k' [[r rest]|e]]|w] eqn:Hreq; try discriminate.
    destruct (checkHeaders_valid k' r) as [Hvalid Hcases].
    destruct (checkHeaders E k' r) as [e|] eqn:Hchk; [discriminate|].
    destruct (load h (k_option k')) as [o|w] eqn:Hload; [|discriminate].
    rewrite getSubProtocol_spec in H.
    destruct ((0 <? Z.of_nat (length (requested o)))
              && String.eqb (GetIntersectionElem (requested o) (offered r)) "") eqn:Hsub;
      [discriminate|].
    destruct (callable (co_NewSession o)) as [NewSession|w]; [|discriminate].
    injection H as <- <- Hdl.
    exists k', r, rest, o. eexists. split; [reflexivity|].
    split; [reflexivity|]. split; [now apply Hvalid|].
    split; [assumption|]. split; [reflexivity|]. cbn [subprotocol].
    split; [reflexivity|]. intros Hreq'.
    assert (Hne : GetIntersectionElem (requested o) (offered r) <> "").
    { apply andb_false_iff in Hsub as [Hsub|Hsub].
      - apply Z.ltb_ge in Hsub. destruct (requested o); [contradiction|].
        cbn [length] in Hsub. lia.
      - intros Heq. rewrite Heq in Hsub. discriminate. }
    split; [assumption|]. now apply GetIntersectionElem_some.
  - intros k' r rest Hreq. unfold handshake, obind. rewrite Hreq.
    destruct (checkHeaders_valid k' r) as [Hvalid Hcases].
    split.
    + intros Hbad. destruct Hcases as [Hnone|Herr].
      * exfalso. apply Hbad. now apply Hvalid.
      * now rewrite Herr.
    + intros o Hok Hload Hreq' Hnone.
      apply Hvalid in Hok. rewrite Hok, Hload, getSubProtocol_spec.
      rewrite (GetIntersectionElem_none _ _ Hnone).
      destruct (requested o) as [|x xs]; [contradiction|]. reflexivity.
Qed.

End ClientFacts.

(** * Option defaults *)

Lemma ToBinaryNumber_spec (n : Z) :
  1 <= n ->
  (exists k, 0 <= k /\ ToBinaryNumber n = 2 ^ k) /\
  n <= ToBinaryNumber n < 2 * n.
Proof.
  intros Hn. unfold ToBinaryNumber. split.
  - exists (Z.log2_up n). split; [apply Z.log2_up_nonneg|reflexivity].
  - destruct (Z.eq_dec n 1) as [->|Hne]; [cbn; lia|].
    destruct (Z.log2_up_spec n) as [Hlo Hhi]; [lia|].
    split; [exact Hhi|].
    assert (0 < Z.log2_up n) by (apply Z.log2_up_pos; lia).
    replace (Z.log2_up n) with (Z.succ (Z.pred (Z.log2_up n))) at 1 by lia.
    rewrite Z.pow_succ_r by lia. lia.
Qed.

(** [v'] is [v], or the default [d] when [v] was zero (or negative). *)
Definition defaulted (v d v' : Z) : Prop :=
  (v <= 0 -> v' = d) /\ (0 < v -> v' = v).

Lemma orDefault_defaulted (v d : Z) : defaulted v d (orDefault v d).
Proof.
  unfold defaulted, orDefault. destruct (Z.leb_spec v 0); split; intros; lia || reflexivity.
Qed.

(** Window bits after initialisation: in range they stay, out of range
    they become 15. *)
Definition snapped (bits bits' : Z) : Prop :=
  (8 <= bits <= 15 -> bits' = bits) /\ (bits < 8 \/ 15 < bits -> bits' = 15).

Lemma windowBits_snapped (bits : Z) : snapped bits (windowBits bits).
Proof.
  unfold snapped, windowBits.
  destruct (Z.ltb_spec bits 8), (Z.gtb_spec bits 15); cbn [orb]; split; intros; lia || reflexivity.
Qed.

(** What both initialisers do to an enabled compression block, the pool
    size apart. *)
Definition deflateDefaults (pd pd' : PermessageDeflate) : Prop :=
  Enabled pd' = true /\
  snapped (ServerMaxWindowBits pd) (ServerMaxWindowBits pd') /\
  snapped (ClientMaxWindowBits pd) (ClientMaxWindowBits pd') /\
  defaulted (Threshold pd) 512 (Threshold pd') /\
  (Level pd = 0 -> Level pd' = 1) /\ (Level pd <> 0 -> Level pd' = Level pd) /\
  ServerContextTakeover pd' = ServerContextTakeover pd /\
  ClientContextTakeover pd' = ClientContextTakeover pd.

(** C9, as the code has it.  After [initServerOption] or
    [initClientOption] has run on a record, each of ReadMaxPayloadSize,
    WriteMaxPayloadSize (16 MiB), ReadBufferSize, WriteBufferSize (4096),
    ReadAsyncGoLimit (8) and HandshakeTimeout (5 s) that was zero has its
    default and is unchanged otherwise, and the nil Logger, Recovery,
    Authorize, NewSession, NewDialer and header maps have theirs.  The
    compression block is touched only when PermessageDeflate.Enabled is
    set: then window bits outside [8,15] become 15, a zero Threshold
    becomes 512 and a zero Level best-speed, the pool size becomes the
    least power of two that is at least the configured size (32 when none
    was configured) on the server and 1 on the client.  When Enabled is
    not set the block is left exactly as it was. *)
Theorem option_defaults (canon : string -> string) (s : ServerOption) (c : ClientOption) :
  let s' := initServerOption_fields canon s in
  let c' := initClientOption_fields c in
  (defaulted (so_ReadMaxPayloadSize s) 16777216 (so_ReadMaxPayloadSize s') /\
   defaulted (so_WriteMaxPayloadSize s) 16777216 (so_WriteMaxPayloadSize s') /\
   defaulted (so_ReadBufferSize s) 4096 (so_ReadBufferSize s') /\
   defaulted (so_WriteBufferSize s) 4096 (so_WriteBufferSize s') /\
   defaulted (so_ReadAsyncGoLimit s) 8 (so_ReadAsyncGoLimit s') /\
   defaulted (so_HandshakeTimeout s) 5000000000 (so_HandshakeTimeout s') /\
   so_Logger s' = Some (default defaultLogger (so_Logger s)) /\
   so_Recovery s' = Some (default noRecovery (so_Recovery s)) /\
   (so_Authorize s = None ->
    exists f, so_Authorize s' = Some f /\ forall r sess, f r sess = true) /\
   (so_NewSession s = None ->
    exists f, so_NewSession s' = Some f /\ f tt = ∅) /\
   (so_ResponseHeader s = None -> so_ResponseHeader s' = Some ∅)) /\
  (defaulted (co_ReadMaxPayloadSize c) 16777216 (co_ReadMaxPayloadSize c') /\
   defaulted (co_WriteMaxPayloadSize c) 16777216 (co_WriteMaxPayloadSize c') /\
   defaulted (co_ReadBufferSize c) 4096 (co_ReadBufferSize c') /\
   defaulted (co_WriteBufferSize c) 4096 (co_WriteBufferSize c') /\
   defaulted (co_ReadAsyncGoLimit c) 8 (co_ReadAsyncGoLimit c') /\
   defaulted (co_HandshakeTimeout c) 5000000000 (co_HandshakeTimeout c') /\
   co_Logger c' = Some (default defaultLogger (co_Logger c)) /\
   co_Recovery c' = Some (default noRecovery (co_Recovery c)) /\
   (co_NewDialer c = None ->
    exists f, co_NewDialer c' = Some f /\ f tt = Ok (netDialer 5000000000)) /\
   (co_NewSession c = None ->
    exists f, co_NewSession c' = Some f /\ f tt = ∅) /\
   (co_RequestHeader c = None -> co_RequestHeader c' = Some ∅)) /\
  (Enabled (so_PermessageDeflate s) = true ->
   deflateDefaults (so_PermessageDeflate s) (so_PermessageDeflate s') /\
   let wanted := orDefault (PoolSize (so_PermessageDeflate s)) 32 in
   (exists k, 0 <= k /\ PoolSize (so_PermessageDeflate s') = 2 ^ k) /\
   wanted <= PoolSize (so_PermessageDeflate s') < 2 * wanted) /\
  (Enabled (co_PermessageDeflate c) = true ->
   deflateDefaults (co_PermessageDeflate c) (co_PermessageDeflate c') /\
   PoolSize (co_PermessageDeflate c') = 1) /\
  (Enabled (so_PermessageDeflate s) = false ->
   so_PermessageDeflate s' = so_PermessageDeflate s) /\
  (Enabled (co_PermessageDeflate c) = false ->
   co_PermessageDeflate c' = co_PermessageDeflate c).
Proof.
  intros s' c'. subst s' c'.
  unfold initServerOption_fields, initClientOption_fields.
  cbn [so_ReadMaxPayloadSize so_WriteMaxPayloadSize so_ReadBufferSize so_WriteBufferSize
       so_ReadAsyncGoLimit so_HandshakeTimeout so_Logger so_Recovery so_Authorize
       so_NewSession so_ResponseHeader so_PermessageDeflate
       co_ReadMaxPayloadSize co_WriteMaxPayloadSize co_ReadBufferSize co_WriteBufferSize
       co_ReadAsyncGoLimit co_HandshakeTimeout co_Logger co_Recovery co_NewDialer
       co_NewSession co_RequestHeader co_PermessageDeflate].
  split; [|split; [|split; [|split; [|split]]]].
  - repeat split; try apply orDefault_defaulted; try apply (proj1 (orDefault_defaulted _ _));
      try apply (proj2 (orDefault_defaulted _ _)).
    + destruct (so_Logger s); reflexivity.
    + destruct (so_Recovery s); reflexivity.
    + intros ->. eexists. split; [reflexivity|]. reflexivity.
    + intros ->. eexists. split; [reflexivity|]. reflexivity.
    + intros ->. reflexivity.
  - repeat split; try apply (proj1 (orDefault_defaulted _ _));
      try apply (proj2 (orDefault_defaulted _ _)).
    + destruct (co_Logger c); reflexivity.
    + destruct (co_Recovery c); reflexivity.
    + intros ->. eexists. split; reflexivity.
    + intros ->. eexists. split; reflexivity.
    + intros ->. reflexivity.
  - intros Hen. unfold initServerDeflate. rewrite Hen. cbn [PoolSize].
    split; [|split].
    + unfold deflateDefaults.
      cbn [Enabled ServerMaxWindowBits ClientMaxWindowBits Threshold Level
           ServerContextTakeover ClientContextTakeover].
      repeat split; try apply windowBits_snapped; try apply orDefault_defaulted;
        try assumption.
      * intros ->. reflexivity.
      * intros Hne. destruct (Z.eqb_spec (Level (so_PermessageDeflate s)) 0); [contradiction|reflexivity].
    + apply ToBinaryNumber_spec. unfold orDefault, defaultCompressorPoolSize.
      destruct (Z.leb_spec (PoolSize (so_PermessageDeflate s)) 0); lia.
    + apply ToBinaryNumber_spec. unfold orDefault, defaultCompressorPoolSize.
      destruct (Z.leb_spec (PoolSize (so_PermessageDeflate s)) 0); lia.
  - intros Hen. unfold initClientDeflate. rewrite Hen. cbn [PoolSize].
    split; [|reflexivity].
    unfold deflateDefaults.
    cbn [Enabled ServerMaxWindowBits ClientMaxWindowBits Threshold Level
         ServerContextTakeover ClientContextTakeover].
    repeat split; try apply windowBits_snapped; try apply orDefault_defaulted;
      try assumption.
    + intros ->. reflexivity.
    + intros Hne. destruct (Z.eqb_spec (Level (co_PermessageDeflate c)) 0); [contradiction|reflexivity].
  - intros Hen. unfold initServerDeflate. now rewrite Hen.
  - intros Hen. unfold initClientDeflate. now rewrite Hen.
Qed.

(** * A nil option *)

(** A pointer a caller can hold: nil, or the address of a record. *)
Definition validPointer {A : Type} (h : heap A) (p : option nat) : Prop :=
  match p with
  | None => True
  | Some l => is_Some (h !! l)
  end.

Lemma new_fresh {A : Type} (zero : A) (h : heap A) :
  h !! (new zero h).2 = None /\ (new zero h).1 = <[(new zero h).2 := zero]> h.
Proof.
  unfold new. cbn [fst snd]. split; [|reflexivity].
  apply not_elem_of_dom. apply is_fresh.
Qed.

Lemma initClientOption_total (h : heap ClientOption) (p : option nat) :
  validPointer h p ->
  exists h0 l o,
    initClientOption h p = Done (<[l := initClientOption_fields o]> h0, Some l) /\
    h0 !! l = Some o.
Proof.
  intros Hp. unfold initClientOption. destruct p as [l|].
  - destruct Hp as [o Ho]. exists h, l, o. unfold load, obind. rewrite Ho. auto.
  - exists (<[fresh (dom h) := zeroClientOption]> h), (fresh (dom h)), zeroClientOption.
    unfold new, load, obind. rewrite lookup_insert_eq. auto.
Qed.

Section NilOption.

Variable E : Env.

Lemma request_total (h : heap ClientOption) (k : connector) (l : nat) (o : ClientOption) :
  k_option k = Some l -> h !! l = Some o ->
  exists k' r, request E h k = Done (k', r) /\ k_option k' = Some l.
Proof.
  intros Hk Ho. unfold request, load, obind. rewrite Hk, Ho.
  destruct (env_http_NewRequest E (co_Addr o)); [eauto|].
  destruct (String.eqb (k_secWebsocketKey k) ""); eauto.
Qed.

Lemma handshake_total (h : heap ClientOption) (k : connector) (l : nat) (o : ClientOption) :
  k_option k = Some l -> h !! l = Some o -> is_Some (co_NewSession o) ->
  exists r, handshake E h k = Done r.
Proof.
  intros Hk Ho [f Hf]. unfold handshake, obind.
  destruct (request_total h k l o Hk Ho) as (k' & r & -> & Hk').
  destruct r as [[resp rest]|e]; [|eauto].
  destruct (checkHeaders E k' resp); [eauto|].
  unfold load. rewrite Hk', Ho.
  destruct (getSubProtocol E o resp); [|eauto].
  rewrite Hf. cbn [callable]. eauto.
Qed.

Lemma NewClientFromConn_total (h : heap ClientOption) (p : option nat) (conn : netConn) :
  validPointer h p -> exists r, NewClientFromConn E h p conn = Done r.
Proof.
  intros Hp. unfold NewClientFromConn.
  destruct (initClientOption_total h p Hp) as (h0 & l & o & -> & _). cbn [obind].
  edestruct (handshake_total (<[l:=initClientOption_fields o]> h0)
               {| k_option := Some l; k_conn := conn; k_secWebsocketKey := "" |} l)
    as [r ->]; [reflexivity|apply lookup_insert_eq| |eauto].
  cbn [initClientOption_fields co_NewSession]. destruct (co_NewSession o); cbn; eauto.
Qed.

Lemma NewClient_total (h : heap ClientOption) (p : option nat) :
  validPointer h p -> exists r, NewClient E h p = Done r.
Proof.
  intros Hp. unfold NewClient.
  destruct (initClientOption_total h p Hp) as (h0 & l & o & -> & _). cbn [obind].
  set (h1 := <[l:=initClientOption_fields o]> h0).
  unfold load. cbv beta iota. subst h1. rewrite lookup_insert_eq.
  set (h1 := <[l:=initClientOption_fields o]> h0). cbn [obind].
  set (o1 := initClientOption_fields o).
  destruct (env_url_Parse E (co_Addr o1)) as [u|e]; [|eauto].
  destruct (negb (String.eqb (Scheme u) "ws") && negb (String.eqb (Scheme u) "wss")); [eauto|].
  assert (Hd : is_Some (co_NewDialer o1))
    by (subst o1; cbn; destruct (co_NewDialer o); cbn; eauto).
  assert (Hs : is_Some (co_NewSession o1))
    by (subst o1; cbn; destruct (co_NewSession o); cbn; eauto).
  destruct Hd as [nd ->]. cbn [callable obind].
  destruct (nd tt) as [dialer|e]; [|eauto].
  destruct (env_Dial E dialer "tcp" _) as [conn|e]; [|eauto].
  destruct (String.eqb (Scheme u) "wss").
  - edestruct (handshake_total) as [r ->];
      [ | apply lookup_insert_eq | | cbn [obind]; eauto ]; [reflexivity|exact Hs].
  - edestruct (handshake_total h1) as [r ->];
      [ | subst h1; apply lookup_insert_eq | | cbn [obind]; eauto ]; [reflexivity|exact Hs].
Qed.

(** C10, as the code has it.  Called with nil, [initServerOption] and
    [initClientOption] return, without a fault, the address of a new
    record -- one no caller held -- that holds the zero record
    initialised: its sizes, its limit and its timeout are the defaults,
    its nil functions and maps are replaced, and its compression block,
    not enabled, is not defaulted: it is the zero block.  [NewClient] and
    [NewClientFromConn] pass their option through [initClientOption]
    first: with nil they do what they do with the address of a new zero
    record, and with nil, as with any address a caller can hold, they do
    not fault. *)
Theorem nil_option_safe (canon : string -> string)
    (hs : heap ServerOption) (hc : heap ClientOption) (conn : netConn) :
  (exists l,
     hs !! l = None /\
     initServerOption canon hs None =
       Done (<[l := initServerOption_fields canon zeroServerOption]> hs, Some l)) /\
  (exists l,
     hc !! l = None /\
     initClientOption hc None =
       Done (<[l := initClientOption_fields zeroClientOption]> hc, Some l) /\
     NewClient E hc None = NewClient E (<[l := zeroClientOption]> hc) (Some l) /\
     NewClientFromConn E hc None conn =
       NewClientFromConn E (<[l := zeroClientOption]> hc) (Some l) conn) /\
  (let s := initServerOption_fields canon zeroServerOption in
   let c := initClientOption_fields zeroClientOption in
   (so_ReadMaxPayloadSize s, so_WriteMaxPayloadSize s, so_ReadBufferSize s,
    so_WriteBufferSize s, so_ReadAsyncGoLimit s, so_HandshakeTimeout s)
     = (16777216, 16777216, 4096, 4096, 8, 5000000000) /\
   (co_ReadMaxPayloadSize c, co_WriteMaxPayloadSize c, co_ReadBufferSize c,
    co_WriteBufferSize c, co_ReadAsyncGoLimit c, co_HandshakeTimeout c)
     = (16777216, 16777216, 4096, 4096, 8, 5000000000) /\
   (so_Logger s, so_Recovery s, so_ResponseHeader s, so_PermessageDeflate s)
     = (Some defaultLogger, Some noRecovery, Some ∅, zeroPermessageDeflate) /\
   (co_Logger c, co_Recovery c, co_RequestHeader c, co_PermessageDeflate c)
     = (Some defaultLogger, Some noRecovery, Some ∅, zeroPermessageDeflate) /\
   is_Some (so_Authorize s) /\ is_Some (so_NewSession s) /\
   is_Some (co_NewDialer c) /\ is_Some (co_NewSession c)) /\
  (exists r, NewClient E hc None = Done r) /\
  (exists r, NewClientFromConn E hc None conn = Done r) /\
  (forall p, validPointer hc p ->
     (exists r, NewClient E hc p = Done r) /\
     (exists r, NewClientFromConn E hc p conn = Done r)).
Proof.
  split; [|split; [|split; [|split; [|split]]]].
  - destruct (new_fresh zeroServerOption hs) as [Hfresh Hnew].
    exists (new zeroServerOption hs).2. split; [assumption|].
    unfold initServerOption, new in *. cbn [fst snd] in *.
    unfold load, obind. rewrite lookup_insert_eq. now rewrite insert_insert_eq.
  - destruct (new_fresh zeroClientOption hc) as [Hfresh Hnew].
    exists (new zeroClientOption hc).2. split; [assumption|].
    unfold new in *. cbn [fst snd] in *.
    assert (Hinit : initClientOption hc None =
              Done (<[fresh (dom hc) := initClientOption_fields zeroClientOption]> hc,
                    Some (fresh (dom hc)))).
    { unfold initClientOption, new. unfold load, obind.
      rewrite lookup_insert_eq. now rewrite insert_insert_eq. }
    assert (Hinit' : initClientOption (<[fresh (dom hc) := zeroClientOption]> hc)
                       (Some (fresh (dom hc))) =
              Done (<[fresh (dom hc) := initClientOption_fields zeroClientOption]> hc,
                    Some (fresh (dom hc)))).
    { unfold initClientOption. unfold load, obind.
      rewrite lookup_insert_eq. now rewrite insert_insert_eq. }
    split; [exact Hinit|]. unfold NewClient, NewClientFromConn.
    rewrite Hinit, Hinit'. split; reflexivity.
  - cbv zeta. repeat split; cbn; eauto.
  - apply NewClient_total. exact I.
  - apply NewClientFromConn_total. exact I.
  - intros p Hp. split; [now apply NewClient_total|now apply NewClientFromConn_total].
Qed.

End NilOption.

(** * Concrete connections and collaborators *)

Definition lowerAscii (a : Ascii.ascii) : Ascii.ascii :=
  let n := Ascii.nat_of_ascii a in
  if (65 <=? n)%nat && (n <=? 90)%nat then Ascii.ascii_of_nat (n + 32) else a.

Fixpoint lowerString (s : string) : string :=
  match s with
  | EmptyString => EmptyString
  | String a s' => String (lowerAscii a) (lowerString s')
  end.

(** Equality up to the case of ASCII letters. *)
Definition asciiEqualFold (a b : string) : bool :=
  String.eqb (lowerString a) (lowerString b).

(** [b] occurs in [a], up to the case of ASCII letters. *)
Definition asciiContains (a b : string) : bool :=
  match String.index 0 (lowerString b) (lowerString a) with
  | Some _ => true
  | None => false
  end.

(** The items of a comma-separated list, blanks and empty items dropped. *)
Fixpoint commaItems (s acc : string) : list string :=
  match s with
  | EmptyString => if String.eqb acc "" then [] else [acc]
  | String a s' =>
      if Ascii.eqb a (Ascii.ascii_of_nat 44)
      then (if String.eqb acc "" then [] else [acc]) ++ commaItems s' ""
      else if Ascii.eqb a (Ascii.ascii_of_nat 32) then commaItems s' acc
      else commaItems s' (acc ++ String a EmptyString)
  end.

Definition bytesOf (s : string) : list byte := String.list_byte_of_string s.

(** The key and the accept value of the example in RFC 6455, section 1.3. *)
Definition rfcNonce : list byte := bytesOf "the sample nonce".
Definition rfcKey : string := "dGhlIHNhbXBsZSBub25jZQ==".
Definition rfcDigest : list byte :=
  [xb3; x7a; x4f; x2c; xc0; x62; x4f; x16; x90; xf6;
   x46; x06; xcf; x38; x59; x45; xb2; xbe; xc4; xea].
Definition rfcAccept : string := "s3pPLMBiTxaQ9kYGzzhZRbK+xOo=".

(** SHA-1 and base64 on the values of that example, and nothing else. *)
Definition rfcSha1 (s : string) : list byte :=
  if String.eqb s (rfcKey ++ WebSocketGUID) then rfcDigest else [].

Definition rfcBase64 (bs : list byte) : string :=
  let s := String.string_of_list_byte bs in
  if String.eqb s (String.string_of_list_byte rfcNonce) then rfcKey
  else if String.eqb s (String.string_of_list_byte rfcDigest) then rfcAccept
  else "".

(** A network on which every dial succeeds and the server's reply to the
    upgrade request is [reply]. *)
Definition sampleEnv (reply : result (Response * list byte)) : Env :=
  {| env_CanonicalMIMEHeaderKey := fun key => key;
     env_EqualFold := asciiEqualFold;
     env_sha1 := rfcSha1;
     env_base64 := rfcBase64;
     env_url_Parse := fun s =>
       if String.eqb s "ws://example.com/chat"
       then Ok {| Scheme := "ws"; Hostname := "example.com" |}
       else Ok {| Scheme := ""; Hostname := "" |};
     env_http_NewRequest := fun _ => None;
     env_HttpHeaderContains := asciiContains;
     env_Split := fun s _ => commaItems s "";
     env_GetAddrFromURL := fun u tls => (Hostname u ++ (if tls then ":443" else ":80"))%string;
     env_Dial := fun _ _ addr => Ok (tcpConn addr);
     env_roundTrip := fun _ _ => reply;
     env_keyBytes := rfcNonce;
     env_clearDeadline := None |}.

(** The server's 101 response, with more headers and a status if wanted. *)
Definition upgradeResponse (status : Z) (more : list (string * list string)) : Response :=
  {| StatusCode := status;
     resp_Header := list_to_map
       ([("Connection", ["Upgrade"]); ("Upgrade", ["WebSocket"]);
         ("Sec-WebSocket-Accept", [rfcAccept])] ++ more) |}.

(** A connection on which nothing was read yet, with the configuration
    of the default options. *)
Definition freshConn (server : bool) (maxPayload : Z) (input : list byte) : Conn :=
  {| ss := ∅; isServer := server; subprotocol := "";
     config :=
       ClientOption_getConfig
         (initClientOption_fields
            {| co_WriteBufferSize := 0; co_PermessageDeflate := zeroPermessageDeflate;
               co_ReadAsyncEnabled := false; co_ReadAsyncGoLimit := 0;
               co_ReadMaxPayloadSize := maxPayload; co_ReadBufferSize := 0;
               co_WriteMaxPayloadSize := 0; co_CheckUtf8Enabled := true;
               co_Logger := None; co_Recovery := None; co_Addr := "";
               co_RequestHeader := None; co_HandshakeTimeout := 0;
               co_TlsConfig := None; co_NewDialer := None; co_NewSession := None |});
     br := input;
     cont := {| initialized := false; cf_opcode := 0; cf_buffer := [] |};
     fh := {| fh_b0 := x00; fh_b1 := x00; fh_maskKey := [] |};
     events := [] |}.

Definition noCloseError : list byte -> option error := fun _ => None.

Definition sampleKey : option (list byte) := Some [x37; xfa; x21; x3d].

(** * The theorems at concrete inputs *)

(** A server reads the text "Hello!" sent masked in three fragments and
    followed by a Ping. *)
Definition helloInThree : Conn :=
  freshConn true 0
    (fragmentedMessage OpcodeText (sampleKey, bytesOf "Hel")
       [(sampleKey, bytesOf "lo")] (sampleKey, bytesOf "!")
     ++ genFrame true false OpcodePing sampleKey []).

(** A client is sent a Continuation frame with no message under way. *)
Definition orphanContinuation : Conn :=
  freshConn false 0 (genFrame true false OpcodeContinuation None (bytesOf "x")).

Lemma dataArrived_intro (c : Conn) (n : Z) :
  Parse c = (Ok n, (Parse c).2) ->
  (0 <=? n) && (n <=? cfg_ReadMaxPayloadSize (config (Parse c).2)) = true ->
  GetRSV1 (fh (Parse c).2) || GetRSV2 (fh (Parse c).2) || GetRSV3 (fh (Parse c).2) = false ->
  Bool.eqb (GetMask (fh (Parse c).2)) (isServer (Parse c).2) = true ->
  isDataFrame (GetOpcode (fh (Parse c).2)) = true ->
  (n <=? Z.of_nat (length (br (Parse c).2))) = true ->
  dataArrived c (Parse c).2 n.
Proof.
  intros HP Hn Hrsv Hmask Hdata Hthere.
  apply andb_true_iff in Hn as [H0 H1]. apply Z.leb_le in H0, H1, Hthere.
  apply Bool.eqb_prop in Hmask.
  repeat split; assumption.
Qed.

Lemma fragments_reassemble_witness :
  (exists c',
     readFrames noCloseError 3 helloInThree =
       ([Ok None; Ok None;
         Ok (Some {| msg_Opcode := OpcodeText; msg_Data := bytesOf "Hello!" |})], c') /\
     ReadMessage noCloseError 3 helloInThree =
       Some (Ok {| msg_Opcode := OpcodeText; msg_Data := bytesOf "Hello!" |}, c') /\
     br c' = genFrame true false OpcodePing sampleKey [] /\
     initialized (cont c') = false /\ events c' = []) /\
  (readFrame noCloseError orphanContinuation).1 = Err (EStatus CloseProtocolError).
Proof.
  split.
  - apply (proj1 (fragments_reassemble noCloseError helloInThree)
             OpcodeText (sampleKey, bytesOf "Hel") [(sampleKey, bytesOf "lo")]
             (sampleKey, bytesOf "!") (genFrame true false OpcodePing sampleKey [])).
    + left. reflexivity.
    + reflexivity.
    + repeat constructor.
    + vm_compute. discriminate.
    + vm_compute. reflexivity.
    + reflexivity.
  - apply (proj2 (fragments_reassemble noCloseError orphanContinuation)
             (Parse orphanContinuation).2 1).
    + apply dataArrived_intro; vm_compute; reflexivity.
    + right. split; vm_compute; reflexivity.
Defined.

(** A client with ReadMaxPayloadSize 4 is sent "ab" with FIN clear, then
    a continuation "cde": five bytes in all. *)
Definition fiveIntoFour : Conn :=
  freshConn false 4
    (genFrame false false OpcodeText None (bytesOf "ab")
     ++ genFrame true false OpcodeContinuation None (bytesOf "cde")).

(** The same client is sent a frame that declares 126 bytes. *)
Definition declaresTooMuch : Conn :=
  freshConn false 4 [x82; x7e; x00; x7e].

(** The connection [ReadMessage] leaves, if it returns. *)
Definition ReadMessage_sample_state (c : Conn) : Conn :=
  match ReadMessage noCloseError 3 c with
  | Some (_, c') => c'
  | None => c
  end.

Lemma completed_message_bounds_witness :
  (Z.of_nat (length (bytesOf "Hello!")) <= 16777216 /\
   (OpcodeText = OpcodeText \/ OpcodeText = OpcodeBinary) /\
   OpcodeText <> OpcodeContinuation) /\
  readFrame noCloseError declaresTooMuch
    = (Err (EStatus CloseMessageTooLarge), (Parse declaresTooMuch).2) /\
  (readFrame noCloseError (readFrame noCloseError fiveIntoFour).2).1
    = Err (EStatus CloseMessageTooLarge).
Proof.
  split; [|split].
  - apply (proj1 (proj1 (completed_message_bounds noCloseError helloInThree)
                    (reach_fresh noCloseError helloInThree eq_refl))
             3%nat {| msg_Opcode := OpcodeText; msg_Data := bytesOf "Hello!" |}
             (ReadMessage_sample_state helloInThree)).
    vm_compute. reflexivity.
  - apply (proj1 (proj2 (completed_message_bounds noCloseError declaresTooMuch)) 126).
    + vm_compute. reflexivity.
    + vm_compute. reflexivity.
  - apply (proj2 (proj2 (completed_message_bounds noCloseError
                           (readFrame noCloseError fiveIntoFour).2))
             3 (Parse (readFrame noCloseError fiveIntoFour).2).2).
    + apply dataArrived_intro; vm_compute; reflexivity.
    + vm_compute. reflexivity.
    + vm_compute. reflexivity.
    + vm_compute. reflexivity.
Defined.

(** A client with the default ReadMaxPayloadSize of 16 MiB is sent the
    ten bytes of an unmasked Binary frame with FIN set that declares 2^63
    bytes; and the same header with the opcode of a Ping. *)
Definition declaresTwoTo63 : Conn :=
  freshConn false 0 [x82; x7f; x80; x00; x00; x00; x00; x00; x00; x00].

Definition pingTwoTo63 : Conn :=
  freshConn false 0 [x89; x7f; x80; x00; x00; x00; x00; x00; x00; x00].

(** C2, where the code fails it.  The frame declares 2^63 bytes, far
    beyond ReadMaxPayloadSize, and the claim has [readFrame] fail with
    CloseMessageTooLarge.  The reader holds the length in an [int]: it is
    -2^63 there, not greater than ReadMaxPayloadSize, the test on the
    length passes, and the slice expression that bounds the buffer
    panics.  With the opcode of a Ping the same length reaches
    [readControl], which answers CloseProtocolError. *)
Theorem declared_length_wraps :
  be_uint [x80; x00; x00; x00; x00; x00; x00; x00] = 2 ^ 63 /\
  cfg_ReadMaxPayloadSize (config declaresTwoTo63) = 16777216 /\
  (Parse declaresTwoTo63).1 = Ok (- 2 ^ 63) /\
  (readFrame noCloseError declaresTwoTo63).1 = Err (EPanic "slice bounds out of range") /\
  (readFrame noCloseError pingTwoTo63).1 = Err (EStatus CloseProtocolError) /\
  (readFrame noCloseError declaresTwoTo63).1 <> Err (EStatus CloseMessageTooLarge) /\
  (readFrame noCloseError pingTwoTo63).1 <> Err (EStatus CloseMessageTooLarge).
Proof. vm_compute. repeat split; try reflexivity; discriminate. Qed.

(** A server is sent a Text frame with FIN clear and then, instead of a
    continuation, another Text frame. *)
Definition interleavedText : Conn :=
  freshConn true 0
    (genFrame false false OpcodeText sampleKey (bytesOf "a")
     ++ genFrame true false OpcodeText sampleKey (bytesOf "b")).

(** C3 fails as stated: the second frame is refused with
    CloseProtocolError, and the continuation the first frame opened is
    still open after that error -- the state was not reset. *)
Lemma continuation_survives_protocol_error :
  (readFrames noCloseError 2 interleavedText).1
    = [Ok None; Err (EStatus CloseProtocolError)] /\
  initialized (cont (readFrames noCloseError 2 interleavedText).2) = true.
Proof. vm_compute. split; reflexivity. Qed.

Lemma continuation_state_witness :
  contInv (readFrame noCloseError interleavedText).2 /\
  (initialized (cont (readFrames noCloseError 2 interleavedText).2)
     = initialized (cont (readFrame noCloseError interleavedText).2) /\
   cf_opcode (cont (readFrames noCloseError 2 interleavedText).2)
     = cf_opcode (cont (readFrame noCloseError interleavedText).2)) /\
  initialized (cont (ReadMessage_sample_state helloInThree)) = false.
Proof.
  split; [|split].
  - apply (proj1 (continuation_state noCloseError (readFrame noCloseError interleavedText).2)).
    apply reach_frame. apply reach_fresh. reflexivity.
  - apply (proj2 (proj2 (proj2 (continuation_state noCloseError
                                  (readFrame noCloseError interleavedText).2)
                           (Err (EStatus CloseProtocolError))
                           (readFrames noCloseError 2 interleavedText).2
                           ltac:(vm_compute; reflexivity)))
             (EStatus CloseProtocolError) eq_refl).
  - apply (proj1 (proj2 (proj2 (continuation_state noCloseError
                                  (readFrames noCloseError 2 helloInThree).2)
                           (Ok (Some {| msg_Opcode := OpcodeText;
                                        msg_Data := bytesOf "Hello!" |}))
                           (ReadMessage_sample_state helloInThree)
                           ltac:(vm_compute; reflexivity)))
             {| msg_Opcode := OpcodeText; msg_Data := bytesOf "Hello!" |} eq_refl).
Defined.

(** The options of a client that enables compression and offers
    permessage-deflate in its request, and the reply of a server that
    grants it and goes on with a compressed Text frame: FIN and RSV1
    set. *)
Definition deflateOptions : heap ClientOption :=
  {[ 1%nat :=
       {| co_WriteBufferSize := 0;
          co_PermessageDeflate :=
            {| Enabled := true; Level := 0; Threshold := 0; PoolSize := 0;
               ServerContextTakeover := true; ClientContextTakeover := true;
               ServerMaxWindowBits := 0; ClientMaxWindowBits := 0 |};
          co_ReadAsyncEnabled := false; co_ReadAsyncGoLimit := 0;
          co_ReadMaxPayloadSize := 0; co_ReadBufferSize := 0;
          co_WriteMaxPayloadSize := 0; co_CheckUtf8Enabled := false;
          co_Logger := None; co_Recovery := None; co_Addr := "ws://example.com/chat";
          co_RequestHeader :=
            Some {[ "Sec-WebSocket-Extensions" := ["permessage-deflate"] ]};
          co_HandshakeTimeout := 0; co_TlsConfig := None;
          co_NewDialer := None; co_NewSession := None |} ]}.

Definition deflateReply : result (Response * list byte) :=
  Ok (upgradeResponse 101 [("Sec-WebSocket-Extensions", ["permessage-deflate"])],
      genFrame true true OpcodeText None [xf2; x48; xcd; xc9; xc9; x07; x00]).

(** A network whose server grants permessage-deflate to a request that
    offers it, and refuses any other request. *)
Definition deflateEnv : Env :=
  let E := sampleEnv deflateReply in
  {| env_CanonicalMIMEHeaderKey := env_CanonicalMIMEHeaderKey E;
     env_EqualFold := env_EqualFold E;
     env_sha1 := env_sha1 E;
     env_base64 := env_base64 E;
     env_url_Parse := env_url_Parse E;
     env_http_NewRequest := env_http_NewRequest E;
     env_HttpHeaderContains := env_HttpHeaderContains E;
     env_Split := env_Split E;
     env_GetAddrFromURL := env_GetAddrFromURL E;
     env_Dial := env_Dial E;
     env_roundTrip := fun _ hdr =>
       if asciiContains (Header_Get (fun key => key) hdr "Sec-WebSocket-Extensions")
            "permessage-deflate"
       then deflateReply
       else Err (EOther "no extension offered");
     env_keyBytes := env_keyBytes E;
     env_clearDeadline := env_clearDeadline E |}.

(** A client with the default ReadMaxPayloadSize of 16 MiB, with which no
    extension was agreed, is sent the header of a Binary frame with FIN
    and RSV1 set that declares 2^24 + 1 bytes. *)
Definition oversizeRsv1 : Conn :=
  freshConn false 0 [xc2; x7f; x00; x00; x00; x00; x01; x00; x00; x01].

(** C4 fails as stated, twice.  The client enabled compression and
    offered permessage-deflate, the server -- which refuses a request
    without the offer -- granted it, the handshake succeeded, and the
    first frame of the compressed message, with RSV1 set, is refused with
    CloseProtocolError all the same; nothing is inflated or delivered.
    And a frame with RSV1 set, no extension being agreed, that declares
    more than ReadMaxPayloadSize is refused with CloseMessageTooLarge and
    not with CloseProtocolError. *)
Lemma reserved_bits_not_as_claimed :
  env_roundTrip deflateEnv (tcpConn "example.com:80") ∅
    = Err (EOther "no extension offered") /\
  match NewClient deflateEnv deflateOptions (Some 1%nat) with
  | Done (h, (Some c, Some resp, None)) =>
      (Enabled ∘ co_PermessageDeflate <$> h !! 1%nat) = Some true /\
      (co_RequestHeader <$> h !! 1%nat)
        = Some (Some {[ "Sec-WebSocket-Extensions" := ["permessage-deflate"] ]}) /\
      StatusCode resp = 101 /\
      Header_Get (fun key => key) (resp_Header resp) "Sec-WebSocket-Extensions"
        = "permessage-deflate" /\
      GetRSV1 (fh (Parse c).2) = true /\
      (readFrame noCloseError c).1 = Err (EStatus CloseProtocolError) /\
      events (readFrame noCloseError c).2 = []
  | _ => False
  end /\
  GetRSV1 (fh (Parse oversizeRsv1).2) = true /\
  (Parse oversizeRsv1).1 = Ok 16777217 /\
  cfg_ReadMaxPayloadSize (config oversizeRsv1) = 16777216 /\
  (readFrame noCloseError oversizeRsv1).1 = Err (EStatus CloseMessageTooLarge) /\
  (readFrame noCloseError oversizeRsv1).1 <> Err (EStatus CloseProtocolError).
Proof. vm_compute. repeat split; try reflexivity; discriminate. Qed.

(** A server is sent a frame with RSV2 set. *)
Definition rsv2Frame : Conn := freshConn true 0 [xa1; x80; x00; x00; x00; x00].

Lemma reserved_bits_rejected_witness :
  readFrame noCloseError rsv2Frame
    = (Err (EStatus CloseProtocolError), (Parse rsv2Frame).2) /\
  readFrame noCloseError oversizeRsv1
    = (Err (EStatus CloseMessageTooLarge), (Parse oversizeRsv1).2).
Proof.
  split.
  - apply (proj1 (reserved_bits_rejected noCloseError rsv2Frame (Parse rsv2Frame).2 0
                    ltac:(vm_compute; reflexivity)
                    ltac:(right; left; vm_compute; reflexivity))).
    vm_compute. discriminate.
  - apply (proj1 (proj2 (reserved_bits_rejected noCloseError oversizeRsv1
                           (Parse oversizeRsv1).2 16777217
                           ltac:(vm_compute; reflexivity)
                           ltac:(left; vm_compute; reflexivity)))).
    vm_compute. reflexivity.
Defined.

(** A Ping with FIN clear; and a frame with the reserved opcode 3. *)
Definition fragmentedPing : Conn :=
  set_fh {| fh_b0 := x09; fh_b1 := x00; fh_maskKey := [] |} (freshConn false 0 []).

Definition reservedOpcode : Conn :=
  set_fh {| fh_b0 := x83; fh_b1 := x01; fh_maskKey := [] |} (freshConn false 0 [x00]).

(** A client is sent a frame with the reserved opcode 11 and one byte. *)
Definition reservedOpcodeFrame : Conn := freshConn false 0 [x8b; x01; x00].

Lemma readControl_rejects_witness :
  readControl noCloseError fragmentedPing
    = (Err (EStatus CloseProtocolError), fragmentedPing) /\
  (exists e c', readControl noCloseError reservedOpcode = (Err e, c') /\
                closeCode e = Some CloseProtocolError) /\
  (exists e c', readFrame noCloseError reservedOpcodeFrame = (Err e, c') /\
                closeCode e = Some CloseProtocolError).
Proof.
  split; [|split].
  - apply (proj1 (readControl_rejects noCloseError fragmentedPing)).
    left. vm_compute. reflexivity.
  - apply (proj1 (proj2 (readControl_rejects noCloseError reservedOpcode))).
    + unfold knownOpcode. vm_compute. intros H.
      repeat (destruct H as [H|H]; [discriminate H|]). discriminate H.
    + vm_compute. discriminate.
  - apply (proj2 (proj2 (readControl_rejects noCloseError (Parse reservedOpcodeFrame).2))
             reservedOpcodeFrame 1).
    + repeat split; vm_compute; reflexivity || discriminate.
    + right. split.
      * unfold knownOpcode. vm_compute. intros H.
        repeat (destruct H as [H|H]; [discriminate H|]). discriminate H.
      * vm_compute. discriminate.
Defined.

(** A client that asks for the subprotocols chat.v2 and chat.v1. *)
Definition chatOptions : heap ClientOption :=
  {[ 1%nat :=
       initClientOption_fields
         {| co_WriteBufferSize := 0; co_PermessageDeflate := zeroPermessageDeflate;
            co_ReadAsyncEnabled := false; co_ReadAsyncGoLimit := 0;
            co_ReadMaxPayloadSize := 0; co_ReadBufferSize := 0;
            co_WriteMaxPayloadSize := 0; co_CheckUtf8Enabled := false;
            co_Logger := None; co_Recovery := None; co_Addr := "ws://example.com/chat";
            co_RequestHeader :=
              Some {[ "Sec-WebSocket-Protocol" := ["chat.v2, chat.v1"] ]};
            co_HandshakeTimeout := 0; co_TlsConfig := None;
            co_NewDialer := None; co_NewSession := None |} ]}.

Definition chatConnector : connector :=
  {| k_option := Some 1%nat; k_conn := userConn 0; k_secWebsocketKey := "" |}.

Definition keyedConnector : connector :=
  {| k_option := Some 1%nat; k_conn := userConn 0; k_secWebsocketKey := rfcKey |}.

(** The reply that names chat.v1, and the connection the handshake
    returns on it. *)
Definition chatReply : result (Response * list byte) :=
  Ok (upgradeResponse 101 [("Sec-WebSocket-Protocol", ["chat.v1"])], []).

Definition chatConn : option Conn :=
  match handshake (sampleEnv chatReply) chatOptions chatConnector with
  | Done (c, _, _) => c
  | Panic _ => None
  end.

Lemma handshake_checks_witness :
  (exists k' r rest o c,
     request (sampleEnv chatReply) chatOptions chatConnector = Done (k', Ok (r, rest)) /\
     Some (upgradeResponse 101 [("Sec-WebSocket-Protocol", ["chat.v1"])]) = Some r /\
     validUpgrade (sampleEnv chatReply) k' r /\
     load chatOptions (k_option k') = Done o /\ chatConn = Some c /\
     subprotocol c = GetIntersectionElem (requested (sampleEnv chatReply) o)
                       (offered (sampleEnv chatReply) r) /\
     (requested (sampleEnv chatReply) o <> [] ->
      subprotocol c <> "" /\ subprotocol c ∈ requested (sampleEnv chatReply) o /\
      subprotocol c ∈ offered (sampleEnv chatReply) r)) /\
  handshake (sampleEnv (Ok (upgradeResponse 200 [], []))) chatOptions chatConnector
    = Done (None, Some (upgradeResponse 200 []), Some ErrHandshake) /\
  handshake (sampleEnv (Ok (upgradeResponse 101 [], []))) chatOptions chatConnector
    = Done (None, Some (upgradeResponse 101 []), Some ErrSubprotocolNegotiation) /\
  handshake (sampleEnv (Ok (upgradeResponse 101 [("Sec-WebSocket-Protocol", ["mqtt"])], [])))
    chatOptions chatConnector
    = Done (None, Some (upgradeResponse 101 [("Sec-WebSocket-Protocol", ["mqtt"])]),
            Some ErrSubprotocolNegotiation).
Proof.
  split; [|split; [|split]].
  - apply (proj1 (handshake_checks (sampleEnv chatReply) chatOptions chatConnector)
             chatConn (Some (upgradeResponse 101 [("Sec-WebSocket-Protocol", ["chat.v1"])]))).
    vm_compute. reflexivity.
  - apply (proj1 (proj2 (handshake_checks (sampleEnv (Ok (upgradeResponse 200 [], [])))
                           chatOptions chatConnector)
                    keyedConnector (upgradeResponse 200 []) []
                    ltac:(vm_compute; reflexivity))).
    intros (Hstatus & _). vm_compute in Hstatus. discriminate Hstatus.
  - apply (proj2 (proj2 (handshake_checks (sampleEnv (Ok (upgradeResponse 101 [], [])))
                           chatOptions chatConnector)
                    keyedConnector (upgradeResponse 101 []) []
                    ltac:(vm_compute; reflexivity))
             (default zeroClientOption (chatOptions !! 1%nat))).
    + repeat split; vm_compute; reflexivity.
    + vm_compute. reflexivity.
    + vm_compute. discriminate.
    + intros x _ Hx. vm_compute in Hx. apply elem_of_nil in Hx. contradiction.
  - apply (proj2 (proj2 (handshake_checks
                           (sampleEnv (Ok (upgradeResponse 101
                                             [("Sec-WebSocket-Protocol", ["mqtt"])], [])))
                           chatOptions chatConnector)
                    keyedConnector
                    (upgradeResponse 101 [("Sec-WebSocket-Protocol", ["mqtt"])]) []
                    ltac:(vm_compute; reflexivity))
             (default zeroClientOption (chatOptions !! 1%nat))).
    + repeat split; vm_compute; reflexivity.
    + vm_compute. reflexivity.
    + vm_compute. discriminate.
    + intros x Ha Hx. vm_compute in Ha, Hx.
      apply list_elem_of_singleton in Hx. subst x.
      repeat (apply elem_of_cons in Ha as [Ha|Ha]; [discriminate Ha|]).
      apply elem_of_nil in Ha. contradiction.
Defined.

Example chat_negotiated : subprotocol <$> chatConn = Some "chat.v1".
Proof. vm_compute. reflexivity. Qed.

(** A server option with compression switched off, window bits 20 and 3,
    and no threshold or pool size. *)
Definition disabledDeflate : ServerOption :=
  {| so_config := None; so_WriteBufferSize := 0;
     so_PermessageDeflate :=
       {| Enabled := false; Level := 0; Threshold := 0; PoolSize := 0;
          ServerContextTakeover := false; ClientContextTakeover := false;
          ServerMaxWindowBits := 20; ClientMaxWindowBits := 3 |};
     so_ReadAsyncEnabled := false; so_ReadAsyncGoLimit := 0;
     so_ReadMaxPayloadSize := 0; so_ReadBufferSize := 0;
     so_WriteMaxPayloadSize := 0; so_CheckUtf8Enabled := false;
     so_Logger := None; so_Recovery := None; so_TlsConfig := None;
     so_HandshakeTimeout := 0; so_SubProtocols := [];
     so_ResponseHeader := None; so_Authorize := None; so_NewSession := None |}.

(** The same, with compression switched on and a pool size of 20. *)
Definition enabledDeflate : ServerOption :=
  {| so_config := None; so_WriteBufferSize := 0;
     so_PermessageDeflate :=
       {| Enabled := true; Level := 0; Threshold := 0; PoolSize := 20;
          ServerContextTakeover := false; ClientContextTakeover := false;
          ServerMaxWindowBits := 20; ClientMaxWindowBits := 3 |};
     so_ReadAsyncEnabled := false; so_ReadAsyncGoLimit := 0;
     so_ReadMaxPayloadSize := 0; so_ReadBufferSize := 0;
     so_WriteMaxPayloadSize := 0; so_CheckUtf8Enabled := false;
     so_Logger := None; so_Recovery := None; so_TlsConfig := None;
     so_HandshakeTimeout := 0; so_SubProtocols := [];
     so_ResponseHeader := None; so_Authorize := None; so_NewSession := None |}.

(** C9 fails as stated: with compression not enabled, the zero threshold
    stays zero instead of 512, the window bits 20 and 3 stay instead of
    becoming 15, and the zero pool size stays zero, which is no power of
    two; the zero record of a client keeps a zero threshold as well. *)
Lemma disabled_compression_keeps_zeroes :
  so_PermessageDeflate (initServerOption_fields (fun key => key) disabledDeflate)
    = {| Enabled := false; Level := 0; Threshold := 0; PoolSize := 0;
         ServerContextTakeover := false; ClientContextTakeover := false;
         ServerMaxWindowBits := 20; ClientMaxWindowBits := 3 |} /\
  Threshold (co_PermessageDeflate (initClientOption_fields zeroClientOption)) = 0 /\
  PoolSize (co_PermessageDeflate (initClientOption_fields zeroClientOption)) = 0.
Proof. vm_compute. repeat split; reflexivity. Qed.

Lemma option_defaults_witness :
  (deflateDefaults (so_PermessageDeflate enabledDeflate)
     (so_PermessageDeflate (initServerOption_fields (fun key => key) enabledDeflate)) /\
   (exists k, 0 <= k /\
      PoolSize (so_PermessageDeflate (initServerOption_fields (fun key => key) enabledDeflate))
        = 2 ^ k) /\
   20 <= PoolSize (so_PermessageDeflate (initServerOption_fields (fun key => key) enabledDeflate))
      < 40) /\
  so_PermessageDeflate (initServerOption_fields (fun key => key) disabledDeflate)
    = so_PermessageDeflate disabledDeflate /\
  defaulted 0 4096 (so_ReadBufferSize (initServerOption_fields (fun key => key) disabledDeflate)).
Proof.
  pose proof (option_defaults (fun key => key) enabledDeflate zeroClientOption) as Hon.
  pose proof (option_defaults (fun key => key) disabledDeflate zeroClientOption) as Hoff.
  cbv zeta in Hon, Hoff.
  destruct Hon as (_ & _ & Hon & _).
  destruct Hoff as ((_ & _ & Hbuf & _) & _ & _ & _ & Hoff & _).
  split; [|split].
  - apply Hon. reflexivity.
  - apply Hoff. reflexivity.
  - exact Hbuf.
Defined.

Example enabled_pool_size :
  PoolSize (so_PermessageDeflate (initServerOption_fields (fun key => key) enabledDeflate)) = 32.
Proof. vm_compute. reflexivity. Qed.

Lemma nil_option_safe_witness :
  (exists r, NewClient (sampleEnv chatReply) chatOptions (Some 1%nat) = Done r) /\
  (exists r, NewClientFromConn (sampleEnv chatReply) chatOptions None (userConn 0) = Done r) /\
  (exists r, NewClient (sampleEnv chatReply) ∅ None = Done r).
Proof.
  pose proof (nil_option_safe (sampleEnv chatReply) (fun key => key) ∅ chatOptions (userConn 0))
    as (_ & _ & _ & _ & Hnil & Hany).
  pose proof (nil_option_safe (sampleEnv chatReply) (fun key => key) ∅ ∅ (userConn 0))
    as (_ & _ & _ & Hempty & _).
  split; [|split].
  - apply (Hany (Some 1%nat)). vm_compute. eauto.
  - exact Hnil.
  - exact Hempty.
Defined.

(** C10 fails as stated: the record either initialiser makes for nil is
    not fully defaulted.  Its compression block is the zero block:
    Threshold 0 and not 512, Level 0 and not best-speed, PoolSize 0 and
    neither 32 nor 1, window bits 0 and not 15. *)
Lemma nil_option_compression_not_defaulted :
  match initServerOption (fun key => key) ∅ None, initClientOption ∅ None with
  | Done (hs, Some ls), Done (hc, Some lc) =>
      (so_PermessageDeflate <$> hs !! ls) = Some zeroPermessageDeflate /\
      (co_PermessageDeflate <$> hc !! lc) = Some zeroPermessageDeflate
  | _, _ => False
  end /\
  Threshold zeroPermessageDeflate <> defaultCompressThreshold /\
  Level zeroPermessageDeflate <> defaultCompressLevel /\
  PoolSize zeroPermessageDeflate <> defaultCompressorPoolSize /\
  PoolSize zeroPermessageDeflate <> 1 /\
  ServerMaxWindowBits zeroPermessageDeflate <> 15 /\
  ClientMaxWindowBits zeroPermessageDeflate <> 15.
Proof. vm_compute. repeat split; try reflexivity; discriminate. Qed.

Example nil_option_unsupported :
  exists h, NewClient (sampleEnv chatReply) ∅ None = Done (h, (None, None, Some ErrUnsupportedProtocol)).
Proof. eexists. vm_compute. reflexivity. Qed.

(** * The scenarios of the specification, run on the model *)

(** Unfragmented text: the server reads the masked Text frame "hello" and
    hands one message to OnMessage. *)
Example scenario_unfragmented_text :
  let c := freshConn true 0 (genFrame true false OpcodeText sampleKey (bytesOf "hello")) in
  (readMessage (fun _ => true) noCloseError c).1 = Ok tt /\
  events (readMessage (fun _ => true) noCloseError c).2
    = [OnMessage false {| msg_Opcode := OpcodeText; msg_Data := bytesOf "hello" |}].
Proof. vm_compute. split; reflexivity. Qed.

(** Fragmented binary: 01 02 03 04 with FIN clear, then 05 06 07. *)
Example scenario_fragmented_binary :
  ReadMessage noCloseError 2
    (freshConn true 0
       (genFrame false false OpcodeBinary sampleKey [x01; x02; x03; x04]
        ++ genFrame true false OpcodeContinuation sampleKey [x05; x06; x07]))
  = Some (Ok {| msg_Opcode := OpcodeBinary;
               msg_Data := [x01; x02; x03; x04; x05; x06; x07] |},
          ReadMessage_sample_state
            (freshConn true 0
               (genFrame false false OpcodeBinary sampleKey [x01; x02; x03; x04]
                ++ genFrame true false OpcodeContinuation sampleKey [x05; x06; x07]))).
Proof. vm_compute. reflexivity. Qed.

(** A Ping between the fragments: OnPing is called before the message is
    complete, and the message is delivered intact. *)
Example scenario_ping_interleaved :
  let c := freshConn true 0
             (genFrame false false OpcodeText sampleKey (bytesOf "Hel")
              ++ genFrame true false OpcodePing sampleKey (bytesOf "p")
              ++ genFrame true false OpcodeContinuation sampleKey (bytesOf "lo")) in
  (readFrames noCloseError 3 c).1
    = [Ok None; Ok None;
       Ok (Some {| msg_Opcode := OpcodeText; msg_Data := bytesOf "Hello" |})] /\
  events (readFrames noCloseError 2 c).2 = [OnPing (bytesOf "p")] /\
  initialized (cont (readFrames noCloseError 2 c).2) = true.
Proof. vm_compute. repeat split; reflexivity. Qed.

(** Oversize: with ReadMaxPayloadSize 1024, a Text frame that declares
    2048 bytes is refused with 1009 before its body is read. *)
Example scenario_oversize :
  let c := freshConn true 1024
             ([x81; xfe; x08; x00; x37; xfa; x21; x3d] ++ repeat x00 2048) in
  (readFrame noCloseError c).1 = Err (EStatus CloseMessageTooLarge) /\
  length (br (readFrame noCloseError c).2) = 2048%nat.
Proof. vm_compute. split; reflexivity. Qed.

(** Invalid UTF-8 in a Text message, with a check that accepts ASCII
    only: 1007, and OnMessage is not called. *)
Example scenario_invalid_text :
  let ascii := forallb (fun b => Z_of_byte b <? 128) in
  let c := freshConn true 0 (genFrame true false OpcodeText sampleKey [xc3; x28]) in
  (readMessage ascii noCloseError c).1 = Err (ENew CloseUnsupportedData ErrTextEncoding) /\
  closeCode (ENew CloseUnsupportedData ErrTextEncoding) = Some 1007 /\
  events (readMessage ascii noCloseError c).2 = [].
Proof. vm_compute. repeat split; reflexivity. Qed.


(** * Further properties of the reader *)

(** [Parse] keeps the two leading bytes of the frame in the header. *)
Lemma Parse_header_bytes (c c1 : Conn) (n : Z) (b0 b1 : byte) (tl : list byte) :
  br c = b0 :: b1 :: tl -> Parse c = (Ok n, c1) ->
  fh_b0 (fh c1) = b0 /\ fh_b1 (fh c1) = b1.
Proof.
  intros Hbr H. unfold Parse, bind, get, modify, ret in H.
  rewrite (ReadN_ok 2 c [b0; b1] tl Hbr eq_refl) in H.
  cbn [lookup list_lookup default from_option fh set_br set_fh] in H. unfold id in H.
  repeat match type of H with
  | context [ReadN ?k ?st] =>
      let E := fresh "E" in
      destruct (ReadN k st) as [[?|?] ?] eqn:E;
      [apply ReadN_sameButInput in E as [_ E]; cbn [fh set_fh] in E|]
  | context [if ?b then _ else _] => destruct b
  | _ => simplify_eq
  end; cbn [fh set_fh fh_b0 fh_b1]; try (rewrite E); cbn [fh_b0 fh_b1]; auto.
Qed.

(** An emitted frame of any opcode, within the size limit and with no
    reserved bit: what the reader knows once the header is parsed. *)
Lemma genFrame_parsed (c : Conn) (fin : bool) (opcode : Z) (f : fragment)
    (rest : list byte) :
  0 <= opcode < 16 ->
  wellKeyed f.1 ->
  Z.of_nat (length f.2) <= cfg_ReadMaxPayloadSize (config c) ->
  cfg_ReadMaxPayloadSize (config c) < 2 ^ 63 ->
  br c = genFrame fin false opcode f.1 f.2 ++ rest ->
  exists c1,
    Parse c = (Ok (Z.of_nat (length f.2)), c1) /\
    sameButInput c c1 /\
    br c1 = onWire f.1 f.2 ++ rest /\
    GetFIN (fh c1) = fin /\
    GetRSV1 (fh c1) || GetRSV2 (fh c1) || GetRSV3 (fh c1) = false /\
    GetOpcode (fh c1) = opcode /\
    GetMask (fh c1) = bool_decide (is_Some f.1) /\
    GetLengthCode (fh c1) = lengthCodeOf (Z.of_nat (length f.2)) /\
    (if GetMask (fh c1) then MaskXOR (onWire f.1 f.2) (GetMaskKey (fh c1))
     else onWire f.1 f.2) = f.2.
Proof.
  destruct f as [key p]. cbn [fst snd]. intros Hop Hkey Hlen Hmax Hbr.
  destruct (Parse_genFrame c fin false opcode key p rest Hop) as
    (h & HP & HF & HR1 & HR2 & HR3 & HO & HM & HK); try assumption.
  { assert (2 ^ 63 < 2 ^ 64) by (apply Z.pow_lt_mono_r; lia). lia. }
  exists (set_fh h (set_br (onWire key p ++ rest) c)).
  split; [exact HP|].
  split; [eapply Parse_sameButInput; exact HP|].
  cbn [br fh set_fh set_br].
  split; [reflexivity|]. split; [exact HF|].
  split; [now rewrite HR1, HR2, HR3|]. split; [exact HO|]. split; [exact HM|].
  split.
  - assert (Hb : fh_b1 h = byte_of_Z (128 * b2z (bool_decide (is_Some key))
                                      + lengthCodeOf (Z.of_nat (length p)))).
    { unfold genFrame in Hbr. cbn [app] in Hbr.
      destruct (Parse_header_bytes c _ _ _ _ _ Hbr HP) as [_ Hb1].
      exact Hb1. }
    destruct (header_byte1 (bool_decide (is_Some key)) (lengthCodeOf (Z.of_nat (length p)))
                (fh_b0 h) (fh_maskKey h)) as [_ HL].
    { apply lengthCodeOf_range. lia. }
    rewrite <- Hb in HL. destruct h. exact HL.
  - rewrite HM. destruct key as [k|].
    + rewrite bool_decide_true by eauto. cbn [onWire keyOf] in *.
      rewrite HK. apply MaskXOR_involutive.
    + rewrite bool_decide_false by (intros [? ?]; discriminate). reflexivity.
Qed.

Section ReaderExtras.

Variable emitClose_result : list byte -> option error.

(** X1.  An unfragmented data frame: on a connection with no continuation
    open, an emitted Text or Binary frame with FIN set, masked as the
    role asks and within ReadMaxPayloadSize, is delivered by one call of
    [readFrame] with its opcode and its payload as sent; the reader
    stands at the byte after the frame, and neither the continuation
    state nor the handler is touched. *)
Theorem single_frame_delivered (c : Conn) (opcode : Z) (f : fragment) (rest : list byte) :
  opcode = OpcodeText \/ opcode = OpcodeBinary ->
  initialized (cont c) = false ->
  keyedFor c f ->
  Z.of_nat (length f.2) <= cfg_ReadMaxPayloadSize (config c) ->
  cfg_ReadMaxPayloadSize (config c) < 2 ^ 63 ->
  br c = genFrame true false opcode f.1 f.2 ++ rest ->
  exists c',
    readFrame emitClose_result c
      = (Ok (Some {| msg_Opcode := opcode; msg_Data := f.2 |}), c') /\
    ReadMessage emitClose_result 1 c
      = Some (Ok {| msg_Opcode := opcode; msg_Data := f.2 |}, c') /\
    br c' = rest /\ cont c' = cont c /\ events c' = events c /\ config c' = config c.
Proof.
  intros Hop Hinit Hkey Hlen Hmax Hbr.
  assert (Hdata : isDataFrame opcode = true) by (destruct Hop as [-> | ->]; reflexivity).
  assert (Hne : opcode <> OpcodeContinuation) by (destruct Hop as [-> | ->]; discriminate).
  destruct (genFrame_arrives c true opcode f rest Hdata Hkey Hlen Hmax Hbr)
    as (c1 & Harr & HF & HO & HPay & Hrest & Hsame).
  pose proof Harr as ((HP & Hn & Hrsv & Hmask) & Hdata' & Hthere).
  pose proof (Parse_sameButInput _ _ _ HP) as (_&_&_&Hcfg&Hcont&_).
  destruct Hsame as (_&_&_&Hcfg'&Hcont'&Hev).
  assert (Hstep : readFrame emitClose_result c =
                    (Ok (Some {| msg_Opcode := opcode; msg_Data := f.2 |}),
                     afterPayload c1 (Z.of_nat (length f.2)))).
  { rewrite (readFrame_single emitClose_result c c1 _ HP) by (lia || congruence).
    now rewrite HO, HPay. }
  eexists. split; [exact Hstep|]. split.
  - cbn [ReadMessage]. now rewrite Hstep.
  - repeat split; assumption.
Qed.

(** The handler call a Ping or a Pong leads to. *)
Definition controlEvent (opcode : Z) (payload : list byte) : event :=
  if opcode =? OpcodePing then OnPing payload else OnPong payload.

(** One Ping or Pong frame, read. *)
Lemma ping_pong_step (c : Conn) (opcode : Z) (f : fragment) (rest : list byte) :
  opcode = OpcodePing \/ opcode = OpcodePong ->
  keyedFor c f ->
  Z.of_nat (length f.2) <= 125 ->
  Z.of_nat (length f.2) <= cfg_ReadMaxPayloadSize (config c) ->
  cfg_ReadMaxPayloadSize (config c) < 2 ^ 63 ->
  br c = genFrame true false opcode f.1 f.2 ++ rest ->
  exists c',
    readFrame emitClose_result c = (Ok None, c') /\
    br c' = rest /\ cont c' = cont c /\
    events c' = events c ++ [controlEvent opcode f.2] /\
    config c' = config c /\ isServer c' = isServer c.
Proof.
  intros Hop [Hkey Hrole] H125 Hlen Hmax Hbr.
  assert (Hop16 : 0 <= opcode < 16)
    by (destruct Hop as [-> | ->]; unfold OpcodePing, OpcodePong; lia).
  destruct (genFrame_parsed c true opcode f rest Hop16 Hkey Hlen Hmax Hbr)
    as (c1 & HP & (Hss & Hsrv & Hsub & Hcfg & Hcont & Hev) & Hbr1 & HF & Hrsv & HO & HM & HL
        & Hun).
  assert (Hctl : isDataFrame (GetOpcode (fh c1)) = false)
    by (rewrite HO; destruct Hop as [-> | ->]; reflexivity).
  rewrite (readFrame_control emitClose_result c c1 _ HP) by (lia || congruence).
  assert (Hcode : GetLengthCode (fh c1) = Z.of_nat (length f.2)).
  { rewrite HL. unfold lengthCodeOf.
    destruct (Z.leb_spec (Z.of_nat (length f.2)) 125); [reflexivity|lia]. }
  unfold readControl, bind, get, fail, ret, modify.
  rewrite HF, Hcode. cbn [negb]. unfold ThresholdV1.
  destruct (Z.gtb_spec (Z.of_nat (length f.2)) 125) as [|_]; [lia|].
  destruct (Z.gtb_spec (Z.of_nat (length f.2)) 0) as [Hpos|Hzero].
  - rewrite (ReadN_ok _ c1 (onWire f.1 f.2) rest Hbr1)
      by (rewrite onWire_length; reflexivity).
    rewrite Hun, HO.
    destruct Hop as [-> | ->]; cbn [Z.eqb OpcodePing OpcodePong Pos.eqb];
      eexists; (split; [reflexivity|]);
      cbn [br cont events config isServer emit set_br controlEvent];
      repeat split; try congruence; rewrite Hev; reflexivity.
  - assert (Hnil : f.2 = []) by (destruct f.2; [reflexivity|cbn [length] in Hzero; lia]).
    rewrite HO. rewrite Hnil in *.
    assert (Hw : onWire f.1 [] = []) by (destruct f.1; reflexivity).
    rewrite Hw in Hbr1. cbn [app] in Hbr1.
    destruct Hop as [-> | ->]; cbn [Z.eqb OpcodePing OpcodePong Pos.eqb];
      eexists; (split; [reflexivity|]);
      cbn [br cont events config isServer emit set_br controlEvent];
      repeat split; try congruence; rewrite Hev; reflexivity.
Qed.

(** X2.  A Ping or Pong frame: an emitted Ping or Pong with FIN set, at
    most 125 bytes of payload (and no more than ReadMaxPayloadSize),
    masked as the role asks, makes [readFrame] return (nil, nil) after
    one call of OnPing or OnPong with the payload as sent.  The reader
    stands at the byte after the frame and the continuation state is
    what it was, open or not. *)
Theorem control_frame_handled (c : Conn) (opcode : Z) (f : fragment) (rest : list byte) :
  opcode = OpcodePing \/ opcode = OpcodePong ->
  keyedFor c f ->
  Z.of_nat (length f.2) <= 125 ->
  Z.of_nat (length f.2) <= cfg_ReadMaxPayloadSize (config c) ->
  cfg_ReadMaxPayloadSize (config c) < 2 ^ 63 ->
  br c = genFrame true false opcode f.1 f.2 ++ rest ->
  exists c',
    readFrame emitClose_result c = (Ok None, c') /\
    br c' = rest /\ cont c' = cont c /\
    events c' = events c ++ [controlEvent opcode f.2] /\
    config c' = config c /\ isServer c' = isServer c.
Proof.
  intros Hop Hkey H125 Hlen Hmax Hbr.
  destruct (ping_pong_step c opcode f rest Hop Hkey H125 Hlen Hmax Hbr) as (c' & Hstep & Hrest).
  exists c'. split; [exact Hstep|exact Hrest].
Qed.

(** X3.  A frame masked against the role: an emitted frame of any opcode
    within ReadMaxPayloadSize that a client sent unmasked, or a server
    sent masked, is refused with CloseProtocolError.  Its payload is
    still in the reader, the continuation state and the handler are not
    touched. *)
Theorem wrong_mask_refused (c : Conn) (fin : bool) (opcode : Z) (f : fragment)
    (rest : list byte) :
  0 <= opcode < 16 ->
  wellKeyed f.1 ->
  bool_decide (is_Some f.1) <> isServer c ->
  Z.of_nat (length f.2) <= cfg_ReadMaxPayloadSize (config c) ->
  cfg_ReadMaxPayloadSize (config c) < 2 ^ 63 ->
  br c = genFrame fin false opcode f.1 f.2 ++ rest ->
  exists c',
    readFrame emitClose_result c = (Err (EStatus CloseProtocolError), c') /\
    br c' = onWire f.1 f.2 ++ rest /\ cont c' = cont c /\ events c' = events c.
Proof.
  intros Hop Hkey Hrole Hlen Hmax Hbr.
  destruct (genFrame_parsed c fin opcode f rest Hop Hkey Hlen Hmax Hbr)
    as (c1 & HP & (Hss & Hsrv & Hsub & Hcfg & Hcont & Hev) & Hbr1 & HF & Hrsv & HO & HM & HL
        & Hun).
  exists c1. split; [|repeat split; assumption].
  apply (readFrame_mask emitClose_result c c1 _ HP); [rewrite Hcfg; lia|assumption|congruence].
Qed.

End ReaderExtras.

Section CloseFrame.

Variable emitClose_result : list byte -> option error.

(** X4.  A Close frame: an emitted Close frame with FIN set, at most 125
    bytes of payload (and no more than ReadMaxPayloadSize), masked as the
    role asks, is handed to [emitClose] with the payload as sent, and
    [readFrame] returns no message and the error [emitClose] returns, nil
    or not.  The reader stands at the byte after the frame and the
    continuation state is what it was. *)
Theorem close_frame_handled (c : Conn) (f : fragment) (rest : list byte) :
  keyedFor c f ->
  Z.of_nat (length f.2) <= 125 ->
  Z.of_nat (length f.2) <= cfg_ReadMaxPayloadSize (config c) ->
  cfg_ReadMaxPayloadSize (config c) < 2 ^ 63 ->
  br c = genFrame true false OpcodeCloseConnection f.1 f.2 ++ rest ->
  exists c',
    readFrame emitClose_result c
      = (match emitClose_result f.2 with Some e => Err e | None => Ok None end, c') /\
    br c' = rest /\ cont c' = cont c /\
    events c' = events c ++ [OnClose f.2].
Proof.
  intros [Hkey Hrole] H125 Hlen Hmax Hbr.
  assert (Hop16 : 0 <= OpcodeCloseConnection < 16) by (unfold OpcodeCloseConnection; lia).
  destruct (genFrame_parsed c true OpcodeCloseConnection f rest Hop16 Hkey Hlen Hmax Hbr)
    as (c1 & HP & (Hss & Hsrv & Hsub & Hcfg & Hcont & Hev) & Hbr1 & HF & Hrsv & HO & HM & HL
        & Hun).
  assert (Hctl : isDataFrame (GetOpcode (fh c1)) = false) by (rewrite HO; reflexivity).
  rewrite (readFrame_control emitClose_result c c1 _ HP) by (lia || congruence).
  assert (Hcode : GetLengthCode (fh c1) = Z.of_nat (length f.2)).
  { rewrite HL. unfold lengthCodeOf.
    destruct (Z.leb_spec (Z.of_nat (length f.2)) 125); [reflexivity|lia]. }
  unfold readControl, emitClose, bind, get, fail, ret, modify.
  rewrite HF, Hcode. cbn [negb]. unfold ThresholdV1.
  destruct (Z.gtb_spec (Z.of_nat (length f.2)) 125) as [|_]; [lia|].
  destruct (Z.gtb_spec (Z.of_nat (length f.2)) 0) as [Hpos|Hzero].
  - rewrite (ReadN_ok _ c1 (onWire f.1 f.2) rest Hbr1)
      by (rewrite onWire_length; reflexivity).
    rewrite Hun, HO. cbn [Z.eqb OpcodeCloseConnection OpcodePing OpcodePong Pos.eqb].
    destruct (emitClose_result f.2); eexists; (split; [reflexivity|]);
      cbn [br cont events config isServer emit set_br snd];
      repeat split; try congruence; rewrite Hev; reflexivity.
  - assert (Hnil : f.2 = []) by (destruct f.2; [reflexivity|cbn [length] in Hzero; lia]).
    rewrite HO. rewrite Hnil in *.
    assert (Hw : onWire f.1 [] = []) by (destruct f.1; reflexivity).
    rewrite Hw in Hbr1. cbn [app] in Hbr1.
    cbn [Z.eqb OpcodeCloseConnection OpcodePing OpcodePong Pos.eqb].
    destruct (emitClose_result []); eexists; (split; [reflexivity|]);
      cbn [br cont events config isServer emit set_br snd];
      repeat split; try congruence; try (rewrite Hev; reflexivity).
Qed.

End CloseFrame.

(** * What a call of readFrame may change *)

Definition isControlEvent (e : event) : Prop :=
  match e with
  | OnMessage _ _ => False
  | _ => True
  end.

Lemma ReadN_suffix (n : Z) (c c' : Conn) (r : result (list byte)) :
  ReadN n c = (r, c') -> br c' `suffix_of` br c.
Proof.
  unfold ReadN. intros H. case_match; simplify_eq; cbn [br set_br].
  - apply suffix_drop.
  - apply suffix_nil.
Qed.

Lemma Parse_suffix (c c' : Conn) (r : result Z) :
  Parse c = (r, c') -> br c' `suffix_of` br c.
Proof.
  unfold Parse, bind, get, modify, ret. intros H.
  destruct (ReadN 2 c) as [[h|e] c1] eqn:E1; apply ReadN_suffix in E1;
    [|simplify_eq; assumption].
  repeat match type of H with
  | context [ReadN ?k ?st] =>
      let E := fresh "E" in
      destruct (ReadN k st) as [[?|?] ?] eqn:E; apply ReadN_suffix in E; cbn [br set_fh] in E
  | context [if ?b then _ else _] => destruct b
  | _ => simplify_eq
  end; cbn [br set_fh] in *; repeat (etrans; [eassumption|]); try reflexivity; try assumption.
Qed.

Section Footprint.

Variable emitClose_result : list byte -> option error.

Lemma readControl_effects (c c' : Conn) (r : result unit) :
  readControl emitClose_result c = (r, c') ->
  ss c' = ss c /\ subprotocol c' = subprotocol c /\ br c' `suffix_of` br c /\
  (events c' = events c \/
   exists e, isControlEvent e /\ events c' = events c ++ [e]).
Proof.
  unfold readControl, emitClose, bind, get, modify, ret, fail. intros H.
  repeat match type of H with
  | context [ReadN ?k ?st] =>
      let E := fresh "E" in
      destruct (ReadN k st) as [[?|?] ?] eqn:E;
      pose proof (ReadN_suffix _ _ _ _ E);
      apply ReadN_sameButInput in E as [(?&?&?&?&?&?) ?]
  | context [if ?b then _ else _] => destruct b
  | context [match emitClose_result ?p with _ => _ end] => destruct (emitClose_result p)
  | _ => simplify_eq
  end; cbn [ss subprotocol br events emit];
  repeat split; try assumption; try reflexivity;
  try (left; congruence);
  try (right; eexists; split; [|f_equal; eassumption]; exact I);
  try (right; eexists; split; [|reflexivity]; exact I).
Qed.

Lemma frameOutcome_footprint (c c' : Conn) (r : result (option Message)) :
  frameOutcome emitClose_result c r c' ->
  br c' `suffix_of` br c /\
  ss c' = ss c /\ subprotocol c' = subprotocol c /\
  (events c' = events c \/
   (cont c' = cont c /\ (forall m, r <> Ok (Some m)) /\
    exists e, isControlEvent e /\ events c' = events c ++ [e])).
Proof.
  intros H.
  destruct H;
    repeat match goal with
    | H : dataArrived _ _ _ |- _ => destruct H as (? & _ & _)
    | H : accepted _ _ _ |- _ =>
        let HP := fresh "HP" in
        destruct H as (HP & _);
        pose proof (Parse_suffix _ _ _ HP);
        apply Parse_sameButInput in HP as (?&?&?&?&?&?)
    | H : passed _ _ _ |- _ =>
        let HP := fresh "HP" in
        destruct H as (HP & _);
        pose proof (Parse_suffix _ _ _ HP);
        apply Parse_sameButInput in HP as (?&?&?&?&?&?)
    | H : Parse _ = _ |- _ =>
        pose proof (Parse_suffix _ _ _ H);
        apply Parse_sameButInput in H as (?&?&?&?&?&?)
    | H : readControl _ _ = _ |- _ =>
        pose proof (readControl_effects _ _ _ H) as (?&?&?&?);
        apply readControl_keeps in H as (?&?&?&?)
    end;
    cbn [br ss subprotocol events cont set_br set_cont afterPayload];
    (split; [|split; [congruence|split; [congruence|]]]).
  all: try (etrans; [|eassumption]; try assumption; try apply suffix_drop;
            try apply suffix_nil; reflexivity).
  all: try (left; congruence).
  all: try match goal with
       | H : _ \/ _ |- _ =>
           let ev := fresh "ev" in
           destruct H as [He|(ev & Hce & He)];
           [left; congruence
           |right; split; [congruence|]; split; [discriminate|];
            exists ev; split; [assumption|congruence]]
       end.
Qed.

End Footprint.

Section ReaderInvariants.

Variable emitClose_result : list byte -> option error.

(** X5.  [readFrame] only consumes: whatever the call returns, the bytes
    left in the reader are a suffix of those it found, and the session,
    the subprotocol, the configuration and the role are what they
    were. *)
Theorem readFrame_only_consumes (c : Conn) :
  br (readFrame emitClose_result c).2 `suffix_of` br c /\
  ss (readFrame emitClose_result c).2 = ss c /\
  subprotocol (readFrame emitClose_result c).2 = subprotocol c /\
  config (readFrame emitClose_result c).2 = config c /\
  isServer (readFrame emitClose_result c).2 = isServer c.
Proof.
  pose proof (readFrame_outcome emitClose_result c) as Hout.
  destruct (frameOutcome_footprint _ _ _ _ Hout) as (Hsuf & Hss & Hsub & _).
  destruct (frameOutcome_static _ _ _ _ Hout) as [Hcfg Hsrv].
  repeat split; assumption.
Qed.

(** X6.  The handler calls of [readFrame]: a call either calls no
    handler, or calls exactly one of OnPing, OnPong and the close (never
    OnMessage), and then it returns no message and leaves the
    continuation state as it was. *)
Theorem readFrame_handler_calls (c : Conn) :
  events (readFrame emitClose_result c).2 = events c \/
  (cont (readFrame emitClose_result c).2 = cont c /\
   (forall m, (readFrame emitClose_result c).1 <> Ok (Some m)) /\
   exists e, isControlEvent e /\
             events (readFrame emitClose_result c).2 = events c ++ [e]).
Proof.
  pose proof (readFrame_outcome emitClose_result c) as Hout.
  destruct (frameOutcome_footprint _ _ _ _ Hout) as (_ & _ & _ & H). exact H.
Qed.

(** X7.  A payload cut short: when the transport ends inside the payload
    of a frame that passed the checks on length, reserved bits and mask
    -- a data frame, or a control frame with FIN set and a length code of
    at most 125 -- [readFrame] returns the transport's error, calls no
    handler and leaves the continuation state as it was. *)
Theorem truncated_payload_fails (c c1 : Conn) (n : Z) :
  accepted c c1 n ->
  (isDataFrame (GetOpcode (fh c1)) = true /\ Z.of_nat (length (br c1)) < n) \/
  (isDataFrame (GetOpcode (fh c1)) = false /\ GetFIN (fh c1) = true /\
   GetLengthCode (fh c1) <= 125 /\
   Z.of_nat (length (br c1)) < GetLengthCode (fh c1)) ->
  readFrame emitClose_result c = (Err EIO, set_br [] c1) /\
  cont c1 = cont c /\ events c1 = events c.
Proof.
  intros (HP & Hn & Hrsv & Hmask) Hcase.
  pose proof (Parse_sameButInput _ _ _ HP) as (_&_&_&_&Hcont&Hev).
  split; [|split; assumption].
  destruct Hcase as [[Hdata Hshort]|(Hctl & Hfin & H125 & Hshort)].
  - apply (readFrame_short emitClose_result c c1 n HP); assumption || lia.
  - rewrite (readFrame_control emitClose_result c c1 n HP) by (assumption || lia).
    unfold readControl, bind, get, fail, ret, modify.
    rewrite Hfin. cbn [negb]. unfold ThresholdV1.
    destruct (Z.gtb_spec (GetLengthCode (fh c1)) 125); [lia|].
    destruct (Z.gtb_spec (GetLengthCode (fh c1)) 0); [|lia].
    now rewrite (ReadN_short _ c1 Hshort).
Qed.

(** The bytes held for an open continuation are within the limit. *)
Definition bufferInv (c : Conn) : Prop :=
  initialized (cont c) = true ->
  Z.of_nat (length (cf_buffer (cont c))) <= cfg_ReadMaxPayloadSize (config c).

Definition isOk {A : Type} (r : result A) : Prop :=
  match r with
  | Ok _ => True
  | Err _ => False
  end.

Lemma frameOutcome_buffer (c c' : Conn) (r : result (option Message)) :
  frameOutcome emitClose_result c r c' ->
  (bufferInv c -> isOk r -> bufferInv c') /\
  Z.of_nat (length (cf_buffer (cont c')))
    <= Z.of_nat (length (cf_buffer (cont c))) + Z.max 0 (cfg_ReadMaxPayloadSize (config c)).
Proof.
  intros H. unfold bufferInv.
  destruct H;
    repeat match goal with
    | H : dataArrived _ _ _ |- _ =>
        let Hn := fresh "Hn" in let Hth := fresh "Hth" in
        pose proof H as ((_ & Hn & _) & _ & Hth); destruct H as (? & _ & _)
    | H : accepted _ _ _ |- _ => apply accepted_kept in H as [(?&?&?&Hcfg&Hcont&?) ?]
    | H : passed _ _ _ |- _ => apply passed_kept in H as [(?&?&?&Hcfg&Hcont&?) ?]
    | H : Parse _ = _ |- _ => apply Parse_sameButInput in H as (?&?&?&Hcfg&Hcont&?)
    | H : readControl _ _ = _ |- _ => apply readControl_keeps in H as (Hc2&Hcfg2&?&?)
    end;
    cbn [cont config set_br set_cont afterPayload initialized cf_buffer reset isOk length];
    rewrite ?Hc2, ?Hcfg2, ?Hcont, ?Hcfg in *;
    (split; [try tauto; try (intros; discriminate)|try lia]).
  all: try (rewrite ?length_app, ?framePayload_length in * by lia; intros; lia).
  all: rewrite length_app, Nat2Z.inj_add, framePayload_length by lia; lia.
Qed.

(** X8.  The memory an open continuation holds: from a connection with
    no continuation open, as long as no call of [readFrame] has failed,
    the bytes buffered for the message under way are at most
    ReadMaxPayloadSize; and a single call, failing or not, adds at most
    ReadMaxPayloadSize bytes to the buffer. *)
Theorem continuation_buffer_bounded (k : nat) (c : Conn) :
  (initialized (cont c) = false ->
   Forall isOk (readFrames emitClose_result k c).1 ->
   bufferInv (readFrames emitClose_result k c).2) /\
  Z.of_nat (length (cf_buffer (cont (readFrame emitClose_result c).2)))
    <= Z.of_nat (length (cf_buffer (cont c))) + Z.max 0 (cfg_ReadMaxPayloadSize (config c)).
Proof.
  split.
  - intros Hinit. assert (Hinv : bufferInv c) by (unfold bufferInv; congruence).
    clear Hinit. revert c Hinv. induction k as [|k IH]; intros c Hinv Hok.
    + exact Hinv.
    + rewrite readFrames_S in *.
      pose proof (readFrame_outcome emitClose_result c) as Hout.
      destruct (readFrame emitClose_result c) as [r c1]. cbn [fst snd] in Hout.
      specialize (IH c1).
      destruct (readFrames emitClose_result k c1) as [rs c2]. cbn [fst snd] in *.
      apply Forall_cons in Hok as [Hr Hrs].
      apply IH; [|exact Hrs].
      now apply (proj1 (frameOutcome_buffer _ _ _ Hout)).
  - apply (proj2 (frameOutcome_buffer _ _ _ (readFrame_outcome emitClose_result c))).
Qed.

End ReaderInvariants.

(** * Control frames in the stream, and what reaches OnMessage *)

(** Ping and Pong frames as the peer sends them: opcode and fragment. *)
Definition controlFrames (ctl : list (Z * fragment)) : list byte :=
  flat_map (fun x => genFrame true false x.1 x.2.1 x.2.2) ctl.

Definition controlEvents (ctl : list (Z * fragment)) : list event :=
  map (fun x => controlEvent x.1 x.2.2) ctl.

Definition pingOrPong (c : Conn) (x : Z * fragment) : Prop :=
  (x.1 = OpcodePing \/ x.1 = OpcodePong) /\ keyedFor c x.2 /\
  Z.of_nat (length x.2.2) <= 125 /\
  Z.of_nat (length x.2.2) <= cfg_ReadMaxPayloadSize (config c).

Section Dispatch.

Variable utf8_Valid : list byte -> bool.
Variable emitClose_result : list byte -> option error.

(** X9.  Ping and Pong frames are transparent to [ReadMessage]: when the
    input starts with any number of well-formed Ping and Pong frames,
    each is read by one call of [readFrame] that returns (nil, nil), the
    handlers are called in the order of the frames with the payloads as
    sent, the continuation state is not touched, and [ReadMessage]
    returns what it returns on the input after them. *)
Theorem control_frames_transparent (ctl : list (Z * fragment)) (tail : list byte)
    (c : Conn) :
  Forall (pingOrPong c) ctl ->
  cfg_ReadMaxPayloadSize (config c) < 2 ^ 63 ->
  br c = controlFrames ctl ++ tail ->
  exists c1,
    readFrames emitClose_result (length ctl) c = (replicate (length ctl) (Ok None), c1) /\
    br c1 = tail /\ cont c1 = cont c /\
    events c1 = events c ++ controlEvents ctl /\
    config c1 = config c /\ isServer c1 = isServer c /\
    forall k, ReadMessage emitClose_result (length ctl + k) c
              = ReadMessage emitClose_result k c1.
Proof.
  revert c. induction ctl as [|x ctl IH]; intros c Hall Hmax Hbr.
  - exists c. cbn [length replicate readFrames controlFrames flat_map controlEvents map app] in *.
    rewrite app_nil_r. repeat split; auto.
  - apply Forall_cons in Hall as [(Hop & Hkey & H125 & Hlen) Hall].
    cbn [controlFrames flat_map] in Hbr. fold (controlFrames ctl) in Hbr.
    rewrite <- app_assoc in Hbr.
    destruct (ping_pong_step emitClose_result c x.1 x.2 _ Hop Hkey H125 Hlen Hmax Hbr)
      as (c' & Hstep & Hbr' & Hcont' & Hev' & Hcfg' & Hsrv').
    destruct (IH c') as (c1 & Hrun & Hbr1 & Hcont1 & Hev1 & Hcfg1 & Hsrv1 & Hread).
    + eapply Forall_impl; [exact Hall|].
      intros y (? & [? ?] & ? & ?). unfold pingOrPong, keyedFor.
      rewrite Hcfg', Hsrv'. auto.
    + now rewrite Hcfg'.
    + exact Hbr'.
    + exists c1. cbn [length]. rewrite readFrames_S, Hstep, Hrun.
      cbn [replicate controlEvents map]. fold (controlEvents ctl).
      split; [reflexivity|]. split; [assumption|]. split; [congruence|].
      split; [rewrite Hev1, Hev', <- app_assoc; reflexivity|].
      split; [congruence|]. split; [congruence|].
      intros k. cbn [Nat.add ReadMessage]. rewrite Hstep. apply Hread.
Qed.

(** X10.  What reaches OnMessage: on a connection the reader can be in,
    a call of [readMessage] that calls OnMessage calls it once, last,
    returns nil, and passes a message whose opcode is Text or Binary,
    whose payload is within ReadMaxPayloadSize and, when CheckUtf8Enabled
    is set and the message is Text, is valid UTF-8; no continuation is
    open after it.  Any other call adds no handler call, or one of
    OnPing, OnPong and the close. *)
Theorem readMessage_dispatches (c c' : Conn) (r : result unit) :
  reachable emitClose_result c ->
  readMessage utf8_Valid emitClose_result c = (r, c') ->
  (exists m,
     r = Ok tt /\
     events c' = events c ++ [OnMessage (cfg_ReadAsyncEnabled (config c)) m] /\
     Z.of_nat (length (msg_Data m)) <= cfg_ReadMaxPayloadSize (config c) /\
     (msg_Opcode m = OpcodeText \/ msg_Opcode m = OpcodeBinary) /\
     (cfg_CheckUtf8Enabled (config c) = true -> msg_Opcode m = OpcodeText ->
      utf8_Valid (msg_Data m) = true) /\
     initialized (cont c') = false) \/
  (events c' = events c \/
   exists e, isControlEvent e /\ events c' = events c ++ [e]).
Proof.
  intros Hreach H. unfold readMessage, bind in H.
  pose proof (readFrame_outcome emitClose_result c) as Hout.
  destruct (readFrame emitClose_result c) as [[[m|]|e] c1] eqn:Hrf; cbn [fst snd] in Hout.
  - destruct (frameOutcome_message _ _ _ _ Hout (reachable_contInv _ _ Hreach))
      as (Hlen & Hop & Hinit).
    destruct (frameOutcome_static _ _ _ _ Hout) as [Hcfg _].
    destruct (frameOutcome_footprint _ _ _ _ Hout) as (_ & _ & _ & [Hev|(_ & Hno & _)]);
      [|exfalso; exact (Hno m eq_refl)].
    unfold emitMessage, CheckEncoding, dispatch, bind, get, fail, modify in H.
    rewrite Hcfg in H.
    destruct (cfg_CheckUtf8Enabled (config c)) eqn:Hchk;
      destruct (msg_Opcode m =? OpcodeText) eqn:Htxt; cbn [andb negb] in H;
      try destruct (utf8_Valid (msg_Data m)) eqn:Hv; cbn [negb] in H;
      try (injection H as <- <-; right; left; exact Hev);
      left; exists m;
      destruct (cfg_ReadAsyncEnabled (config c)); injection H as <- <-;
      cbn [events cont emit]; rewrite Hev;
      repeat split; auto; try discriminate;
      try (intros _ Ht; rewrite Ht in Htxt; discriminate).
  - injection H as <- <-.
    destruct (frameOutcome_footprint _ _ _ _ Hout) as (_ & _ & _ & [Hev|(_ & _ & He)]);
      right; [left|right]; assumption.
  - injection H as <- <-.
    destruct (frameOutcome_footprint _ _ _ _ Hout) as (_ & _ & _ & [Hev|(_ & _ & He)]);
      right; [left|right]; assumption.
Qed.

End Dispatch.

(** * Further properties of the client connector *)

Lemma Header_Get_Set_eq canon h key v : Header_Get canon (Header_Set canon key v h) key = v.
Proof. unfold Header_Get, Header_Set. now rewrite lookup_insert_eq. Qed.



Section ClientExtras.

Variable E : Env.

Local Abbreviation canon := (env_CanonicalMIMEHeaderKey E).




(** What [handshake] returns with a connection. *)
Lemma handshake_connection (h : heap ClientOption) (k : connector) (c : Conn)
    (resp : option Response) (err : option error) :
  handshake E h k = Done (Some c, resp, err) ->
  exists k' r rest o f,
    request E h k = Done (k', Ok (r, rest)) /\ resp = Some r /\
    checkHeaders E k' r = None /\
    load h (k_option k') = Done o /\
    getSubProtocol E o r = Ok (subprotocol c) /\
    co_NewSession o = Some f /\
    err = env_clearDeadline E /\
    c = {| ss := f tt; isServer := false; subprotocol := subprotocol c;
           config := ClientOption_getConfig o; br := rest;
           cont := {| initialized := false; cf_opcode := 0; cf_buffer := [] |};
           fh := {| fh_b0 := x00; fh_b1 := x00; fh_maskKey := [] |};
           events := [] |}.
Proof.
  intros H. unfold handshake, obind in H.
  destruct (request E h k) as [[k' [[r rest]|e]]|w] eqn:Hreq; try discriminate.
  destruct (checkHeaders E k' r) as [e|] eqn:Hchk; [discriminate|].
  destruct (load h (k_option k')) as [o|w] eqn:Hload; [|discriminate].
  destruct (getSubProtocol E o r) as [sub|e] eqn:Hsub; [|discriminate].
  destruct (co_NewSession o) as [f|] eqn:Hf; cbn [callable] in H; [|discriminate].
  injection H as <- <- <-.
  exists k', r, rest, o, f. cbn [subprotocol]. repeat split; auto.
Qed.

(** X12.  The accept key is checked against the key that was sent: when
    [handshake], started with no key, returns a connection, the server's
    reply to the request had status 101 and, as Sec-WebSocket-Accept,
    base64(SHA1(key + GUID)) for the very value the request carried as
    Sec-WebSocket-Key; and the bytes the reader held after the response
    are the first input of the connection. *)
Theorem handshake_accept_matches_request (h : heap ClientOption) (k : connector)
    (c : Conn) (resp : option Response) (err : option error) :
  k_secWebsocketKey k = "" ->
  handshake E h k = Done (Some c, resp, err) ->
  exists hdr r,
    env_roundTrip E (k_conn k) hdr = Ok (r, br c) /\ resp = Some r /\
    StatusCode r = 101 /\
    Header_Get canon (resp_Header r) "Sec-WebSocket-Accept"
      = env_base64 E (env_sha1 E (Header_Get canon hdr "Sec-WebSocket-Key"
                                    ++ "258EAFA5-E914-47DA-95CA-C5AB0DC85B11")).
Proof.
  intros Hkey H.
  destruct (handshake_connection h k c resp err H)
    as (k' & r & rest & o & f & Hreq & Hresp & Hchk & Hload & _ & _ & _ & Hc).
  assert (Hbr : br c = rest) by (rewrite Hc; reflexivity).
  unfold request, obind in Hreq.
  destruct (load h (k_option k)) as [o0|w]; [|discriminate].
  destruct (env_http_NewRequest E (co_Addr o0)) as [e|]; [discriminate|].
  rewrite Hkey in Hreq. cbn [String.eqb] in Hreq.
  injection Hreq as <- Hrt.
  apply (proj1 (checkHeaders_valid E _ r)) in Hchk as (Hstatus & _ & _ & Hacc).
  eexists _, r. rewrite Hbr. split; [exact Hrt|]. split; [assumption|].
  split; [assumption|]. rewrite Header_Get_Set_eq. exact Hacc.
Qed.

End ClientExtras.

(** The option record with its TLS configuration replaced. *)
Definition withTlsConfig (o : ClientOption) (cfg : option TlsConfig) : ClientOption :=
  {| co_WriteBufferSize := co_WriteBufferSize o;
     co_PermessageDeflate := co_PermessageDeflate o;
     co_ReadAsyncEnabled := co_ReadAsyncEnabled o;
     co_ReadAsyncGoLimit := co_ReadAsyncGoLimit o;
     co_ReadMaxPayloadSize := co_ReadMaxPayloadSize o;
     co_ReadBufferSize := co_ReadBufferSize o;
     co_WriteMaxPayloadSize := co_WriteMaxPayloadSize o;
     co_CheckUtf8Enabled := co_CheckUtf8Enabled o;
     co_Logger := co_Logger o;
     co_Recovery := co_Recovery o;
     co_Addr := co_Addr o;
     co_RequestHeader := co_RequestHeader o;
     co_HandshakeTimeout := co_HandshakeTimeout o;
     co_TlsConfig := cfg;
     co_NewDialer := co_NewDialer o;
     co_NewSession := co_NewSession o |}.

(** The TLS configuration [NewClient] dials a wss address with: the
    option's, or an empty one, with the host of the address as server
    name when it names none. *)
Definition tlsFor (o : ClientOption) (u : URL) : TlsConfig :=
  let cfg := default {| ServerName := "" |} (co_TlsConfig o) in
  if String.eqb (ServerName cfg) "" then {| ServerName := Hostname u |} else cfg.

(** The configuration of a connection has usable limits and handlers. *)
Definition usableConfig (cfg : Config) : Prop :=
  0 < cfg_ReadMaxPayloadSize cfg /\ 0 < cfg_WriteMaxPayloadSize cfg /\
  0 < cfg_ReadBufferSize cfg /\ 0 < cfg_WriteBufferSize cfg /\
  0 < cfg_ReadAsyncGoLimit cfg /\
  is_Some (cfg_Recovery cfg) /\ is_Some (cfg_Logger cfg).

Lemma orDefault_pos (v d : Z) : 0 < d -> 0 < orDefault v d.
Proof. intros Hd. unfold orDefault. destruct (Z.leb_spec v 0); lia. Qed.

Lemma orElse_is_Some {A : Type} (v : option A) (d : A) : is_Some (orElse v d).
Proof. destruct v; cbn; eauto. Qed.

Lemma initClientOption_usable (o : ClientOption) :
  usableConfig (ClientOption_getConfig (initClientOption_fields o)).
Proof.
  unfold usableConfig, ClientOption_getConfig, initClientOption_fields.
  cbn [cfg_ReadMaxPayloadSize cfg_WriteMaxPayloadSize cfg_ReadBufferSize cfg_WriteBufferSize
       cfg_ReadAsyncGoLimit cfg_Recovery cfg_Logger
       co_ReadMaxPayloadSize co_WriteMaxPayloadSize co_ReadBufferSize co_WriteBufferSize
       co_ReadAsyncGoLimit co_Recovery co_Logger].
  repeat split; try (apply orDefault_pos; reflexivity); apply orElse_is_Some.
Qed.

Lemma initClientOption_valid (h : heap ClientOption) (l : nat) (o : ClientOption) :
  h !! l = Some o ->
  initClientOption h (Some l) = Done (<[l := initClientOption_fields o]> h, Some l).
Proof. intros Ho. unfold initClientOption, load, obind. now rewrite Ho. Qed.

Section Constructors.

Variable E : Env.

Lemma request_keeps_option (h : heap ClientOption) (k k' : connector)
    (r : result (Response * list byte)) :
  request E h k = Done (k', r) -> k_option k' = k_option k /\ k_conn k' = k_conn k.
Proof.
  unfold request, obind. intros H.
  destruct (load h (k_option k)); [|discriminate].
  destruct (env_http_NewRequest E _); [injection H as <- _; auto|].
  destruct (String.eqb (k_secWebsocketKey k) ""); injection H as <- _; auto.
Qed.

Lemma handshake_config (h : heap ClientOption) (k : connector) (l : nat) (o : ClientOption)
    (c : Conn) (resp : option Response) (err : option error) :
  k_option k = Some l -> h !! l = Some o ->
  handshake E h k = Done (Some c, resp, err) ->
  config c = ClientOption_getConfig o /\ isServer c = false /\
  initialized (cont c) = false /\ events c = [].
Proof.
  intros Hk Ho H.
  destruct (handshake_connection E h k c resp err H)
    as (k' & r & rest & o' & f & Hreq & _ & _ & Hload & _ & _ & _ & Hc).
  apply request_keeps_option in Hreq as [Hopt _].
  unfold load in Hload. rewrite Hopt, Hk, Ho in Hload. injection Hload as <-.
  rewrite Hc. repeat split.
Qed.

(** The heap and the transport [NewClient] reaches the handshake with,
    when it reaches it. *)
Lemma NewClient_inv (h h' : heap ClientOption) (l : nat) (o : ClientOption)
    (r : option Conn * option Response * option error) :
  h !! l = Some o ->
  NewClient E h (Some l) = Done (h', r) ->
  let o1 := initClientOption_fields o in
  (h' = <[l := o1]> h /\
   ((exists e, env_url_Parse E (co_Addr o) = Err e /\ r = (None, None, Some e)) \/
    (exists u, env_url_Parse E (co_Addr o) = Ok u /\
               Scheme u <> "ws" /\ Scheme u <> "wss" /\
               r = (None, None, Some ErrUnsupportedProtocol)) \/
    (exists u nd e, env_url_Parse E (co_Addr o) = Ok u /\
                    co_NewDialer o1 = Some nd /\ nd tt = Err e /\
                    r = (None, None, Some e)) \/
    (exists u nd d e, env_url_Parse E (co_Addr o) = Ok u /\
                      co_NewDialer o1 = Some nd /\ nd tt = Ok d /\
                      env_Dial E d "tcp" (env_GetAddrFromURL E u (String.eqb (Scheme u) "wss"))
                        = Err e /\
                      r = (None, None, Some e)) \/
    (exists u nd d conn, env_url_Parse E (co_Addr o) = Ok u /\ Scheme u = "ws" /\
                         co_NewDialer o1 = Some nd /\ nd tt = Ok d /\
                         env_Dial E d "tcp" (env_GetAddrFromURL E u false) = Ok conn /\
                         handshake E h' {| k_option := Some l; k_conn := conn;
                                           k_secWebsocketKey := "" |} = Done r))) \/
  (exists u nd d conn,
     env_url_Parse E (co_Addr o) = Ok u /\ Scheme u = "wss" /\
     co_NewDialer o1 = Some nd /\ nd tt = Ok d /\
     env_Dial E d "tcp" (env_GetAddrFromURL E u true) = Ok conn /\
     h' = <[l := withTlsConfig o1 (Some (tlsFor o1 u))]> h /\
     handshake E h' {| k_option := Some l; k_conn := tlsClient conn (tlsFor o1 u);
                       k_secWebsocketKey := "" |} = Done r).
Proof.
  intros Ho H o1. unfold NewClient in H.
  rewrite (initClientOption_valid h l o Ho) in H. cbn [obind] in H.
  unfold load in H. rewrite lookup_insert_eq in H. cbn [obind] in H.
  assert (Haddr : co_Addr o1 = co_Addr o) by reflexivity.
  fold o1 in H. rewrite <- Haddr. clearbody o1.
  destruct (env_url_Parse E (co_Addr o1)) as [u|e] eqn:Hurl.
  2:{ injection H as <- <-. left. split; [reflexivity|]. left. eauto. }
  destruct (String.eqb_spec (Scheme u) "ws") as [Hws|Hws];
    destruct (String.eqb_spec (Scheme u) "wss") as [Hwss|Hwss]; cbn [negb andb] in H.
  - rewrite Hws in Hwss. discriminate.
  - (* ws *)
    destruct (co_NewDialer o1) as [nd|] eqn:Hnd; cbn [callable obind] in H; [|discriminate].
    destruct (nd tt) as [d|e] eqn:Hd.
    2:{ injection H as <- <-. left. split; [reflexivity|]. right. right. left.
        exists u, nd, e. auto. }
    destruct (env_Dial E d "tcp" _) as [conn|e] eqn:Hdial.
    2:{ injection H as <- <-. left. split; [reflexivity|]. right. right. right. left.
        exists u, nd, d, e. repeat split; auto.
        destruct (String.eqb_spec (Scheme u) "wss"); [contradiction|exact Hdial]. }
    unfold obind in H.
    destruct (handshake E _ _) as [r0|w] eqn:Hhs; [|discriminate].
    injection H as <- <-. left. split; [reflexivity|]. right. right. right. right.
    exists u, nd, d, conn. repeat split; auto.
  - (* wss *)
    destruct (co_NewDialer o1) as [nd|] eqn:Hnd; cbn [callable obind] in H; [|discriminate].
    destruct (nd tt) as [d|e] eqn:Hd.
    2:{ injection H as <- <-. left. split; [reflexivity|]. right. right. left.
        exists u, nd, e. auto. }
    destruct (env_Dial E d "tcp" _) as [conn|e] eqn:Hdial.
    2:{ injection H as <- <-. left. split; [reflexivity|]. right. right. right. left.
        exists u, nd, d, e. repeat split; auto.
        destruct (String.eqb_spec (Scheme u) "wss"); [exact Hdial|contradiction]. }
    unfold obind in H.
    destruct (handshake E _ _) as [r0|w] eqn:Hhs; [|discriminate].
    injection H as <- <-. right.
    exists u, nd, d, conn.
    split; [reflexivity|]. split; [assumption|]. split; [reflexivity|]. split; [assumption|].
    split; [assumption|].
    assert (Hheap : <[l := withTlsConfig o1 (Some (tlsFor o1 u))]> h
                    = <[l := withTlsConfig o1 (Some (tlsFor o1 u))]> (<[l := o1]> h))
      by (now rewrite insert_insert_eq).
    rewrite Hheap. unfold withTlsConfig, tlsFor. rewrite Hnd.
    split; [reflexivity|exact Hhs].
  - injection H as <- <-. left. split; [reflexivity|]. right. left. exists u. auto.
Qed.

End Constructors.

Lemma initClientOption_nil (h : heap ClientOption) :
  initClientOption h None
  = initClientOption (<[fresh (dom h) := zeroClientOption]> h) (Some (fresh (dom h))).
Proof.
  unfold initClientOption, new, load, obind.
  rewrite lookup_insert_eq. reflexivity.
Qed.

Section ConstructorFacts.

Variable E : Env.

(** A pointer a caller can hold, as the address [NewClient] works on. *)
Lemma NewClient_pointer (h : heap ClientOption) (p : option nat) :
  validPointer h p ->
  exists h0 l o,
    h0 !! l = Some o /\
    NewClient E h p = NewClient E h0 (Some l) /\
    (forall conn, NewClientFromConn E h p conn = NewClientFromConn E h0 (Some l) conn) /\
    (forall l', is_Some (h !! l') -> l' <> l -> h0 !! l' = h !! l') /\
    match p with
    | Some l' => h0 = h /\ l = l'
    | None => o = zeroClientOption /\ h !! l = None
    end.
Proof.
  intros Hp. destruct p as [l|].
  - destruct Hp as [o Ho]. exists h, l, o. repeat split; auto.
  - exists (<[fresh (dom h) := zeroClientOption]> h), (fresh (dom h)), zeroClientOption.
    split; [apply lookup_insert_eq|].
    split; [unfold NewClient; now rewrite initClientOption_nil|].
    split; [intros conn; unfold NewClientFromConn; now rewrite initClientOption_nil|].
    split; [intros l' _ Hne; now rewrite lookup_insert_ne|].
    split; [reflexivity|]. apply not_elem_of_dom. apply is_fresh.
Qed.

(** X13.  The connection a constructor returns: whatever option the
    caller passed, nil included, a connection returned by [NewClient] or
    [NewClientFromConn] is a client's, has no continuation open and no
    handler call behind it, and its configuration has positive
    ReadMaxPayloadSize, WriteMaxPayloadSize, buffer sizes and
    ReadAsyncGoLimit and a Recovery function and a Logger that are not
    nil (so that [dispatch], which calls Recovery, cannot fault). *)
Theorem client_connection_usable (h h' : heap ClientOption) (p : option nat)
    (conn : netConn) (c : Conn) (resp : option Response) (err : option error) :
  validPointer h p ->
  NewClient E h p = Done (h', (Some c, resp, err)) \/
  NewClientFromConn E h p conn = Done (h', (Some c, resp, err)) ->
  usableConfig (config c) /\ isServer c = false /\
  initialized (cont c) = false /\ events c = [] /\
  forall emitClose_result, reachable emitClose_result c.
Proof.
  intros Hp H.
  destruct (NewClient_pointer h p Hp) as (h0 & l & o & Ho & HN & HF & _ & _).
  assert (Hcfg : exists o', config c = ClientOption_getConfig o' /\
                            isServer c = false /\ initialized (cont c) = false /\
                            events c = [] /\
                            withTlsConfig o' (co_TlsConfig o) = initClientOption_fields o).
  { destruct H as [H|H].
    - rewrite HN in H.
      destruct (NewClient_inv E h0 h' l o _ Ho H)
        as [[Hh [(e & _ & Hr)|[(u & _ & _ & _ & Hr)|[(u & nd & e & _ & _ & _ & Hr)|
             [(u & nd & d & e & _ & _ & _ & _ & Hr)|(u & nd & d & cn & _ & _ & _ & _ & _ & Hhs)]]]]]
           |(u & nd & d & cn & _ & _ & _ & _ & _ & Hh & Hhs)]; try discriminate.
      + exists (initClientOption_fields o).
        eapply handshake_config with (l := l) (o := initClientOption_fields o) in Hhs
          as (? & ? & ? & ?);
          [repeat split; assumption | reflexivity | rewrite Hh; apply lookup_insert_eq].
      + exists (withTlsConfig (initClientOption_fields o)
                  (Some (tlsFor (initClientOption_fields o) u))).
        eapply handshake_config with (l := l)
            (o := withTlsConfig (initClientOption_fields o)
                    (Some (tlsFor (initClientOption_fields o) u))) in Hhs
          as (? & ? & ? & ?);
          [repeat split; assumption | reflexivity | rewrite Hh; apply lookup_insert_eq].
    - rewrite HF in H. unfold NewClientFromConn in H.
      rewrite (initClientOption_valid h0 l o Ho) in H. cbn [obind] in H.
      unfold obind in H.
      destruct (handshake E _ _) as [r0|w] eqn:Hhs; [|discriminate].
      injection H as <- ->.
      exists (initClientOption_fields o).
      eapply handshake_config with (l := l) (o := initClientOption_fields o) in Hhs
        as (? & ? & ? & ?);
        [repeat split; assumption | reflexivity | apply lookup_insert_eq]. }
  destruct Hcfg as (o' & Hc & Hsrv & Hinit & Hev & Ho').
  split.
  - rewrite Hc. pose proof (initClientOption_usable o) as Hu.
    rewrite <- Ho' in Hu. exact Hu.
  - repeat split; try assumption. intros ec. now apply reach_fresh.
Qed.

(** X14.  The errors of [NewClient] before the handshake: an address that
    does not parse returns the parser's error; a scheme other than ws and
    wss returns ErrUnsupportedProtocol; with no NewDialer in the option,
    a failure to dial -- with a net.Dialer whose timeout is 5 s, on tcp,
    at the address of the URL -- returns the dialer's error.  In each
    case no connection and no response are returned, and the caller's
    option record has been initialised all the same. *)
Theorem NewClient_early_errors (h : heap ClientOption) (l : nat) (o : ClientOption) :
  h !! l = Some o ->
  let failed e := Done (<[l := initClientOption_fields o]> h, (None, None, Some e)) in
  (forall e, env_url_Parse E (co_Addr o) = Err e -> NewClient E h (Some l) = failed e) /\
  (forall u, env_url_Parse E (co_Addr o) = Ok u ->
     Scheme u <> "ws" -> Scheme u <> "wss" ->
     NewClient E h (Some l) = failed ErrUnsupportedProtocol) /\
  (forall u e, env_url_Parse E (co_Addr o) = Ok u ->
     Scheme u = "ws" \/ Scheme u = "wss" ->
     co_NewDialer o = None ->
     env_Dial E (netDialer 5000000000) "tcp"
       (env_GetAddrFromURL E u (String.eqb (Scheme u) "wss")) = Err e ->
     NewClient E h (Some l) = failed e).
Proof.
  intros Ho failed. subst failed.
  unfold NewClient. rewrite (initClientOption_valid h l o Ho). cbn [obind].
  unfold load. rewrite lookup_insert_eq. cbn [obind].
  change (co_Addr (initClientOption_fields o)) with (co_Addr o).
  split; [|split].
  - intros e ->. reflexivity.
  - intros u -> Hws Hwss.
    destruct (String.eqb_spec (Scheme u) "ws"); [contradiction|].
    destruct (String.eqb_spec (Scheme u) "wss"); [contradiction|]. reflexivity.
  - intros u e -> Hscheme Hnd Hdial.
    assert (Hbad : negb (String.eqb (Scheme u) "ws") && negb (String.eqb (Scheme u) "wss")
                   = false).
    { destruct Hscheme as [-> | ->]; reflexivity. }
    rewrite Hbad.
    cbn [initClientOption_fields co_NewDialer]. rewrite Hnd. cbn [orElse callable obind].
    unfold defaultDialTimeout, Second. change (5 * 1000000000) with 5000000000.
    rewrite Hdial. reflexivity.
Qed.

(** X15.  [NewClient] works on the caller's option record: when it
    returns, with a connection or with an error, the record holds the
    option initialised, its TLS configuration apart; that one is changed
    only when a wss address was dialled, and then it is the caller's
    configuration if that names a server, and otherwise one whose server
    name is the host of the address.  No field of another record has
    changed, the TLS configuration left aside: the server name is stored
    through the caller's pointer, and a record that shares the pointer
    sees it. *)
Theorem NewClient_option_in_place (h h' : heap ClientOption) (l : nat) (o : ClientOption)
    (r : option Conn * option Response * option error) :
  h !! l = Some o ->
  NewClient E h (Some l) = Done (h', r) ->
  (forall l', l' <> l ->
     (fun x => withTlsConfig x None) <$> h' !! l'
     = (fun x => withTlsConfig x None) <$> h !! l') /\
  exists o',
    h' !! l = Some o' /\
    withTlsConfig o' (co_TlsConfig o) = initClientOption_fields o /\
    (co_TlsConfig o' = co_TlsConfig o \/
     exists u cfg,
       env_url_Parse E (co_Addr o) = Ok u /\ Scheme u = "wss" /\
       co_TlsConfig o' = Some cfg /\
       (forall t, co_TlsConfig o = Some t -> ServerName t <> "" -> cfg = t) /\
       (co_TlsConfig o = None \/ (exists t, co_TlsConfig o = Some t /\ ServerName t = "") ->
        ServerName cfg = Hostname u)).
Proof.
  intros Ho H.
  destruct (NewClient_inv E h h' l o r Ho H) as [[Hh _]|(u & nd & d & cn & Hu & Hs & _ & _ & _ & Hh & _)].
  - rewrite Hh. split; [intros l' Hne; now rewrite lookup_insert_ne|].
    exists (initClientOption_fields o). rewrite lookup_insert_eq.
    split; [reflexivity|]. split; [reflexivity|]. now left.
  - rewrite Hh. split; [intros l' Hne; now rewrite lookup_insert_ne|].
    eexists. rewrite lookup_insert_eq. split; [reflexivity|].
    split; [reflexivity|]. right. exists u, (tlsFor (initClientOption_fields o) u).
    split; [assumption|]. split; [assumption|]. split; [reflexivity|].
    unfold tlsFor. cbn [initClientOption_fields co_TlsConfig].
    split.
    + intros t -> Hne. cbn [default from_option id].
      destruct (String.eqb_spec (ServerName t) ""); [contradiction|reflexivity].
    + intros [-> | (t & -> & Ht)]; cbn [default from_option id].
      * reflexivity.
      * rewrite Ht. reflexivity.
Qed.

End ConstructorFacts.

Section ResultShape.

Variable E : Env.



End ResultShape.

(** * Further properties of the options *)

Lemma orDefault_idem (v d : Z) : 0 < d -> orDefault (orDefault v d) d = orDefault v d.
Proof.
  intros Hd. unfold orDefault at 1.
  pose proof (orDefault_pos v d Hd). destruct (Z.leb_spec (orDefault v d) 0); [lia|reflexivity].
Qed.

Lemma orElse_idem {A : Type} (v : option A) (d : A) : orElse (orElse v d) d = orElse v d.
Proof. now destruct v. Qed.

Lemma windowBits_idem (bits : Z) : windowBits (windowBits bits) = windowBits bits.
Proof.
  unfold windowBits.
  destruct (bits <? 8) eqn:H8; [reflexivity|].
  destruct (bits >? 15) eqn:H15; [reflexivity|]. cbn [orb].
  now rewrite H8, H15.
Qed.

Lemma level_idem (v : Z) :
  (if (if v =? 0 then defaultCompressLevel else v) =? 0 then defaultCompressLevel
   else (if v =? 0 then defaultCompressLevel else v))
  = (if v =? 0 then defaultCompressLevel else v).
Proof. destruct (Z.eqb_spec v 0) as [->|Hv]; [reflexivity|]. now destruct (Z.eqb_spec v 0). Qed.

Lemma ToBinaryNumber_pos (n : Z) : 0 < ToBinaryNumber n.
Proof. unfold ToBinaryNumber. pose proof (Z.log2_up_nonneg n). lia. Qed.

Lemma ToBinaryNumber_idem (n d : Z) :
  ToBinaryNumber (orDefault (ToBinaryNumber n) d) = ToBinaryNumber n.
Proof.
  pose proof (ToBinaryNumber_pos n) as Hpos.
  unfold orDefault. destruct (Z.leb_spec (ToBinaryNumber n) 0); [lia|].
  unfold ToBinaryNumber. rewrite Z.log2_up_pow2 by apply Z.log2_up_nonneg. reflexivity.
Qed.

Lemma initServerDeflate_idem (pd : PermessageDeflate) :
  initServerDeflate (initServerDeflate pd) = initServerDeflate pd.
Proof.
  unfold initServerDeflate. destruct (Enabled pd) eqn:Hen; [|now rewrite Hen].
  cbn [Enabled Level Threshold PoolSize ServerContextTakeover ClientContextTakeover
       ServerMaxWindowBits ClientMaxWindowBits].
  rewrite level_idem, orDefault_idem, ToBinaryNumber_idem, !windowBits_idem by reflexivity.
  reflexivity.
Qed.

Lemma initClientDeflate_idem (pd : PermessageDeflate) :
  initClientDeflate (initClientDeflate pd) = initClientDeflate pd.
Proof.
  unfold initClientDeflate. destruct (Enabled pd) eqn:Hen; [|now rewrite Hen].
  cbn [Enabled Level Threshold PoolSize ServerContextTakeover ClientContextTakeover
       ServerMaxWindowBits ClientMaxWindowBits].
  rewrite level_idem, orDefault_idem, !windowBits_idem by reflexivity.
  reflexivity.
Qed.

Lemma initClientOption_fields_idem (o : ClientOption) :
  initClientOption_fields (initClientOption_fields o) = initClientOption_fields o.
Proof.
  unfold initClientOption_fields.
  cbn [co_WriteBufferSize co_PermessageDeflate co_ReadAsyncEnabled co_ReadAsyncGoLimit
       co_ReadMaxPayloadSize co_ReadBufferSize co_WriteMaxPayloadSize co_CheckUtf8Enabled
       co_Logger co_Recovery co_Addr co_RequestHeader co_HandshakeTimeout co_TlsConfig
       co_NewDialer co_NewSession].
  rewrite !orDefault_idem, !orElse_idem, initClientDeflate_idem by reflexivity.
  reflexivity.
Qed.

(** The option record with its response header replaced. *)
Definition withResponseHeader (o : ServerOption)
    (hdr : option (gmap string (list string))) : ServerOption :=
  {| so_config := so_config o;
     so_WriteBufferSize := so_WriteBufferSize o;
     so_PermessageDeflate := so_PermessageDeflate o;
     so_ReadAsyncEnabled := so_ReadAsyncEnabled o;
     so_ReadAsyncGoLimit := so_ReadAsyncGoLimit o;
     so_ReadMaxPayloadSize := so_ReadMaxPayloadSize o;
     so_ReadBufferSize := so_ReadBufferSize o;
     so_WriteMaxPayloadSize := so_WriteMaxPayloadSize o;
     so_CheckUtf8Enabled := so_CheckUtf8Enabled o;
     so_Logger := so_Logger o;
     so_Recovery := so_Recovery o;
     so_TlsConfig := so_TlsConfig o;
     so_HandshakeTimeout := so_HandshakeTimeout o;
     so_SubProtocols := so_SubProtocols o;
     so_ResponseHeader := hdr;
     so_Authorize := so_Authorize o;
     so_NewSession := so_NewSession o |}.

(** The names [deleteProtectedHeaders] deletes. *)
Definition protectedHeaders : list string :=
  [Upgrade_Key; Connection_Key; SecWebSocketAccept_Key; SecWebSocketExtensions_Key;
   SecWebSocketProtocol_Key].

Section OptionExtras.

Variable CanonicalMIMEHeaderKey : string -> string.

Local Abbreviation canon := CanonicalMIMEHeaderKey.

Lemma deleteProtectedHeaders_lookup (hdr : gmap string (list string)) (key : string) :
  deleteProtectedHeaders canon hdr !! key
  = if bool_decide (key ∈ canon <$> protectedHeaders) then None else hdr !! key.
Proof.
  assert (Hdel : forall k (m : gmap string (list string)),
             delete k m !! key = if bool_decide (k = key) then None else m !! key).
  { intros k m. case_bool_decide as Hk.
    - subst. apply lookup_delete_eq.
    - now apply lookup_delete_ne. }
  unfold deleteProtectedHeaders, Header_Del, protectedHeaders.
  rewrite !Hdel. cbn [fmap list_fmap].
  repeat case_bool_decide; try reflexivity; exfalso;
    repeat match goal with
           | H : context [_ ∈ _ :: _] |- _ => rewrite elem_of_cons in H
           | H : context [_ ∈ []] |- _ => rewrite elem_of_nil in H
           end; intuition congruence.
Qed.

Lemma deleteProtectedHeaders_idem (hdr : gmap string (list string)) :
  deleteProtectedHeaders canon (deleteProtectedHeaders canon hdr)
  = deleteProtectedHeaders canon hdr.
Proof.
  apply map_eq. intros key. rewrite !deleteProtectedHeaders_lookup.
  now case_bool_decide.
Qed.

Lemma initServerOption_fields_idem (o : ServerOption) :
  initServerOption_fields canon (initServerOption_fields canon o)
  = initServerOption_fields canon o.
Proof.
  unfold initServerOption_fields.
  cbn [so_config so_WriteBufferSize so_PermessageDeflate so_ReadAsyncEnabled
       so_ReadAsyncGoLimit so_ReadMaxPayloadSize so_ReadBufferSize so_WriteMaxPayloadSize
       so_CheckUtf8Enabled so_Logger so_Recovery so_TlsConfig so_HandshakeTimeout
       so_SubProtocols so_ResponseHeader so_Authorize so_NewSession].
  rewrite !orDefault_idem, !orElse_idem, initServerDeflate_idem by reflexivity.
  assert (Hh : deleteProtectedHeaders canon <$>
                 orElse (deleteProtectedHeaders canon <$> orElse (so_ResponseHeader o) ∅) ∅
               = deleteProtectedHeaders canon <$> orElse (so_ResponseHeader o) ∅).
  { destruct (so_ResponseHeader o); cbn; now rewrite deleteProtectedHeaders_idem. }
  rewrite Hh. reflexivity.
Qed.

(** X17.  What [deleteProtectedHeaders] leaves of the response header
    after [initServerOption]: the header map is never nil; it has no
    entry, so [Get] answers the empty string, for Upgrade, Connection,
    Sec-WebSocket-Accept, Sec-WebSocket-Extensions and
    Sec-WebSocket-Protocol; every entry of the user's map under another
    key than the canonical form of these five is kept as it was. *)
Theorem protected_headers_removed (o : ServerOption) :
  exists hdr,
    so_ResponseHeader (initServerOption_fields canon o) = Some hdr /\
    (forall name, name ∈ protectedHeaders ->
       hdr !! canon name = None /\ Header_Get canon hdr name = "") /\
    (forall key, key ∉ canon <$> protectedHeaders ->
       hdr !! key = default ∅ (so_ResponseHeader o) !! key).
Proof.
  exists (deleteProtectedHeaders canon (default ∅ (so_ResponseHeader o))).
  split; [|split].
  - unfold initServerOption_fields. cbn [so_ResponseHeader].
    now destruct (so_ResponseHeader o).
  - intros name Hin.
    assert (Hnone : deleteProtectedHeaders canon (default ∅ (so_ResponseHeader o))
                      !! canon name = None).
    { rewrite deleteProtectedHeaders_lookup. rewrite bool_decide_eq_true_2; [reflexivity|].
      apply list_elem_of_fmap. eauto. }
    split; [exact Hnone|]. unfold Header_Get. now rewrite Hnone.
  - intros key Hout. rewrite deleteProtectedHeaders_lookup.
    now rewrite bool_decide_eq_false_2.
Qed.

(** X18.  The configuration [initServerOption] stores and [getConfig]
    returns: it is never nil; it is usable (positive limits and buffer
    sizes, Recovery and Logger not nil); it agrees with the fields of the
    initialised record it was taken from; and its reader pool makes
    readers of at least 16 bytes and at least ReadBufferSize: of
    ReadBufferSize exactly when that is 16 or more, as the default 4096
    is. *)
Theorem server_config_snapshot (o : ServerOption) :
  let o' := initServerOption_fields canon o in
  exists cfg,
    ServerOption_getConfig o' = Some cfg /\
    usableConfig cfg /\
    (exists size,
       cfg_readerPool cfg = Some size /\
       16 <= size /\ so_ReadBufferSize o' <= size /\
       (16 <= so_ReadBufferSize o' -> size = so_ReadBufferSize o') /\
       (so_ReadBufferSize o <= 0 -> size = 4096)) /\
    cfg_ReadAsyncEnabled cfg = so_ReadAsyncEnabled o /\
    cfg_CheckUtf8Enabled cfg = so_CheckUtf8Enabled o /\
    cfg_ReadAsyncGoLimit cfg = so_ReadAsyncGoLimit o' /\
    cfg_ReadMaxPayloadSize cfg = so_ReadMaxPayloadSize o' /\
    cfg_ReadBufferSize cfg = so_ReadBufferSize o' /\
    cfg_WriteMaxPayloadSize cfg = so_WriteMaxPayloadSize o' /\
    cfg_WriteBufferSize cfg = so_WriteBufferSize o' /\
    cfg_Recovery cfg = so_Recovery o' /\
    cfg_Logger cfg = so_Logger o'.
Proof.
  intros o'. subst o'. unfold ServerOption_getConfig, initServerOption_fields.
  cbn [so_config]. eexists. split; [reflexivity|].
  split.
  - unfold usableConfig.
    cbn [cfg_ReadMaxPayloadSize cfg_WriteMaxPayloadSize cfg_ReadBufferSize
         cfg_WriteBufferSize cfg_ReadAsyncGoLimit cfg_Recovery cfg_Logger].
    repeat split; try (apply orDefault_pos; reflexivity); apply orElse_is_Some.
  - split; [|repeat split].
    cbn [cfg_readerPool so_ReadBufferSize]. eexists. split; [reflexivity|].
    unfold bufio_ReaderSize, orDefault, defaultReadBufferSize.
    destruct (Z.leb_spec (so_ReadBufferSize o) 0); repeat split; lia.
Qed.

(** X19.  [initServerOption] works in place and once is enough: for nil
    or the address of a record it returns an address that is not nil --
    the caller's, or a new one for nil; no field of another record has
    changed, the response header left aside (the protected names are
    deleted from the caller's map, and a record that shares the map sees
    it); and after a second call on the address it returned every field
    of the record has the contents it had after the first, the stored
    configuration being built again with the same contents. *)
Theorem initServerOption_in_place (h : heap ServerOption) (p : option nat) :
  validPointer h p ->
  exists h' l,
    initServerOption canon h p = Done (h', Some l) /\
    match p with Some l0 => l = l0 | None => h !! l = None end /\
    (forall l', l' <> l ->
       (fun x => withResponseHeader x None) <$> h' !! l'
       = (fun x => withResponseHeader x None) <$> h !! l') /\
    exists h'',
      initServerOption canon h' (Some l) = Done (h'', Some l) /\
      h'' !! l = h' !! l.
Proof.
  intros Hp. unfold initServerOption. destruct p as [l|].
  - destruct Hp as [o Ho]. exists (<[l := initServerOption_fields canon o]> h), l.
    unfold load, obind. rewrite Ho, lookup_insert_eq.
    split; [reflexivity|]. split; [reflexivity|].
    split; [intros l' Hne; now rewrite lookup_insert_ne|].
    cbv beta iota. eexists. split; [reflexivity|].
    now rewrite (initServerOption_fields_idem o), !lookup_insert_eq.
  - exists (<[fresh (dom h) := initServerOption_fields canon zeroServerOption]>
              (<[fresh (dom h) := zeroServerOption]> h)), (fresh (dom h)).
    unfold new, load, obind. rewrite !lookup_insert_eq.
    split; [reflexivity|].
    split; [apply not_elem_of_dom, is_fresh|].
    split; [intros l' Hne; now rewrite !lookup_insert_ne|].
    cbv beta iota. eexists. split; [reflexivity|].
    now rewrite (initServerOption_fields_idem zeroServerOption), !lookup_insert_eq.
Qed.

End OptionExtras.

(** X20.  [initClientOption] works in place and once is enough, as
    [initServerOption] does. *)
Theorem initClientOption_in_place (h : heap ClientOption) (p : option nat) :
  validPointer h p ->
  exists h' l,
    initClientOption h p = Done (h', Some l) /\
    match p with Some l0 => l = l0 | None => h !! l = None end /\
    (forall l', l' <> l -> h' !! l' = h !! l') /\
    initClientOption h' (Some l) = Done (h', Some l).
Proof.
  intros Hp. unfold initClientOption. destruct p as [l|].
  - destruct Hp as [o Ho]. exists (<[l := initClientOption_fields o]> h), l.
    unfold load, obind. rewrite Ho, lookup_insert_eq.
    split; [reflexivity|]. split; [reflexivity|].
    split; [intros l' Hne; now rewrite lookup_insert_ne|].
    cbv beta iota. now rewrite (initClientOption_fields_idem o), insert_insert_eq.
  - exists (<[fresh (dom h) := initClientOption_fields zeroClientOption]>
              (<[fresh (dom h) := zeroClientOption]> h)), (fresh (dom h)).
    unfold new, load, obind. rewrite !lookup_insert_eq.
    split; [reflexivity|].
    split; [apply not_elem_of_dom, is_fresh|].
    split; [intros l' Hne; now rewrite !lookup_insert_ne|].
    cbv beta iota.
    now rewrite (initClientOption_fields_idem zeroClientOption), !insert_insert_eq.
Qed.

(** * The further properties at concrete inputs *)

(** A server is sent the masked Binary frame "Hi" and one more byte. *)
Definition binaryHi : Conn :=
  freshConn true 0 (genFrame true false OpcodeBinary sampleKey (bytesOf "Hi") ++ [x00]).

Lemma single_frame_delivered_witness :
  exists c',
    readFrame noCloseError binaryHi
      = (Ok (Some {| msg_Opcode := OpcodeBinary; msg_Data := bytesOf "Hi" |}), c') /\
    ReadMessage noCloseError 1 binaryHi
      = Some (Ok {| msg_Opcode := OpcodeBinary; msg_Data := bytesOf "Hi" |}, c') /\
    br c' = [x00] /\ cont c' = cont binaryHi /\ events c' = events binaryHi /\
    config c' = config binaryHi.
Proof.
  apply (single_frame_delivered noCloseError binaryHi OpcodeBinary
           (sampleKey, bytesOf "Hi") [x00]).
  - right. reflexivity.
  - reflexivity.
  - split; reflexivity.
  - vm_compute. discriminate.
  - vm_compute. reflexivity.
  - reflexivity.
Defined.

(** A client is sent the Ping "ok" and then the header of a Pong. *)
Definition pingOk : Conn :=
  freshConn false 0 (genFrame true false OpcodePing None (bytesOf "ok") ++ [x8a; x00]).

Lemma control_frame_handled_witness :
  exists c',
    readFrame noCloseError pingOk = (Ok None, c') /\
    br c' = [x8a; x00] /\ cont c' = cont pingOk /\
    events c' = events pingOk ++ [OnPing (bytesOf "ok")] /\
    config c' = config pingOk /\ isServer c' = isServer pingOk.
Proof.
  apply (control_frame_handled noCloseError pingOk OpcodePing (None, bytesOf "ok")
           [x8a; x00]).
  - left. reflexivity.
  - split; [exact I|reflexivity].
  - vm_compute. discriminate.
  - vm_compute. discriminate.
  - vm_compute. reflexivity.
  - reflexivity.
Defined.

(** A client is sent a Close frame with status 1000. *)
Definition closeNormal : Conn :=
  freshConn false 0 (genFrame true false OpcodeCloseConnection None [x03; xe8]).

Lemma close_frame_handled_witness :
  exists c',
    readFrame noCloseError closeNormal = (Ok None, c') /\
    br c' = [] /\ cont c' = cont closeNormal /\
    events c' = events closeNormal ++ [OnClose [x03; xe8]].
Proof.
  apply (close_frame_handled noCloseError closeNormal (None, [x03; xe8]) []).
  - split; [exact I|reflexivity].
  - vm_compute. discriminate.
  - vm_compute. discriminate.
  - vm_compute. reflexivity.
  - reflexivity.
Defined.

(** A client is sent a Ping, an empty Pong and then the Text frame "Hi". *)
Definition pingPong : list (Z * fragment) :=
  [(OpcodePing, (None, bytesOf "a")); (OpcodePong, (None, []))].

Definition textHi : list byte := genFrame true false OpcodeText None (bytesOf "Hi").

Definition pingPongText : Conn := freshConn false 0 (controlFrames pingPong ++ textHi).

Lemma control_frames_transparent_witness :
  exists c1,
    readFrames noCloseError 2 pingPongText = ([Ok None; Ok None], c1) /\
    br c1 = textHi /\ cont c1 = cont pingPongText /\
    events c1 = events pingPongText ++ [OnPing (bytesOf "a"); OnPong []] /\
    config c1 = config pingPongText /\ isServer c1 = isServer pingPongText /\
    forall k, ReadMessage noCloseError (2 + k) pingPongText = ReadMessage noCloseError k c1.
Proof.
  apply (control_frames_transparent noCloseError pingPong textHi pingPongText).
  - repeat constructor; vm_compute; discriminate.
  - vm_compute. reflexivity.
  - reflexivity.
Defined.

(** A client is sent the header of a Binary frame of five bytes and one
    byte of it. *)
Definition cutShort : Conn := freshConn false 0 [x82; x05; x01].

Lemma truncated_payload_fails_witness :
  readFrame noCloseError cutShort = (Err EIO, set_br [] (Parse cutShort).2) /\
  cont (Parse cutShort).2 = cont cutShort /\ events (Parse cutShort).2 = events cutShort.
Proof.
  apply (truncated_payload_fails noCloseError cutShort (Parse cutShort).2 5).
  - split; [vm_compute; reflexivity|].
    split; [split; vm_compute; discriminate|].
    split; vm_compute; reflexivity.
  - left. split; vm_compute; reflexivity.
Defined.

Lemma readMessage_dispatches_witness :
  (exists m,
     Ok tt = Ok tt /\
     events (readMessage (fun _ => true) noCloseError binaryHi).2
       = events binaryHi ++ [OnMessage (cfg_ReadAsyncEnabled (config binaryHi)) m] /\
     Z.of_nat (length (msg_Data m)) <= cfg_ReadMaxPayloadSize (config binaryHi) /\
     (msg_Opcode m = OpcodeText \/ msg_Opcode m = OpcodeBinary) /\
     (cfg_CheckUtf8Enabled (config binaryHi) = true -> msg_Opcode m = OpcodeText ->
      (fun _ : list byte => true) (msg_Data m) = true) /\
     initialized (cont (readMessage (fun _ => true) noCloseError binaryHi).2) = false) \/
  (events (readMessage (fun _ => true) noCloseError binaryHi).2 = events binaryHi \/
   exists e, isControlEvent e /\
             events (readMessage (fun _ => true) noCloseError binaryHi).2
               = events binaryHi ++ [e]).
Proof.
  apply (readMessage_dispatches (fun _ => true) noCloseError binaryHi
           (readMessage (fun _ => true) noCloseError binaryHi).2 (Ok tt)).
  - apply reach_fresh. reflexivity.
  - vm_compute. reflexivity.
Defined.

(** A server is sent the Text frame "Hi" unmasked. *)
Definition unmaskedToServer : Conn := freshConn true 0 textHi.

Lemma wrong_mask_refused_witness :
  exists c',
    readFrame noCloseError unmaskedToServer = (Err (EStatus CloseProtocolError), c') /\
    br c' = bytesOf "Hi" /\ cont c' = cont unmaskedToServer /\
    events c' = events unmaskedToServer.
Proof.
  apply (wrong_mask_refused noCloseError unmaskedToServer true OpcodeText
           (None, bytesOf "Hi") []).
  - unfold OpcodeText. lia.
  - exact I.
  - vm_compute. discriminate.
  - vm_compute. discriminate.
  - vm_compute. reflexivity.
  - vm_compute. reflexivity.
Defined.

(** After two frames of "Hello!" the bytes held are within the limit. *)
Lemma continuation_buffer_bounded_witness :
  bufferInv (readFrames noCloseError 2 helloInThree).2.
Proof.
  apply (proj1 (continuation_buffer_bounded noCloseError 2 helloInThree)).
  - reflexivity.
  - vm_compute. repeat constructor.
Defined.


Lemma handshake_accept_matches_request_witness :
  exists c resp hdr r,
    env_roundTrip (sampleEnv chatReply) (k_conn chatConnector) hdr = Ok (r, br c) /\
    resp = Some r /\ StatusCode r = 101 /\
    Header_Get (env_CanonicalMIMEHeaderKey (sampleEnv chatReply)) (resp_Header r)
      "Sec-WebSocket-Accept"
    = env_base64 (sampleEnv chatReply)
        (env_sha1 (sampleEnv chatReply)
           (Header_Get (env_CanonicalMIMEHeaderKey (sampleEnv chatReply)) hdr
              "Sec-WebSocket-Key" ++ "258EAFA5-E914-47DA-95CA-C5AB0DC85B11")).
Proof.
  eexists _, _.
  eapply (handshake_accept_matches_request (sampleEnv chatReply) chatOptions chatConnector
            _ _ None).
  - reflexivity.
  - vm_compute. reflexivity.
Defined.

Lemma client_connection_usable_witness :
  exists c,
    chatConn = Some c /\
    usableConfig (config c) /\ isServer c = false /\
    initialized (cont c) = false /\ events c = [] /\
    forall emitClose_result, reachable emitClose_result c.
Proof.
  eexists. split; [vm_compute; reflexivity|].
  eapply (client_connection_usable (sampleEnv chatReply) chatOptions _ (Some 1%nat)
            (userConn 0) _ _ _).
  - vm_compute. eauto.
  - left. vm_compute. reflexivity.
Defined.

(** An option record with no address. *)
Definition noAddress : heap ClientOption := {[ 1%nat := zeroClientOption ]}.

Lemma NewClient_early_errors_witness :
  NewClient (sampleEnv chatReply) noAddress (Some 1%nat)
  = Done (<[1%nat := initClientOption_fields zeroClientOption]> noAddress,
          (None, None, Some ErrUnsupportedProtocol)).
Proof.
  apply (proj1 (proj2 (NewClient_early_errors (sampleEnv chatReply) noAddress 1%nat
                         zeroClientOption ltac:(vm_compute; reflexivity)))
           {| Scheme := ""; Hostname := "" |}).
  - reflexivity.
  - discriminate.
  - discriminate.
Defined.

(** A network on which every address is that of wss://example.com. *)
Definition secureEnv : Env :=
  let E := sampleEnv chatReply in
  {| env_CanonicalMIMEHeaderKey := env_CanonicalMIMEHeaderKey E;
     env_EqualFold := env_EqualFold E;
     env_sha1 := env_sha1 E;
     env_base64 := env_base64 E;
     env_url_Parse := fun _ => Ok {| Scheme := "wss"; Hostname := "example.com" |};
     env_http_NewRequest := env_http_NewRequest E;
     env_HttpHeaderContains := env_HttpHeaderContains E;
     env_Split := env_Split E;
     env_GetAddrFromURL := env_GetAddrFromURL E;
     env_Dial := env_Dial E;
     env_roundTrip := env_roundTrip E;
     env_keyBytes := env_keyBytes E;
     env_clearDeadline := env_clearDeadline E |}.

Lemma NewClient_option_in_place_witness :
  exists h' r,
    NewClient secureEnv noAddress (Some 1%nat) = Done (h', r) /\
    (forall l', l' <> 1%nat ->
       (fun x => withTlsConfig x None) <$> h' !! l'
       = (fun x => withTlsConfig x None) <$> noAddress !! l') /\
    exists o',
      h' !! 1%nat = Some o' /\
      withTlsConfig o' (co_TlsConfig zeroClientOption)
        = initClientOption_fields zeroClientOption /\
      (co_TlsConfig o' = co_TlsConfig zeroClientOption \/
       exists u cfg,
         env_url_Parse secureEnv (co_Addr zeroClientOption) = Ok u /\ Scheme u = "wss" /\
         co_TlsConfig o' = Some cfg /\
         (forall t, co_TlsConfig zeroClientOption = Some t -> ServerName t <> "" -> cfg = t) /\
         (co_TlsConfig zeroClientOption = None \/
          (exists t, co_TlsConfig zeroClientOption = Some t /\ ServerName t = "") ->
          ServerName cfg = Hostname u)).
Proof.
  eexists _, _. split; [vm_compute; reflexivity|].
  eapply (NewClient_option_in_place secureEnv noAddress _ 1%nat zeroClientOption _).
  - vm_compute. reflexivity.
  - vm_compute. reflexivity.
Defined.


Lemma initServerOption_in_place_witness :
  exists h' l,
    initServerOption (fun key => key) ∅ None = Done (h', Some l) /\
    (∅ : heap ServerOption) !! l = None /\
    (forall l', l' <> l ->
       (fun x => withResponseHeader x None) <$> h' !! l'
       = (fun x => withResponseHeader x None) <$> (∅ : heap ServerOption) !! l') /\
    exists h'',
      initServerOption (fun key => key) h' (Some l) = Done (h'', Some l) /\
      h'' !! l = h' !! l.
Proof.
  apply (initServerOption_in_place (fun key => key) ∅ None). exact I.
Defined.

Lemma initClientOption_in_place_witness :
  exists h' l,
    initClientOption chatOptions (Some 1%nat) = Done (h', Some l) /\
    l = 1%nat /\
    (forall l', l' <> l -> h' !! l' = chatOptions !! l') /\
    initClientOption h' (Some l) = Done (h', Some l).
Proof.
  apply (initClientOption_in_place chatOptions (Some 1%nat)). vm_compute. eauto.
Defined.
